(** * A shallow embedding of the OCR proxy (src/lib/ocr.ts, types.ts,
      endpoints/ocr.ts, index.ts) and the properties its specification
      states about it.

    Strings are sequences of UTF-16 code units ([N]); binary content is a
    list of [byte]; JSON values are a tagged union; a thrown [OcrError] and
    any other exception are the two failure arms of [Outcome]. Host
    functions the source calls and that are not modelled in full ([Number],
    [JSON.parse], [toLowerCase]) are the fields of the class [JsHost]; the
    network and the clock are the fields of [World]. *)

From Stdlib Require Import NArith ZArith QArith Qround String Ascii Bool Lia List.
From Stdlib Require Import Init.Byte.
Import ListNotations.

Local Open Scope N_scope.

(** ** Strings of code units *)

Definition jsstring := list N.

(** An ASCII literal of the source as code units. *)
Definition lit (s : string) : jsstring :=
  map N_of_ascii (list_ascii_of_string s).

Fixpoint str_eqb (a b : jsstring) : bool :=
  match a, b with
  | [], [] => true
  | x :: a', y :: b' => (x =? y) && str_eqb a' b'
  | _, _ => false
  end.

(** JS truthiness of a string: non-empty. *)
Definition truthy_str (s : jsstring) : bool :=
  match s with [] => false | _ => true end.

(** Truthiness of [string | undefined]. *)
Definition truthy_ostr (o : option jsstring) : bool :=
  match o with Some s => truthy_str s | None => false end.

(** [a || b] on strings. *)
Definition or_str (a b : jsstring) : jsstring :=
  if truthy_str a then a else b.

(** ECMAScript WhiteSpace and LineTerminator code units: what
    [String.prototype.trim] strips and the regular expression class [\s]
    matches. *)
Definition is_ws (c : N) : bool :=
  existsb (N.eqb c)
    [9; 10; 11; 12; 13; 32; 160; 5760; 8232; 8233; 8239; 8287; 12288; 65279]
  || ((8192 <=? c) && (c <=? 8202)).

Fixpoint drop_ws (s : jsstring) : jsstring :=
  match s with
  | c :: s' => if is_ws c then drop_ws s' else s
  | [] => []
  end.

(** [s.trim()] *)
Definition trim (s : jsstring) : jsstring :=
  rev (drop_ws (rev (drop_ws s))).

(** [s.startsWith(p)] *)
Fixpoint startsWith (p s : jsstring) : bool :=
  match p, s with
  | [], _ => true
  | x :: p', y :: s' => (x =? y) && startsWith p' s'
  | _ :: _, [] => false
  end.

(** [s.includes(sub)] *)
Fixpoint includes (sub s : jsstring) : bool :=
  startsWith sub s ||
  match s with
  | [] => false
  | _ :: s' => includes sub s'
  end.

(** [s.split(sep)] for a separator of one code unit (the source splits on
    "." and on ","). *)
Fixpoint split (sep : N) (s : jsstring) : list jsstring :=
  match s with
  | [] => [[]]
  | c :: s' =>
      if c =? sep then [] :: split sep s'
      else match split sep s' with
           | p :: ps => (c :: p) :: ps
           | [] => [[c]]
           end
  end.

(** [parts.pop()] : the last element, [undefined] on an empty array. *)
Definition pop {A} (l : list A) : option A :=
  match rev l with x :: _ => Some x | [] => None end.

(** [s.slice(1)] *)
Definition slice1 (s : jsstring) : jsstring := tl s.

(** The lower-case mapping of a Basic Latin code unit. *)
Definition lower_unit (c : N) : N :=
  if (65 <=? c) && (c <=? 90) then c + 32 else c.

(** The first occurrence of [pat] in [s]: the text before it and after it. *)
Fixpoint split_at_first (pat s : jsstring) : option (jsstring * jsstring) :=
  if startsWith pat s then Some ([], skipn (length pat) s)
  else match s with
       | [] => None
       | c :: s' =>
           match split_at_first pat s' with
           | Some (b, a) => Some (c :: b, a)
           | None => None
           end
       end.

(** ECMAScript GetSubstitution for a string pattern (no captures): in the
    replacement text "$$" stands for "$", "$&" for the matched text, "$`"
    for the text before the match and "$'" for the text after it; any other
    "$" is literal. *)
Fixpoint getSubstitution (matched before after tmpl : jsstring) : jsstring :=
  match tmpl with
  | [] => []
  | c :: r =>
      if c =? 36 then
        match r with
        | d :: r' =>
            if d =? 36 then 36 :: getSubstitution matched before after r'
            else if d =? 38 then matched ++ getSubstitution matched before after r'
            else if d =? 96 then before ++ getSubstitution matched before after r'
            else if d =? 39 then after ++ getSubstitution matched before after r'
            else c :: getSubstitution matched before after r
        | [] => [c]
        end
      else c :: getSubstitution matched before after r
  end.

(** [s.replace(pat, repl)] with a string pattern: the first occurrence only,
    the replacement expanded by GetSubstitution. *)
Definition replace (pat repl s : jsstring) : jsstring :=
  match split_at_first pat s with
  | Some (b, a) => b ++ getSubstitution pat b a repl ++ a
  | None => s
  end.

(** What the specification calls substitution: the first occurrence of
    [pat] replaced by [repl] taken literally. *)
Definition replace_literal (pat repl s : jsstring) : jsstring :=
  match split_at_first pat s with
  | Some (b, a) => b ++ repl ++ a
  | None => s
  end.

(** [s.replace(/\s/g, "")] *)
Definition remove_ws (s : jsstring) : jsstring :=
  filter (fun c => negb (is_ws c)) s.

(** [s.replace(/\/$/, "")]: one trailing slash removed. *)
Definition strip_trailing_slash (s : jsstring) : jsstring :=
  match rev s with
  | c :: r => if c =? 47 then rev r else s
  | [] => s
  end.

(** [s.split(/[,\s]+/)]: cut at every maximal run of commas and white
    space; a run at either end leaves an empty first or last piece. *)
Definition is_sep (c : N) : bool := (c =? 44) || is_ws c.

Fixpoint split_runs (s : jsstring) (in_run : bool) : list jsstring :=
  match s with
  | [] => [[]]
  | c :: s' =>
      if is_sep c then
        if in_run then split_runs s' true else [] :: split_runs s' true
      else match split_runs s' false with
           | p :: ps => (c :: p) :: ps
           | [] => [[c]]
           end
  end.

Definition join (sep : jsstring) (l : list jsstring) : jsstring :=
  match l with
  | [] => []
  | x :: r => x ++ flat_map (fun y => sep ++ y) r
  end.

Definition newline : jsstring := [10].

(** ** Numbers and JSON values *)

(** A JS number: a double is a rational, an infinity or NaN. *)
Inductive jsnum : Type :=
| NaN
| Infinity (negative : bool)
| Finite (q : Q).

#[local] Set Warnings "-register-all".

(** The value of [JSON.parse]; [undefined] is [None] of [option json]. An
    object is the list of its own properties, each key once. *)
Inductive json : Type :=
| JNull
| JBool (b : bool)
| JNum (n : jsnum)
| JStr (s : jsstring)
| JArr (items : list json)
| JObj (props : list (jsstring * json)).

Fixpoint assoc {A} (k : jsstring) (l : list (jsstring * A)) : option A :=
  match l with
  | [] => None
  | (k', v) :: l' => if str_eqb k k' then Some v else assoc k l'
  end.

(** [v?.k] and, on a value known to be truthy, [v.k]: only an object has
    one of the property names the source reads. *)
Definition get (k : string) (v : option json) : option json :=
  match v with
  | Some (JObj props) => assoc (lit k) props
  | _ => None
  end.

(** [v?.[0]] *)
Definition get0 (v : option json) : option json :=
  match v with
  | Some (JArr items) => hd_error items
  | Some (JStr (c :: _)) => Some (JStr [c])
  | Some (JObj props) => assoc (lit "0") props
  | _ => None
  end.

(** JS truthiness. *)
Definition truthy (v : option json) : bool :=
  match v with
  | None | Some JNull => false
  | Some (JBool b) => b
  | Some (JNum NaN) => false
  | Some (JNum (Infinity _)) => true
  | Some (JNum (Finite q)) => negb (Qeq_bool q 0)
  | Some (JStr s) => truthy_str s
  | Some (JArr _) | Some (JObj _) => true
  end.

(** The host functions that are taken as they are: [Number(s)],
    [JSON.parse(s)] ([None] when it throws a SyntaxError) and
    [s.toLowerCase()], of which the program relies on the Basic Latin
    part: a string of code units below 128 has its letters A-Z mapped to
    a-z and nothing else changed. *)
Class JsHost : Type := {
  Number_ : jsstring -> jsnum;
  JSON_parse : jsstring -> option json;
  toLowerCase : jsstring -> jsstring;
  toLowerCase_ascii :
    forall s, forallb (fun c => c <? 128) s = true ->
              toLowerCase s = map lower_unit s
}.

(** ** Outcomes

    A call either returns, throws an [OcrError], or throws something else
    (a [SyntaxError], a [TypeError], a [DOMException], a rejected promise).
    handleError tells the last two apart with [instanceof]. *)

(** What the message of an UPSTREAM_ERROR quotes: [data?.error?.message],
    or [response.statusText], or a fixed text. *)
Inductive UpstreamDetail : Type :=
| FromPayload (v : json)
| FromStatusText (s : jsstring)
| DefaultDetail.

(** The message texts of the source are fixed literals; the model names
    them and keeps the interpolated values. *)
Inductive Message : Type :=
| MsgUnsupportedContentType
| MsgInvalidFile
| MsgZodIssues (issues : list (jsstring * string))
| MsgMissingImage
| MsgMissingTaskType
| MsgInvalidTaskType
| MsgMissingTargetText
| MsgFileTooLarge (limitMB : Z)
| MsgUnsupportedFormat
| MsgMissingApiKey
| MsgUpstream (detail : UpstreamDetail)
| MsgNoChoice
| MsgEmptyText
| MsgInternal.

(** [class OcrError extends Error] *)
Record OcrError : Type := mkOcrError {
  status : Z;
  code : string;
  message : Message;
  details : option jsstring
}.

Inductive Outcome (A : Type) : Type :=
| Ok (a : A)
| Throw (e : OcrError)
| Crash.

Arguments Ok {A} a.
Arguments Throw {A} e.
Arguments Crash {A}.

Definition bind {A B} (m : Outcome A) (k : A -> Outcome B) : Outcome B :=
  match m with
  | Ok a => k a
  | Throw e => Throw e
  | Crash => Crash
  end.

Notation "'let*' x ':=' m 'in' k" := (bind m (fun x => k))
  (at level 10, x pattern, m at level 100, k at level 200).

(** [throw new OcrError(status, code, message)] *)
Definition throwOcr {A} (st : Z) (c : string) (m : Message) : Outcome A :=
  Throw (mkOcrError st c m None).

(** A host call that returns a value or throws a non-[OcrError]. *)
Definition ofHost {A} (o : option A) : Outcome A :=
  match o with Some a => Ok a | None => Crash end.

(** ** The Encoder: base64 *)

(** The base64 alphabet. *)
Definition b64char (i : N) : N :=
  if i <? 26 then 65 + i
  else if i <? 52 then 71 + i
  else if i <? 62 then i - 4
  else if i =? 62 then 43
  else 47.

Definition b64index (c : N) : option N :=
  if (65 <=? c) && (c <=? 90) then Some (c - 65)
  else if (97 <=? c) && (c <=? 122) then Some (c - 71)
  else if (48 <=? c) && (c <=? 57) then Some (c + 4)
  else if c =? 43 then Some 62
  else if c =? 47 then Some 63
  else None.

(** [btoa] on a string whose code units are all below 256. *)
Fixpoint btoa_units (s : jsstring) : jsstring :=
  match s with
  | a :: b :: c :: r =>
      b64char (a / 4) :: b64char ((a mod 4) * 16 + b / 16)
      :: b64char ((b mod 16) * 4 + c / 64) :: b64char (c mod 64)
      :: btoa_units r
  | [a; b] =>
      [b64char (a / 4); b64char ((a mod 4) * 16 + b / 16);
       b64char ((b mod 16) * 4); 61]
  | [a] => [b64char (a / 4); b64char ((a mod 4) * 16); 61; 61]
  | [] => []
  end.

(** [btoa(s)]: throws InvalidCharacterError on a code unit above 255. *)
Definition btoa (s : jsstring) : option jsstring :=
  if forallb (fun c => c <? 256) s then Some (btoa_units s) else None.

(** ASCII white space of the forgiving-base64 decoder. *)
Definition is_ascii_ws (c : N) : bool :=
  existsb (N.eqb c) [9; 10; 12; 13; 32].

(** One or two trailing "=" removed. *)
Fixpoint strip_padding (d : jsstring) : jsstring :=
  match d with
  | [] => []
  | a :: d' =>
      match d' with
      | [] => if a =? 61 then [] else [a]
      | [b] => if b =? 61 then (if a =? 61 then [] else [a]) else [a; b]
      | _ => a :: strip_padding d'
      end
  end.

(** Four sextets give three bytes; two or three left over give one or two
    bytes, the spare bits dropped; one left over, or a code unit outside
    the alphabet, is a failure. *)
Fixpoint decode_units (d : jsstring) : option jsstring :=
  match d with
  | c1 :: c2 :: c3 :: c4 :: r =>
      match b64index c1, b64index c2, b64index c3, b64index c4, decode_units r with
      | Some i1, Some i2, Some i3, Some i4, Some rest =>
          Some (i1 * 4 + i2 / 16 :: (i2 mod 16) * 16 + i3 / 4
                :: (i3 mod 4) * 64 + i4 :: rest)
      | _, _, _, _, _ => None
      end
  | [c1; c2; c3] =>
      match b64index c1, b64index c2, b64index c3 with
      | Some i1, Some i2, Some i3 =>
          Some [i1 * 4 + i2 / 16; (i2 mod 16) * 16 + i3 / 4]
      | _, _, _ => None
      end
  | [c1; c2] =>
      match b64index c1, b64index c2 with
      | Some i1, Some i2 => Some [i1 * 4 + i2 / 16]
      | _, _ => None
      end
  | [_] => None
  | [] => Some []
  end.

(** [atob(data)]: the forgiving-base64 decoder; [None] when it throws. *)
Definition atob (data : jsstring) : option jsstring :=
  let d := filter (fun c => negb (is_ascii_ws c)) data in
  let d := if (N.of_nat (length d) mod 4 =? 0) then strip_padding d else d in
  decode_units d.

(** [String.fromCharCode(...chunk)] *)
Definition fromCharCode (chunk : list byte) : jsstring := map Byte.to_N chunk.

(** A store into a [Uint8Array] keeps the low eight bits. *)
Definition toUint8 (c : N) : byte :=
  match Byte.of_N (c mod 256) with Some b => b | None => x00 end.

Definition chunkSize : nat := N.to_nat 32768.

(** [buffer.subarray(i, i + chunkSize)] *)
Definition subarray {A} (buffer : list A) (i j : nat) : list A :=
  firstn (j - i) (skipn i buffer).

(** The loop of fileToBase64, [i] advancing by [chunkSize]; it runs at most
    once per byte, so [fuel] above the length is never used up. *)
Fixpoint fileToBase64_loop (fuel : nat) (buffer : list byte) (i : nat)
    (binary : jsstring) : jsstring :=
  match fuel with
  | O => binary
  | S fuel' =>
      if (i <? length buffer)%nat then
        let chunk := subarray buffer i (i + chunkSize) in
        fileToBase64_loop fuel' buffer (i + chunkSize)%nat
          (binary ++ fromCharCode chunk)
      else binary
  end.

(** [fileToBase64(file)], on the file's content. *)
Definition fileToBase64 (buffer : list byte) : Outcome jsstring :=
  let binary := fileToBase64_loop (S (length buffer)) buffer 0%nat [] in
  ofHost (btoa binary).

(** [base64ToUint8Array(base64)] *)
Definition base64ToUint8Array (base64 : jsstring) : Outcome (list byte) :=
  let cleaned :=
    remove_ws
      (if includes (lit ",") base64
       then match pop (split 44 base64) with Some p => p | None => base64 end
       else base64) in
  let* binary := ofHost (atob cleaned) in
  Ok (map toUint8 binary).

(** ** Data model (types.ts) *)

(** [TaskTypeSchema = z.enum([...])] *)
Inductive TaskType : Type :=
| document_markdown
| general_ocr
| plaintext_ocr
| chart_parse
| image_caption
| text_localization.

(** The string a task type is at run time. *)
Definition taskTypeName (t : TaskType) : jsstring :=
  match t with
  | document_markdown => lit "document_markdown"
  | general_ocr => lit "general_ocr"
  | plaintext_ocr => lit "plaintext_ocr"
  | chart_parse => lit "chart_parse"
  | image_caption => lit "image_caption"
  | text_localization => lit "text_localization"
  end.

Definition allTaskTypes : list TaskType :=
  [document_markdown; general_ocr; plaintext_ocr; chart_parse; image_caption;
   text_localization].

(** [TaskTypeSchema.safeParse(s)] on a string. *)
Definition TaskTypeSchema_safeParse (s : jsstring) : option TaskType :=
  find (fun t => str_eqb (taskTypeName t) s) allTaskTypes.

(** [TaskConfig]; an optional flag that is left out is falsy. *)
Record TaskConfig : Type := mkTaskConfig {
  id : TaskType;
  defaultPrompt : jsstring;
  requiresTargetText : bool;
  allowCustomPrompt : bool
}.

(** A [File]: its name, its declared type and its bytes. *)
Record File : Type := mkFile {
  name : jsstring;
  type : jsstring;
  content : list byte
}.

(** [file.size] *)
Definition size (f : File) : N := N.of_nat (length (content f)).

Record ParsedInput : Type := mkParsedInput {
  file : File;
  filename : jsstring;
  taskType : TaskType;
  customPrompt : option jsstring;
  targetText : option jsstring
}.

(** The output of [JsonRequestSchema.extend(...).safeParse] on success. *)
Record JsonRequest : Type := mkJsonRequest {
  j_taskType : option jsstring;
  j_image : jsstring;
  j_filename : option jsstring;
  j_prompt : option jsstring;
  j_text : option jsstring
}.

(** The bindings of [AppBindings]; a variable that is not set is [None]. *)
Record Env : Type := mkEnv {
  SILICONFLOW_API_KEY : option jsstring;
  SILICONFLOW_BASE_URL : option jsstring;
  SILICONFLOW_MODEL_ID : option jsstring;
  MAX_FILE_SIZE : option jsstring;
  SUPPORTED_FORMATS : option jsstring
}.

(** A multipart field value, and what [parseBody] holds under one key. *)
Inductive FormValue : Type :=
| FormString (s : jsstring)
| FormFile (f : File).

Inductive FormEntry : Type :=
| One (v : FormValue)
| Many (vs : list FormValue).

(** The inbound request as the core reads it: the content-type header, and
    the results of [c.req.parseBody()] and [c.req.json()], [None] where the
    call throws. *)
Record Request : Type := mkRequest {
  header_content_type : option jsstring;
  req_parseBody : option (list (jsstring * FormEntry));
  req_json : option json
}.

(** What is sent upstream and what comes back. *)
Record UpstreamRequest : Type := mkUpstreamRequest {
  endpoint : jsstring;
  authorization : jsstring;
  req_model : jsstring;
  image_url : jsstring;
  prompt_text : jsstring
}.

Record UpstreamResponse : Type := mkUpstreamResponse {
  resp_status : Z;
  resp_statusText : jsstring;
  resp_text : option jsstring
}.

(** [response.ok] *)
Definition resp_ok (r : UpstreamResponse) : bool :=
  ((200 <=? resp_status r) && (resp_status r <=? 299))%Z.

(** The network and the clock: what [fetch] answers ([None] when it
    rejects) and the processing time the handler measures. *)
Record World : Type := mkWorld {
  fetch : UpstreamRequest -> option UpstreamResponse;
  measured_ms : Q
}.

(** [data] of the success envelope. *)
Record OcrData : Type := mkOcrData {
  data_text : jsstring;
  data_confidence : option json;
  data_processingTime : Q;
  data_model : json;
  data_taskType : TaskType;
  data_promptUsed : jsstring;
  data_filename : jsstring
}.

(** The response: its HTTP status and its envelope. *)
Inductive Envelope : Type :=
| SuccessBody (data : OcrData)
| ErrorBody (code : string) (message : Message) (details : option jsstring).

(** What the handler gives back: a response, or nothing when it throws
    ([Uncaught]: the promise handleOcrRequest returns rejects). *)
Inductive Response : Type :=
| mkResponse (http_status : Z) (envelope : Envelope)
| Uncaught.

(** The null body statuses of the Fetch standard. *)
Definition nullBodyStatus (status : Z) : bool :=
  ((status =? 101) || (status =? 103) || (status =? 204) || (status =? 205)
   || (status =? 304))%Z.

(** [Response.json(body, { status })]: a RangeError for a status outside
    200-599, a TypeError for a null body status, the response otherwise. *)
Definition Response_json (body : Envelope) (status : Z) : Response :=
  if ((200 <=? status) && (status <=? 599))%Z && negb (nullBodyStatus status)
  then mkResponse status body
  else Uncaught.

Record ProcessOptions : Type := mkProcessOptions {
  forcedTaskType : option TaskType
}.

(** ** ocr.ts *)

Definition DEFAULT_MAX_FILE_SIZE : Q := inject_Z (10 * 1024 * 1024).

Definition DEFAULT_SUPPORTED_FORMATS : list jsstring :=
  [lit "image/jpeg"; lit "image/png"; lit "image/gif"; lit "image/bmp";
   lit "image/webp"; lit "application/pdf"].

Definition TASK_CONFIGS (t : TaskType) : TaskConfig :=
  match t with
  | document_markdown =>
      mkTaskConfig document_markdown
        (lit "<image>" ++ newline ++ lit "<|grounding|>Convert the document to markdown.")
        false false
  | general_ocr =>
      mkTaskConfig general_ocr
        (lit "<image>" ++ newline ++ lit "<|grounding|>OCR this image.")
        false false
  | plaintext_ocr =>
      mkTaskConfig plaintext_ocr
        (lit "<image>" ++ newline ++ lit "Free OCR.") false false
  | chart_parse =>
      mkTaskConfig chart_parse
        (lit "<image>" ++ newline ++ lit "Parse the figure.") false false
  | image_caption =>
      mkTaskConfig image_caption
        (lit "<image>" ++ newline ++ lit "Describe this image in detail.")
        false false
  | text_localization =>
      mkTaskConfig text_localization
        (lit "<image>" ++ newline ++ lit "Locate <|ref|>{{target}}<|/ref|> in the image.")
        true true
  end.

(** [resolveTaskType(forced, candidate)]; [if (forced)] tests the string
    the forced task type is. *)
Definition resolveTaskType (forced : option TaskType)
    (candidate : option jsstring) : Outcome TaskType :=
  let fromCandidate :=
    if negb (truthy_ostr candidate) then
      throwOcr 400 "MISSING_TASK_TYPE" MsgMissingTaskType
    else
      match TaskTypeSchema_safeParse
              (match candidate with Some s => s | None => [] end) with
      | Some t => Ok t
      | None => throwOcr 400 "INVALID_TASK_TYPE" MsgInvalidTaskType
      end in
  match forced with
  | Some t => if truthy_str (taskTypeName t) then Ok t else fromCandidate
  | None => fromCandidate
  end.

(** [normalizeString(value)]; a value that is not a string is [None]. *)
Definition normalizeString (value : option jsstring) : option jsstring :=
  match value with
  | Some s => if (0 <? length (trim s))%nat then Some (trim s) else None
  | None => None
  end.

(** [first(value)] *)
Definition first (value : option FormEntry) : option FormValue :=
  match value with
  | Some (Many vs) => hd_error vs
  | Some (One v) => Some v
  | None => None
  end.

(** The string a form value is, if it is one ([typeof value === "string"]). *)
Definition asString (value : option FormValue) : option jsstring :=
  match value with
  | Some (FormString s) => Some s
  | _ => None
  end.

(** [buildPrompt(config, customPrompt, targetText)] *)
Definition buildPrompt (config : TaskConfig)
    (customPrompt targetText : option jsstring) : Outcome jsstring :=
  if requiresTargetText config && negb (truthy_ostr targetText) then
    throwOcr 400 "MISSING_TARGET_TEXT" MsgMissingTargetText
  else
    let base :=
      if requiresTargetText config
      then replace (lit "{{target}}")
             (match targetText with Some t => t | None => [] end)
             (defaultPrompt config)
      else defaultPrompt config in
    if allowCustomPrompt config && truthy_ostr customPrompt then
      Ok (base ++ newline ++ match customPrompt with Some p => p | None => [] end)
    else Ok base.

Section Host.
Context {host : JsHost}.

(** [getExtension(filename)] *)
Definition getExtension (filename : jsstring) : option jsstring :=
  let parts := split 46 filename in
  if (length parts <? 2)%nat then None
  else option_map toLowerCase (pop parts).

(** [inferMimeType(filename)] *)
Definition inferMimeType (filename : option jsstring) : option jsstring :=
  let ext :=
    if truthy_ostr filename
    then getExtension (match filename with Some f => f | None => [] end)
    else None in
  match ext with
  | Some e =>
      if str_eqb e (lit "jpg") || str_eqb e (lit "jpeg") then Some (lit "image/jpeg")
      else if str_eqb e (lit "png") then Some (lit "image/png")
      else if str_eqb e (lit "gif") then Some (lit "image/gif")
      else if str_eqb e (lit "bmp") then Some (lit "image/bmp")
      else if str_eqb e (lit "webp") then Some (lit "image/webp")
      else if str_eqb e (lit "pdf") then Some (lit "application/pdf")
      else None
  | None => None
  end.

(** [a || b || c] where [b] may be [undefined]. *)
Definition or_ostr (a : jsstring) (b : option jsstring) (c : jsstring) : jsstring :=
  if truthy_str a then a else if truthy_ostr b
  then match b with Some s => s | None => c end else c.

(** [prepareFile(file, filename)]: base64, MIME type, file name. *)
Definition prepareFile (file : File) (filename : jsstring)
    : Outcome (jsstring * jsstring * jsstring) :=
  let mimeType :=
    or_ostr (type file) (inferMimeType (Some filename))
      (lit "application/octet-stream") in
  let* base64 := fileToBase64 (content file) in
  Ok (base64, mimeType, filename).

Definition Qltb (a b : Q) : bool := negb (Qle_bool b a).

(** [Math.round(x)]: the nearest integer, a tie going up. *)
Definition Math_round (x : Q) : Z := Qfloor (x + (1 # 2)).

(** [isAllowedFormat]'s callback: whether one allow-list entry accepts the
    file. *)
Definition formatMatches (normalizedMime : jsstring) (ext : option jsstring)
    (format : jsstring) : bool :=
  let normalized := toLowerCase (trim format) in
  if negb (truthy_str normalized) then false
  else if includes (lit "/") normalized then str_eqb normalized normalizedMime
  else if startsWith (lit ".") normalized then
    if truthy_ostr ext
    then str_eqb (slice1 normalized) (match ext with Some e => e | None => [] end)
    else false
  else
    if truthy_ostr ext
    then str_eqb normalized (match ext with Some e => e | None => [] end)
    else false.

(** [isAllowedFormat(formats, mimeType, filename)] *)
Definition isAllowedFormat (formats : list jsstring) (mimeType filename : jsstring)
    : bool :=
  let ext := getExtension filename in
  let normalizedMime := toLowerCase mimeType in
  existsb (formatMatches normalizedMime ext) formats.

(** [Array.isArray(parsed) && parsed.every(item => typeof item === "string")] *)
Fixpoint allStrings (items : list json) : option (list jsstring) :=
  match items with
  | [] => Some []
  | JStr s :: r =>
      match allStrings r with Some l => Some (s :: l) | None => None end
  | _ :: _ => None
  end.

Definition stringArray (parsed : option json) : option (list jsstring) :=
  match parsed with
  | Some (JArr items) => allStrings items
  | _ => None
  end.

(** [getMaxFileSize(envValue)] *)
Definition getMaxFileSize (envValue : option jsstring) : Q :=
  match envValue with
  | Some v =>
      if negb (truthy_str v) then DEFAULT_MAX_FILE_SIZE
      else match Number_ v with
           | Finite parsed =>
               if Qltb 0 parsed then parsed else DEFAULT_MAX_FILE_SIZE
           | _ => DEFAULT_MAX_FILE_SIZE
           end
  | None => DEFAULT_MAX_FILE_SIZE
  end.

(** [parseSupportedFormats(value)] *)
Definition parseSupportedFormats (value : option jsstring) : list jsstring :=
  match value with
  | Some v =>
      if negb (truthy_str v) then DEFAULT_SUPPORTED_FORMATS
      else match stringArray (JSON_parse v) with
           | Some parsed =>
               if (0 <? length parsed)%nat then parsed
               else DEFAULT_SUPPORTED_FORMATS
           | None =>
               let list := filter truthy_str (map trim (split_runs v false)) in
               if (0 <? length list)%nat then list
               else DEFAULT_SUPPORTED_FORMATS
           end
  | None => DEFAULT_SUPPORTED_FORMATS
  end.

(** [validateFile(file, filename, env)] *)
Definition validateFile (file : File) (filename : jsstring) (env : Env)
    : Outcome unit :=
  let maxFileSize := getMaxFileSize (MAX_FILE_SIZE env) in
  if Qltb maxFileSize (inject_Z (Z.of_N (size file))) then
    throwOcr 413 "FILE_TOO_LARGE"
      (MsgFileTooLarge (Math_round (maxFileSize / 1024 / 1024)))
  else
    let formats := parseSupportedFormats (SUPPORTED_FORMATS env) in
    let mimeType := or_ostr (type file) (inferMimeType (Some filename)) [] in
    if negb (isAllowedFormat formats mimeType filename) then
      throwOcr 400 "UNSUPPORTED_FORMAT" MsgUnsupportedFormat
    else Ok tt.

(** The text of one content part: [typeof part?.text === "string" ?
    part.text : ""]. *)
Definition partText (part : json) : jsstring :=
  match get "text" (Some part) with
  | Some (JStr s) => s
  | _ => []
  end.

(** [extractTextFromResponse(payload)]: the text and the confidence. *)
Definition extractTextFromResponse (payload : option json)
    : Outcome (jsstring * option json) :=
  let choice := get0 (get "choices" payload) in
  if negb (truthy choice) then throwOcr 502 "EMPTY_RESPONSE" MsgNoChoice
  else
    let content := get "content" (get "message" choice) in
    let text :=
      match content with
      | Some (JStr s) => trim s
      | Some (JArr parts) => trim (join newline (map partText parts))
      | _ => []
      end in
    if negb (truthy_str text) then throwOcr 502 "EMPTY_RESPONSE" MsgEmptyText
    else Ok (text, get "confidence" choice).

(** [value || fallback] on an optional binding. *)
Definition or_default (value : option jsstring) (fallback : jsstring) : jsstring :=
  match value with
  | Some v => or_str v fallback
  | None => fallback
  end.

(** [invokeSiliconFlow({ base64, mimeType, prompt, env })]: text,
    confidence and model. *)
Definition invokeSiliconFlow (w : World) (base64 mimeType prompt : jsstring)
    (env : Env) : Outcome (jsstring * option json * json) :=
  if negb (truthy_ostr (SILICONFLOW_API_KEY env)) then
    throwOcr 500 "MISSING_API_KEY" MsgMissingApiKey
  else
    let apiKey := or_default (SILICONFLOW_API_KEY env) [] in
    let baseUrl :=
      strip_trailing_slash
        (or_default (SILICONFLOW_BASE_URL env) (lit "https://api.siliconflow.cn")) in
    let model :=
      or_default (SILICONFLOW_MODEL_ID env) (lit "deepseek-ai/DeepSeek-OCR") in
    let request :=
      {| endpoint := baseUrl ++ lit "/v1/chat/completions";
         authorization := lit "Bearer " ++ apiKey;
         req_model := model;
         image_url := lit "data:" ++ mimeType ++ lit ";base64," ++ base64;
         prompt_text := prompt |} in
    let* response := ofHost (fetch w request) in
    let* text := ofHost (resp_text response) in
    let data := JSON_parse text in
    if negb (resp_ok response) then
      let detail :=
        match get "message" (get "error" data) with
        | Some v =>
            if truthy (Some v) then FromPayload v
            else if truthy_str (resp_statusText response)
            then FromStatusText (resp_statusText response) else DefaultDetail
        | None =>
            if truthy_str (resp_statusText response)
            then FromStatusText (resp_statusText response) else DefaultDetail
        end in
      Throw (mkOcrError (resp_status response) "UPSTREAM_ERROR"
               (MsgUpstream detail) (Some text))
    else
      let* (resultText, confidence) := extractTextFromResponse data in
      Ok (resultText, confidence,
          match get "model" data with
          | Some m => if truthy (Some m) then m else JStr model
          | None => JStr model
          end).

(** One optional key of the request schema, read as [z.string().optional()]. *)
Definition optionalString (k : string) (props : list (jsstring * json))
    : list (jsstring * string) * option jsstring :=
  match assoc (lit k) props with
  | None => ([], None)
  | Some (JStr s) => ([], Some s)
  | Some _ => ([(lit k, "invalid_type"%string)], None)
  end.

(** [image: z.string().min(1)] *)
Definition requiredImage (props : list (jsstring * json))
    : list (jsstring * string) * jsstring :=
  match assoc (lit "image") props with
  | Some (JStr s) =>
      if (1 <=? length s)%nat then ([], s)
      else ([(lit "image", "too_small"%string)], s)
  | _ => ([(lit "image", "invalid_type"%string)], [])
  end.

(** [taskType: TaskTypeSchema.optional()] *)
Definition optionalTaskType (props : list (jsstring * json))
    : list (jsstring * string) * option jsstring :=
  match assoc (lit "taskType") props with
  | None => ([], None)
  | Some (JStr s) =>
      match TaskTypeSchema_safeParse s with
      | Some _ => ([], Some s)
      | None => ([(lit "taskType", "invalid_enum_value"%string)], None)
      end
  | Some _ => ([(lit "taskType", "invalid_type"%string)], None)
  end.

(** [JsonRequestSchema.extend({ taskType: TaskTypeSchema.optional() })
    .safeParse(raw)]: the issues, or the parsed request when there is none. *)
Definition JsonRequestSchema_safeParse (raw : json)
    : list (jsstring * string) + JsonRequest :=
  match raw with
  | JObj props =>
      let '(i1, t) := optionalTaskType props in
      let '(i2, img) := requiredImage props in
      let '(i3, fn) := optionalString "filename" props in
      let '(i4, pr) := optionalString "prompt" props in
      let '(i5, tx) := optionalString "text" props in
      match i1 ++ i2 ++ i3 ++ i4 ++ i5 with
      | [] => inr (mkJsonRequest t img fn pr tx)
      | issues => inl issues
      end
  | _ => inl [([], "invalid_type"%string)]
  end.

(** [parseMultipart(c, forced)] *)
Definition parseMultipart (c : Request) (forced : option TaskType)
    : Outcome ParsedInput :=
  let* body := ofHost (req_parseBody c) in
  match first (assoc (lit "image") body) with
  | Some (FormFile file) =>
      let customPrompt := normalizeString (asString (first (assoc (lit "prompt") body))) in
      let targetText := normalizeString (asString (first (assoc (lit "text") body))) in
      let* taskType :=
        resolveTaskType forced
          (normalizeString (asString (first (assoc (lit "taskType") body)))) in
      Ok {| file := file;
            filename := or_str (name file) (lit "upload");
            taskType := taskType;
            customPrompt := customPrompt;
            targetText := targetText |}
  | _ => throwOcr 400 "INVALID_FILE" MsgInvalidFile
  end.

(** [parseJson(c, forced)] *)
Definition parseJson (c : Request) (forced : option TaskType)
    : Outcome ParsedInput :=
  let* raw := ofHost (req_json c) in
  match JsonRequestSchema_safeParse raw with
  | inl issues => throwOcr 400 "INVALID_JSON" (MsgZodIssues issues)
  | inr payload =>
      if negb (truthy_str (j_image payload)) then
        throwOcr 400 "MISSING_IMAGE" MsgMissingImage
      else
        let filename := or_default (j_filename payload) (lit "upload") in
        let* bytes := base64ToUint8Array (j_image payload) in
        let mimeType :=
          match inferMimeType (Some filename) with
          | Some m => m
          | None => lit "application/octet-stream"
          end in
        let file := {| name := filename; type := mimeType; content := bytes |} in
        let* taskType := resolveTaskType forced (j_taskType payload) in
        Ok {| file := file;
              filename := filename;
              taskType := taskType;
              customPrompt := normalizeString (j_prompt payload);
              targetText := normalizeString (j_text payload) |}
  end.

(** [parseInput(c, forced)] *)
Definition parseInput (c : Request) (forced : option TaskType)
    : Outcome ParsedInput :=
  let contentType :=
    match header_content_type c with Some h => h | None => [] end in
  if includes (lit "multipart/form-data") contentType then parseMultipart c forced
  else if includes (lit "application/json") contentType then parseJson c forced
  else throwOcr 415 "UNSUPPORTED_CONTENT_TYPE" MsgUnsupportedContentType.

(** [handleError(c, error)] *)
Definition handleError {A} (error : Outcome A) : Response :=
  match error with
  | Throw e =>
      Response_json (ErrorBody (code e) (message e) (details e)) (status e)
  | _ => Response_json (ErrorBody "INTERNAL_ERROR" MsgInternal None) 500
  end.

(** The body of the [try] block of handleOcrRequest. *)
Definition processOcrRequest (w : World) (env : Env) (c : Request)
    (options : ProcessOptions) : Outcome OcrData :=
  let* payload := parseInput c (forcedTaskType options) in
  let config := TASK_CONFIGS (taskType payload) in
  let* finalPrompt :=
    buildPrompt config (customPrompt payload) (targetText payload) in
  let* validated := validateFile (file payload) (filename payload) env in
  let* (base64, mimeType, fileName) :=
    prepareFile (file payload) (filename payload) in
  let* (text, confidence, model) :=
    invokeSiliconFlow w base64 mimeType finalPrompt env in
  Ok {| data_text := text;
        data_confidence := confidence;
        data_processingTime := measured_ms w;
        data_model := model;
        data_taskType := taskType payload;
        data_promptUsed := finalPrompt;
        data_filename := fileName |}.

(** [handleOcrRequest(c, options)] *)
Definition handleOcrRequest (w : World) (env : Env) (c : Request)
    (options : ProcessOptions) : Response :=
  match processOcrRequest w env c options with
  | Ok data => mkResponse 200 (SuccessBody data)
  | error => handleError error
  end.

(** ** endpoints/ocr.ts and index.ts *)

Definition Handler : Type := World -> Env -> Request -> Response.

(** [OcrTaskRoute.handle] *)
Definition OcrTaskRoute : Handler :=
  fun w env c => handleOcrRequest w env c (mkProcessOptions None).

(** [createAliasRoute(taskType, summary)], its [handle]. *)
Definition createAliasRoute (taskType : TaskType) : Handler :=
  fun w env c => handleOcrRequest w env c (mkProcessOptions (Some taskType)).

Definition OcrConvertRoute : Handler := createAliasRoute document_markdown.
Definition OcrGeneralRoute : Handler := createAliasRoute general_ocr.
Definition OcrSimpleRoute : Handler := createAliasRoute plaintext_ocr.
Definition OcrChartRoute : Handler := createAliasRoute chart_parse.
Definition OcrDescribeRoute : Handler := createAliasRoute image_caption.
Definition OcrLocateRoute : Handler := createAliasRoute text_localization.

(** The POST routes registered on the application. *)
Definition app (path : string) : option Handler :=
  if String.eqb path "/api/ocr" then Some OcrTaskRoute
  else if String.eqb path "/api/ocr/convert" then Some OcrConvertRoute
  else if String.eqb path "/api/ocr/general" then Some OcrGeneralRoute
  else if String.eqb path "/api/ocr/simple" then Some OcrSimpleRoute
  else if String.eqb path "/api/ocr/chart" then Some OcrChartRoute
  else if String.eqb path "/api/ocr/describe" then Some OcrDescribeRoute
  else if String.eqb path "/api/ocr/locate" then Some OcrLocateRoute
  else None.

End Host.

(** ** Vocabulary of the specification *)

(** An outcome that is a failure of the given HTTP status and code. *)
Definition failsWith {A} (o : Outcome A) (st : Z) (c : string) : Prop :=
  exists e, o = Throw e /\ status e = st /\ code e = c.

(** The error envelope of an [OcrError]. *)
Definition errorResponse (st : Z) (c : string) (m : Message) : Response :=
  mkResponse st (ErrorBody c m None).

(** The six fixed-task alias endpoints and the task each one fixes. *)
Definition aliasEndpoints : list (string * TaskType) :=
  [("/api/ocr/convert"%string, document_markdown);
   ("/api/ocr/general"%string, general_ocr);
   ("/api/ocr/simple"%string, plaintext_ocr);
   ("/api/ocr/chart"%string, chart_parse);
   ("/api/ocr/describe"%string, image_caption);
   ("/api/ocr/locate"%string, text_localization)].

(** The request takes the multipart path, or the JSON path, of parseInput. *)
Definition declaresMultipart (c : Request) : Prop :=
  exists h, header_content_type c = Some h /\
            includes (lit "multipart/form-data") h = true.

Definition declaresJson (c : Request) : Prop :=
  exists h, header_content_type c = Some h /\
            includes (lit "multipart/form-data") h = false /\
            includes (lit "application/json") h = true.

(** The [text] field as the request carries it, before normalization: the
    first [text] value of a multipart body when it is a string, the [text]
    member of a JSON body when it is a string. *)
Definition multipartText (c : Request) : option jsstring :=
  match req_parseBody c with
  | Some body => asString (first (assoc (lit "text") body))
  | None => None
  end.

Definition jsonText (c : Request) : option jsstring :=
  match req_json c with
  | Some (JObj props) =>
      match assoc (lit "text") props with
      | Some (JStr s) => Some s
      | _ => None
      end
  | _ => None
  end.

(** A JSON body that lacks image data: no [image] member, one that is not
    a string, or the empty string. *)
Definition lacksImage (props : list (jsstring * json)) : Prop :=
  match assoc (lit "image") props with
  | Some (JStr (_ :: _)) => False
  | _ => True
  end.

(** A field that is absent, empty, or white space only. *)
Definition blank (field : option jsstring) : Prop :=
  match field with
  | Some s => trim s = []
  | None => True
  end.


(** The MIME type validateFile resolves for a file. *)
Definition resolvedMime `{JsHost} (file : File) (filename : jsstring) : jsstring :=
  or_ostr (type file) (inferMimeType (Some filename)) [].

(** ** Concrete inputs *)

Definition quoted (s : string) : jsstring := 34 :: lit s ++ [34].

(** The value of a string of decimal digits. *)
Fixpoint digitsValue (s : jsstring) (acc : N) : option N :=
  match s with
  | [] => Some acc
  | c :: r =>
      if (48 <=? c) && (c <=? 57) then digitsValue r (acc * 10 + (c - 48))
      else None
  end.

(** [Number(s)] on decimal digits; any other text counts as not a
    number. *)
Definition decimalNumber (s : jsstring) : jsnum :=
  match digitsValue s 0 with
  | Some n => Finite (inject_Z (Z.of_N n))
  | None => NaN
  end.

(** The reply text [{"choices":[{"message":{"content":"Hello"}}]}] and the
    value it parses to. *)
Definition replyText : jsstring :=
  lit "{" ++ quoted "choices" ++ lit ":[{" ++ quoted "message" ++ lit ":{"
  ++ quoted "content" ++ lit ":" ++ quoted "Hello" ++ lit "}}]}".

Definition replyValue : json :=
  JObj [(lit "choices",
         JArr [JObj [(lit "message", JObj [(lit "content", JStr (lit "Hello"))])]])].

(** A host for the examples: [Number] on decimal digits, [JSON.parse] on
    the one reply text above, [toLowerCase] on Basic Latin. *)
Definition exampleHost : JsHost :=
  {| Number_ := decimalNumber;
     JSON_parse := fun s => if str_eqb s replyText then Some replyValue else None;
     toLowerCase := map lower_unit;
     toLowerCase_ascii := fun s _ => eq_refl |}.

(** An upstream service that answers every call with the reply text. *)
Definition exampleWorld : World :=
  {| fetch := fun _ => Some (mkUpstreamResponse 200 (lit "OK") (Some replyText));
     measured_ms := 12 |}.

Definition exampleEnv : Env :=
  mkEnv (Some (lit "secret")) None None None None.

Definition pngFile : File :=
  mkFile (lit "scan.png") (lit "image/png") [x89; x50; x4e; x47].

(** A multipart request with an image, a [text] and a [taskType] field. *)
Definition multipartRequest (text taskType : string) : Request :=
  {| header_content_type := Some (lit "multipart/form-data; boundary=x");
     req_parseBody :=
       Some [(lit "image", One (FormFile pngFile));
             (lit "text", One (FormString (lit text)));
             (lit "taskType", One (FormString (lit taskType)))];
     req_json := None |}.

(** A request on the JSON path with the given parsed body. *)
Definition jsonRequest (body : option json) : Request :=
  {| header_content_type := Some (lit "application/json");
     req_parseBody := None;
     req_json := body |}.

(** ** Further vocabulary *)

(** The request invokeSiliconFlow hands to [fetch]. *)
Definition sentRequest (env : Env) (base64 mimeType prompt : jsstring)
    : UpstreamRequest :=
  {| endpoint :=
       strip_trailing_slash
         (or_default (SILICONFLOW_BASE_URL env) (lit "https://api.siliconflow.cn"))
       ++ lit "/v1/chat/completions";
     authorization := lit "Bearer " ++ or_default (SILICONFLOW_API_KEY env) [];
     req_model :=
       or_default (SILICONFLOW_MODEL_ID env) (lit "deepseek-ai/DeepSeek-OCR");
     image_url := lit "data:" ++ mimeType ++ lit ";base64," ++ base64;
     prompt_text := prompt |}.

(** The error codes with a fixed HTTP status. *)
Definition errorTable : list (string * Z) :=
  [("UNSUPPORTED_CONTENT_TYPE"%string, 415%Z);
   ("INVALID_FILE"%string, 400%Z);
   ("INVALID_JSON"%string, 400%Z);
   ("MISSING_TASK_TYPE"%string, 400%Z);
   ("INVALID_TASK_TYPE"%string, 400%Z);
   ("MISSING_TARGET_TEXT"%string, 400%Z);
   ("FILE_TOO_LARGE"%string, 413%Z);
   ("UNSUPPORTED_FORMAT"%string, 400%Z);
   ("MISSING_API_KEY"%string, 500%Z);
   ("EMPTY_RESPONSE"%string, 502%Z);
   ("INTERNAL_ERROR"%string, 500%Z)].

(** An error of the table, without details. *)
Definition tableError (e : OcrError) : Prop :=
  In (code e, status e) errorTable /\ details e = None.

(** An error of the table, without details, or an upstream error, which
    carries the upstream's status outside 200-299 and its body. *)
Definition knownError (e : OcrError) : Prop :=
  tableError e
  \/ (code e = "UPSTREAM_ERROR"%string
      /\ (status e < 200 \/ 299 < status e)%Z
      /\ exists body, details e = Some body).



(** The environment with another base URL. *)
Definition withBaseUrl (env : Env) (base : option jsstring) : Env :=
  mkEnv (SILICONFLOW_API_KEY env) base (SILICONFLOW_MODEL_ID env)
    (MAX_FILE_SIZE env) (SUPPORTED_FORMATS env).

(** The [taskType] field as the request carries it: the first [taskType]
    value of a multipart body when it is a string, the [taskType] member
    of a JSON body when it is a string. *)
Definition multipartTaskType (c : Request) : option jsstring :=
  match req_parseBody c with
  | Some body => asString (first (assoc (lit "taskType") body))
  | None => None
  end.

Definition jsonTaskType (c : Request) : option jsstring :=
  match req_json c with
  | Some (JObj props) =>
      match assoc (lit "taskType") props with
      | Some (JStr s) => Some s
      | _ => None
      end
  | _ => None
  end.

(** The [filename] and [image] members of a JSON body, when they are
    strings. *)
Definition jsonFilename (c : Request) : option jsstring :=
  match req_json c with
  | Some (JObj props) =>
      match assoc (lit "filename") props with
      | Some (JStr s) => Some s
      | _ => None
      end
  | _ => None
  end.

Definition jsonImage (c : Request) : option jsstring :=
  match req_json c with
  | Some (JObj props) =>
      match assoc (lit "image") props with
      | Some (JStr s) => Some s
      | _ => None
      end
  | _ => None
  end.

(** The first [image] value of a multipart body, when it is a file. *)
Definition multipartFile (c : Request) : option File :=
  match req_parseBody c with
  | Some body =>
      match first (assoc (lit "image") body) with
      | Some (FormFile f) => Some f
      | _ => None
      end
  | None => None
  end.

(** A member of a JSON body read as an optional string: absent, or a
    string; any other value does not fit. *)
Definition memberIs (k : string) (props : list (jsstring * json))
    (o : option jsstring) : Prop :=
  match assoc (lit k) props with
  | None => o = None
  | Some (JStr s) => o = Some s
  | Some _ => False
  end.

(** What the request schema asks of a JSON object, and the parsed request
    it then gives: a non-empty [image] string, [filename], [prompt] and
    [text] absent or strings, [taskType] absent or the name of a task
    type. *)
Definition schemaAccepts (props : list (jsstring * json))
    (payload : JsonRequest) : Prop :=
  match assoc (lit "image") props with
  | Some (JStr s) => s <> [] /\ j_image payload = s
  | _ => False
  end
  /\ memberIs "filename" props (j_filename payload)
  /\ memberIs "prompt" props (j_prompt payload)
  /\ memberIs "text" props (j_text payload)
  /\ memberIs "taskType" props (j_taskType payload)
  /\ (forall s, j_taskType payload = Some s -> exists t, s = taskTypeName t).

(** The part of the text base64ToUint8Array decodes: what follows the last
    comma when there is one, the whole text otherwise. *)
Definition dataPart (base64 : jsstring) : jsstring :=
  if includes (lit ",") base64
  then match pop (split 44 base64) with Some p => p | None => base64 end
  else base64.

(** A host that reads the text "Infinity" as ECMAScript's [Number] does,
    and is exampleHost otherwise. *)
Definition infinityHost : JsHost :=
  {| Number_ := fun s => if str_eqb s (lit "Infinity") then Infinity false
                         else decimalNumber s;
     JSON_parse := @JSON_parse exampleHost;
     toLowerCase := @toLowerCase exampleHost;
     toLowerCase_ascii := @toLowerCase_ascii exampleHost |}.

(** A file of 10,485,761 zero bytes, one byte above the default limit. *)
Definition oversizeFile : File :=
  mkFile (lit "scan.png") (lit "image/png") (repeat x00 (N.to_nat 10485761)).

(** * Properties *)

(** ** Strings *)

Lemma str_eqb_eq (a b : jsstring) : str_eqb a b = true <-> a = b.
Proof.
  revert b; induction a as [|x a IH]; intros [|y b]; simpl; split;
    try congruence; try reflexivity.
  - intros H. apply andb_true_iff in H as [Hx Hr].
    apply N.eqb_eq in Hx. apply IH in Hr. congruence.
  - intros H. injection H as -> ->. rewrite N.eqb_refl. now apply IH.
Qed.

Lemma str_eqb_refl (a : jsstring) : str_eqb a a = true.
Proof. now apply str_eqb_eq. Qed.

Lemma str_eqb_neq (a b : jsstring) : str_eqb a b = false <-> a <> b.
Proof.
  split.
  - intros H E. apply str_eqb_eq in E. congruence.
  - intros H. destruct (str_eqb a b) eqn:E; [|reflexivity].
    apply str_eqb_eq in E. contradiction.
Qed.

(** ** Base64 *)

Ltac n_cases :=
  repeat match goal with
    | |- context [N.ltb ?a ?b] => destruct (N.ltb_spec a b)
    | |- context [N.leb ?a ?b] => destruct (N.leb_spec a b)
    | |- context [N.eqb ?a ?b] => destruct (N.eqb_spec a b)
    end; cbn [andb orb negb].

Lemma b64index_b64char (i : N) : i < 64 -> b64index (b64char i) = Some i.
Proof.
  intros Hi. unfold b64char.
  destruct (N.ltb_spec i 26); [|destruct (N.ltb_spec i 52);
    [|destruct (N.ltb_spec i 62); [|destruct (N.eqb_spec i 62)]]];
  unfold b64index; n_cases; try (exfalso; lia); try (f_equal; lia).
Qed.

Lemma b64char_range (i : N) : 43 <= b64char i <= 122 /\ b64char i <> 44 /\ b64char i <> 61.
Proof. unfold b64char. n_cases; lia. Qed.

Ltac n_refute c :=
  repeat match goal with
    | |- context [N.eqb c ?k] =>
        replace (N.eqb c k) with false by (symmetry; apply N.eqb_neq; lia)
    | |- context [N.leb ?k c] =>
        replace (N.leb k c) with false by (symmetry; apply N.leb_gt; lia)
    end.

Lemma is_ws_printable (c : N) : 33 <= c <= 126 -> is_ws c = false.
Proof. intros H. cbv [is_ws existsb]. n_refute c. reflexivity. Qed.

Lemma is_ascii_ws_printable (c : N) : 33 <= c <= 126 -> is_ascii_ws c = false.
Proof. intros H. cbv [is_ascii_ws existsb]. n_refute c. reflexivity. Qed.

Lemma sextets_bound (a b c : N) :
  a < 256 -> b < 256 -> c < 256 ->
  a / 4 < 64 /\ (a mod 4) * 16 + b / 16 < 64 /\
  (b mod 16) * 4 + c / 64 < 64 /\ c mod 64 < 64 /\
  (a mod 4) * 16 < 64 /\ (b mod 16) * 4 < 64.
Proof.
  intros Ha Hb Hc.
  pose proof (N.Div0.div_lt_upper_bound a 4 64).
  pose proof (N.Div0.div_lt_upper_bound b 16 16).
  pose proof (N.Div0.div_lt_upper_bound c 64 4).
  pose proof (N.mod_lt a 4). pose proof (N.mod_lt b 16).
  pose proof (N.mod_lt c 64). lia.
Qed.

Lemma pack_div (h l k : N) : l < k -> (h * k + l) / k = h.
Proof.
  intros Hl. symmetry. apply (N.div_unique _ k h l); lia.
Qed.

Lemma pack_mod (h l k : N) : l < k -> (h * k + l) mod k = l.
Proof.
  intros Hl. symmetry. apply (N.mod_unique _ k h l); lia.
Qed.

Lemma div_lt_256 (b k m : N) : b < 256 -> k * m = 256 -> b / k < m.
Proof.
  intros Hb Hk. apply N.Div0.div_lt_upper_bound. lia.
Qed.

Lemma sextets_bytes (a b c : N) :
  a < 256 -> b < 256 -> c < 256 ->
  a / 4 * 4 + ((a mod 4) * 16 + b / 16) / 16 = a /\
  (((a mod 4) * 16 + b / 16) mod 16) * 16 + ((b mod 16) * 4 + c / 64) / 4 = b /\
  (((b mod 16) * 4 + c / 64) mod 4) * 64 + c mod 64 = c.
Proof.
  intros Ha Hb Hc.
  rewrite (pack_div (a mod 4) (b / 16) 16) by (apply (div_lt_256 b 16 16); lia).
  rewrite (pack_mod (a mod 4) (b / 16) 16) by (apply (div_lt_256 b 16 16); lia).
  rewrite (pack_div (b mod 16) (c / 64) 4) by (apply (div_lt_256 c 64 4); lia).
  rewrite (pack_mod (b mod 16) (c / 64) 4) by (apply (div_lt_256 c 64 4); lia).
  pose proof (N.div_mod a 4). pose proof (N.div_mod b 16).
  pose proof (N.div_mod c 64). repeat split; lia.
Qed.

Lemma sextets_bytes2 (a b : N) :
  a < 256 -> b < 256 ->
  a / 4 * 4 + ((a mod 4) * 16 + b / 16) / 16 = a /\
  (((a mod 4) * 16 + b / 16) mod 16) * 16 + ((b mod 16) * 4) / 4 = b.
Proof.
  intros Ha Hb.
  rewrite (pack_div (a mod 4) (b / 16) 16) by (apply (div_lt_256 b 16 16); lia).
  rewrite (pack_mod (a mod 4) (b / 16) 16) by (apply (div_lt_256 b 16 16); lia).
  rewrite N.div_mul by lia.
  pose proof (N.div_mod a 4). pose proof (N.div_mod b 16). split; lia.
Qed.

Lemma sextets_bytes1 (a : N) :
  a < 256 -> a / 4 * 4 + ((a mod 4) * 16) / 16 = a.
Proof.
  intros Ha. rewrite N.div_mul by lia. pose proof (N.div_mod a 4). lia.
Qed.

Lemma list_ind3 {A} (P : list A -> Prop) :
  P [] -> (forall a, P [a]) -> (forall a b, P [a; b]) ->
  (forall a b c r, P r -> P (a :: b :: c :: r)) ->
  forall l, P l.
Proof.
  intros H0 H1 H2 H3.
  assert (H : forall l, P l /\ (forall a, P (a :: l)) /\ (forall a b, P (a :: b :: l))).
  { induction l as [|x l (IH0 & IH1 & IH2)]; repeat split; auto. }
  apply H.
Qed.

Lemma btoa_units_length (s : jsstring) :
  (N.of_nat (length (btoa_units s)) mod 4 = 0) /\
  (btoa_units s = [] \/ (2 <= length (btoa_units s))%nat).
Proof.
  induction s as [| a | a b | a b c r [IH _]] using list_ind3;
    cbn [btoa_units length]; split; auto; try (right; lia); try reflexivity.
  replace (N.of_nat (S (S (S (S (length (btoa_units r)))))))
    with (N.of_nat (length (btoa_units r)) + 1 * 4) by lia.
  now rewrite N.Div0.mod_add.
Qed.

Lemma strip_padding_group (x1 x2 x3 x4 : N) (l : jsstring) :
  x3 <> 61 -> x4 <> 61 -> l = [] \/ (2 <= length l)%nat ->
  strip_padding (x1 :: x2 :: x3 :: x4 :: l) = x1 :: x2 :: x3 :: x4 :: strip_padding l.
Proof.
  intros H3 H4 Hl.
  apply N.eqb_neq in H3, H4.
  destruct l as [|y1 [|y2 l]].
  - cbn. now rewrite H4.
  - destruct Hl as [Hl|Hl]; [discriminate | cbn in Hl; lia].
  - reflexivity.
Qed.

Lemma decode_btoa_units (s : jsstring) :
  Forall (fun c => c < 256) s ->
  decode_units (strip_padding (btoa_units s)) = Some s.
Proof.
  induction s as [| a | a b | a b c r IH] using list_ind3; intros Hs.
  - reflexivity.
  - inversion_clear Hs as [|? ? Ha _].
    destruct (sextets_bound a 0 0 Ha) as (B1 & _ & _ & _ & B2 & _); try lia.
    cbn [btoa_units strip_padding]. rewrite N.eqb_refl.
    destruct (b64char_range ((a mod 4) * 16)) as (_ & _ & E).
    apply N.eqb_neq in E.
    cbn [decode_units]. rewrite !b64index_b64char by assumption.
    now rewrite sextets_bytes1.
  - inversion_clear Hs as [|? ? Ha Hs']. inversion_clear Hs' as [|? ? Hb _].
    destruct (sextets_bound a b 0 Ha Hb) as (B1 & B2 & _ & _ & _ & B3); try lia.
    cbn [btoa_units strip_padding]. rewrite N.eqb_refl.
    destruct (b64char_range ((b mod 16) * 4)) as (_ & _ & E).
    apply N.eqb_neq in E. rewrite E.
    cbn [decode_units]. rewrite !b64index_b64char by assumption.
    destruct (sextets_bytes2 a b Ha Hb) as [-> ->]. reflexivity.
  - inversion_clear Hs as [|? ? Ha Hs']. inversion_clear Hs' as [|? ? Hb Hs''].
    inversion_clear Hs'' as [|? ? Hc Hr].
    destruct (sextets_bound a b c Ha Hb Hc) as (B1 & B2 & B3 & B4 & _ & _).
    cbn [btoa_units].
    rewrite strip_padding_group;
      [| apply b64char_range | apply b64char_range | apply btoa_units_length].
    cbn [decode_units]. rewrite !b64index_b64char by assumption.
    rewrite (IH Hr).
    destruct (sextets_bytes a b c Ha Hb Hc) as (-> & -> & ->). reflexivity.
Qed.

Lemma btoa_units_chars (s : jsstring) :
  Forall (fun c => 43 <= c <= 122 /\ c <> 44) (btoa_units s).
Proof.
  assert (Hc : forall i, 43 <= b64char i <= 122 /\ b64char i <> 44)
    by (intros i; destruct (b64char_range i) as (? & ? & ?); auto).
  assert (Hp : 43 <= 61 <= 122 /\ 61 <> 44) by lia.
  induction s as [| a | a b | a b c r IH] using list_ind3;
    cbn [btoa_units];
    repeat (apply Forall_cons; [first [apply Hc | exact Hp] |]);
    first [exact IH | apply Forall_nil].
Qed.

Lemma filter_all {A} (f : A -> bool) (l : list A) :
  Forall (fun x => f x = true) l -> filter f l = l.
Proof.
  induction 1 as [|x l Hx _ IH]; cbn; [reflexivity|].
  now rewrite Hx, IH.
Qed.

Lemma includes_comma_false (s : jsstring) :
  Forall (fun c => c <> 44) s -> includes (lit ",") s = false.
Proof.
  change (lit ",") with [44].
  induction 1 as [|x l Hx _ IH]; [reflexivity|].
  cbn [includes startsWith]. rewrite IH.
  replace (44 =? x) with false by (symmetry; apply N.eqb_neq; lia).
  reflexivity.
Qed.

Lemma chunkSize_pos : (0 < chunkSize)%nat.
Proof. unfold chunkSize. lia. Qed.

(** The chunked loop copies the bytes from [i] on behind what it has. *)
Lemma fileToBase64_loop_spec (fuel : nat) (buffer : list byte) (i : nat)
    (binary : jsstring) :
  (length buffer < fuel + i)%nat ->
  fileToBase64_loop fuel buffer i binary = binary ++ fromCharCode (skipn i buffer).
Proof.
  pose proof chunkSize_pos as Hk.
  revert i binary. induction fuel as [|fuel IH]; intros i binary Hf;
    cbn [fileToBase64_loop].
  - rewrite skipn_all2 by lia. now rewrite app_nil_r.
  - destruct (Nat.ltb_spec i (length buffer)) as [Hi|Hi].
    + rewrite IH by lia. unfold subarray, fromCharCode.
      replace (i + chunkSize - i)%nat with chunkSize by lia.
      rewrite <- app_assoc, <- map_app. do 2 f_equal.
      rewrite Nat.add_comm, <- skipn_skipn. apply firstn_skipn.
    + rewrite skipn_all2 by lia. now rewrite app_nil_r.
Qed.

Lemma toUint8_to_N (b : byte) : toUint8 (Byte.to_N b) = b.
Proof.
  unfold toUint8. pose proof (Byte.to_N_bounded b).
  rewrite N.mod_small by lia. now rewrite Byte.of_to_N.
Qed.

Lemma fromCharCode_units (content : list byte) :
  Forall (fun c => c < 256) (fromCharCode content).
Proof.
  unfold fromCharCode. apply Forall_forall. intros c Hc.
  apply in_map_iff in Hc as (b & <- & _).
  pose proof (Byte.to_N_bounded b). lia.
Qed.

Lemma fileToBase64_eq (content : list byte) :
  fileToBase64 content = Ok (btoa_units (fromCharCode content)).
Proof.
  unfold fileToBase64. rewrite fileToBase64_loop_spec by lia.
  cbn [skipn]. rewrite app_nil_l. unfold btoa.
  replace (forallb (fun c => c <? 256) (fromCharCode content)) with true;
    [reflexivity|].
  symmetry. apply forallb_forall. intros c Hc.
  pose proof (fromCharCode_units content) as H.
  rewrite Forall_forall in H. apply N.ltb_lt. now apply H.
Qed.

Lemma atob_btoa_units (s : jsstring) :
  Forall (fun c => c < 256) s -> atob (btoa_units s) = Some s.
Proof.
  intros Hs. unfold atob.
  rewrite filter_all.
  - destruct (btoa_units_length s) as [-> _]. cbn [N.eqb].
    now apply decode_btoa_units.
  - eapply Forall_impl; [|apply btoa_units_chars].
    intros c [Hc _]. cbv beta. rewrite is_ascii_ws_printable by lia. reflexivity.
Qed.

Lemma base64ToUint8Array_btoa_units (s : jsstring) :
  Forall (fun c => c < 256) s ->
  base64ToUint8Array (btoa_units s) = Ok (map toUint8 s).
Proof.
  intros Hs. unfold base64ToUint8Array.
  rewrite includes_comma_false
    by (eapply Forall_impl; [|apply btoa_units_chars]; cbv beta; tauto).
  unfold remove_ws. rewrite filter_all.
  - now rewrite atob_btoa_units.
  - eapply Forall_impl; [|apply btoa_units_chars].
    intros c [Hc _]. cbv beta. rewrite is_ws_printable by lia. reflexivity.
Qed.

(** Decoding what the Encoder produced gives the bytes back. *)
Lemma base64ToUint8Array_fileToBase64 (content : list byte) :
  bind (fileToBase64 content) base64ToUint8Array = Ok content.
Proof.
  rewrite fileToBase64_eq. cbn [bind].
  rewrite base64ToUint8Array_btoa_units by apply fromCharCode_units.
  unfold fromCharCode. rewrite map_map. f_equal.
  induction content as [|b l IH]; cbn; [reflexivity|].
  now rewrite toUint8_to_N, IH.
Qed.

(** ** Outcomes *)

Lemma bind_Ok {A B} (m : Outcome A) (k : A -> Outcome B) (b : B) :
  bind m k = Ok b -> exists a, m = Ok a /\ k a = Ok b.
Proof. destruct m as [a| |]; cbn; [eauto | discriminate | discriminate]. Qed.

Lemma bind_Throw {A B} (m : Outcome A) (k : A -> Outcome B) (e : OcrError) :
  bind m k = Throw e -> m = Throw e \/ exists a, m = Ok a /\ k a = Throw e.
Proof.
  destruct m as [a| |]; cbn; [eauto | | discriminate].
  intros [= ->]. now left.
Qed.

Lemma Response_json_inv (body body' : Envelope) (st st' : Z) :
  Response_json body st = mkResponse st' body' ->
  st' = st /\ body' = body /\ (200 <= st <= 599)%Z /\ nullBodyStatus st = false.
Proof.
  unfold Response_json.
  destruct ((200 <=? st)%Z) eqn:Hlo; [|discriminate].
  destruct ((st <=? 599)%Z) eqn:Hhi; [|discriminate].
  destruct (nullBodyStatus st); [discriminate|].
  intros [= <- <-]. repeat split; lia.
Qed.


Lemma handleOcrRequest_success `{JsHost} w env c options st data :
  handleOcrRequest w env c options = mkResponse st (SuccessBody data) ->
  processOcrRequest w env c options = Ok data /\ st = 200%Z.
Proof.
  unfold handleOcrRequest.
  destruct (processOcrRequest w env c options) as [d|e|]; cbn [handleError].
  - intros [= <- <-]. auto.
  - intros Hr. apply Response_json_inv in Hr as (_ & Hb & _). discriminate.
  - intros Hr. apply Response_json_inv in Hr as (_ & Hb & _). discriminate.
Qed.

(** An error response comes from an [OcrError] whose status Response.json
    accepts, or from another exception. *)
Lemma handleOcrRequest_error `{JsHost} w env c options st cd m d :
  handleOcrRequest w env c options = mkResponse st (ErrorBody cd m d) ->
  (processOcrRequest w env c options = Throw (mkOcrError st cd m d)
   /\ (200 <= st <= 599)%Z /\ nullBodyStatus st = false)
  \/ (processOcrRequest w env c options = Crash
      /\ st = 500%Z /\ cd = "INTERNAL_ERROR"%string /\ d = None).
Proof.
  unfold handleOcrRequest.
  destruct (processOcrRequest w env c options) as [data|e|]; cbn [handleError].
  - discriminate.
  - intros Hr. apply Response_json_inv in Hr as (-> & Hb & Hst & Hn).
    injection Hb as -> -> ->. left. now destruct e.
  - intros Hr. apply Response_json_inv in Hr as (-> & Hb & _).
    injection Hb as -> -> ->. right. auto.
Qed.

Lemma handleOcrRequest_Throw `{JsHost} w env c options st cd m :
  Response_json (ErrorBody cd m None) st = errorResponse st cd m ->
  processOcrRequest w env c options = throwOcr st cd m ->
  handleOcrRequest w env c options = errorResponse st cd m.
Proof. unfold handleOcrRequest. now intros Hst ->. Qed.

Lemma handleOcrRequest_Crash `{JsHost} w env c options :
  processOcrRequest w env c options = Crash ->
  handleOcrRequest w env c options = errorResponse 500 "INTERNAL_ERROR" MsgInternal.
Proof. unfold handleOcrRequest. now intros ->. Qed.

(** ** Task resolution *)

Lemma taskTypeName_truthy (t : TaskType) : truthy_str (taskTypeName t) = true.
Proof. destruct t; reflexivity. Qed.

Lemma resolveTaskType_forced (t : TaskType) (candidate : option jsstring) :
  resolveTaskType (Some t) candidate = Ok t.
Proof. unfold resolveTaskType. now rewrite taskTypeName_truthy. Qed.

Lemma TaskTypeSchema_safeParse_name (t : TaskType) :
  TaskTypeSchema_safeParse (taskTypeName t) = Some t.
Proof. destruct t; reflexivity. Qed.

Lemma TaskTypeSchema_safeParse_Some (s : jsstring) (t : TaskType) :
  TaskTypeSchema_safeParse s = Some t -> s = taskTypeName t.
Proof.
  unfold TaskTypeSchema_safeParse. intros Hf.
  apply find_some in Hf as [_ Hs]. now apply str_eqb_eq in Hs.
Qed.

Lemma parseMultipart_forced (c : Request) (t : TaskType) (p : ParsedInput) :
  parseMultipart c (Some t) = Ok p -> taskType p = t.
Proof.
  unfold parseMultipart. intros Hp.
  apply bind_Ok in Hp as (body & _ & Hp).
  destruct (first (assoc (lit "image") body)) as [[s|f]|]; try discriminate.
  rewrite resolveTaskType_forced in Hp. cbn in Hp. now injection Hp as <-.
Qed.

Lemma parseJson_forced `{JsHost} (c : Request) (t : TaskType) (p : ParsedInput) :
  parseJson c (Some t) = Ok p -> taskType p = t.
Proof.
  unfold parseJson. intros Hp.
  apply bind_Ok in Hp as (raw & _ & Hp).
  destruct (JsonRequestSchema_safeParse raw) as [issues|payload]; try discriminate.
  destruct (negb (truthy_str (j_image payload))); try discriminate.
  apply bind_Ok in Hp as (bytes & _ & Hp).
  rewrite resolveTaskType_forced in Hp. cbn in Hp. now injection Hp as <-.
Qed.

Lemma parseInput_forced `{JsHost} (c : Request) (t : TaskType) (p : ParsedInput) :
  parseInput c (Some t) = Ok p -> taskType p = t.
Proof.
  unfold parseInput.
  destruct (includes (lit "multipart/form-data") _);
    [apply parseMultipart_forced|].
  destruct (includes (lit "application/json") _);
    [apply parseJson_forced | discriminate].
Qed.

Lemma processOcrRequest_taskType `{JsHost} w env c options data :
  processOcrRequest w env c options = Ok data ->
  exists p, parseInput c (forcedTaskType options) = Ok p /\
            data_taskType data = taskType p.
Proof.
  unfold processOcrRequest. intros Hd.
  apply bind_Ok in Hd as (p & Hp & Hd). exists p. split; [exact Hp|].
  apply bind_Ok in Hd as (prompt & _ & Hd).
  apply bind_Ok in Hd as (validated & _ & Hd).
  apply bind_Ok in Hd as ([[b64 mime] fname] & _ & Hd).
  apply bind_Ok in Hd as ([[text conf] model] & _ & Hd).
  now injection Hd as <-.
Qed.

Lemma aliasEndpoints_app `{JsHost} (path : string) (t : TaskType) :
  In (path, t) aliasEndpoints -> app path = Some (createAliasRoute t).
Proof.
  cbn. intros Hin.
  repeat (destruct Hin as [Hin|Hin]; [injection Hin as <- <-; reflexivity|]).
  contradiction.
Qed.

(** ** Input parsing *)

Lemma parseInput_json `{JsHost} (c : Request) (forced : option TaskType) :
  declaresJson c -> parseInput c forced = parseJson c forced.
Proof.
  intros (h & Hh & Hm & Hj). unfold parseInput. now rewrite Hh, Hm, Hj.
Qed.

Lemma parseInput_multipart `{JsHost} (c : Request) (forced : option TaskType) :
  declaresMultipart c -> parseInput c forced = parseMultipart c forced.
Proof.
  intros (h & Hh & Hm). unfold parseInput. now rewrite Hh, Hm.
Qed.

Lemma processOcrRequest_parse_Throw `{JsHost} w env c options e :
  parseInput c (forcedTaskType options) = Throw e ->
  processOcrRequest w env c options = Throw e.
Proof. unfold processOcrRequest. now intros ->. Qed.

Lemma processOcrRequest_parse_Crash `{JsHost} w env c options :
  parseInput c (forcedTaskType options) = Crash ->
  processOcrRequest w env c options = Crash.
Proof. unfold processOcrRequest. now intros ->. Qed.

(** Every schema violation is answered with INVALID_JSON. *)
Lemma parseJson_schema_violation `{JsHost} (c : Request)
    (forced : option TaskType) (raw : json) (issues : list (jsstring * string)) :
  req_json c = Some raw ->
  JsonRequestSchema_safeParse raw = inl issues ->
  parseJson c forced = throwOcr 400 "INVALID_JSON" (MsgZodIssues issues).
Proof.
  intros Hbody Hs. unfold parseJson. rewrite Hbody. cbn [ofHost bind].
  now rewrite Hs.
Qed.

(** A [taskType] member outside the enumeration is a schema issue. *)
Lemma optionalTaskType_invalid (props : list (jsstring * json)) (v : json) :
  assoc (lit "taskType") props = Some v ->
  (forall t, v <> JStr (taskTypeName t)) ->
  exists issue, optionalTaskType props = ([issue], None).
Proof.
  intros Hv Hn. unfold optionalTaskType. rewrite Hv.
  destruct v as [| b | n | s | items | ps]; try (eexists; reflexivity).
  destruct (TaskTypeSchema_safeParse s) as [t|] eqn:Hs; [|eexists; reflexivity].
  apply TaskTypeSchema_safeParse_Some in Hs. subst s. now destruct (Hn t).
Qed.

Lemma JsonRequestSchema_safeParse_invalid_taskType
    (props : list (jsstring * json)) (v : json) :
  assoc (lit "taskType") props = Some v ->
  (forall t, v <> JStr (taskTypeName t)) ->
  exists issues, JsonRequestSchema_safeParse (JObj props) = inl issues.
Proof.
  intros Hv Hn.
  destruct (optionalTaskType_invalid props v Hv Hn) as (issue & Hi).
  unfold JsonRequestSchema_safeParse. rewrite Hi.
  destruct (requiredImage props) as [i2 img].
  destruct (optionalString "filename" props) as [i3 fn].
  destruct (optionalString "prompt" props) as [i4 pr].
  destruct (optionalString "text" props) as [i5 tx].
  cbn. eexists. reflexivity.
Qed.

(** A body that lacks image data has a schema issue at [image]. *)
Lemma requiredImage_lacksImage (props : list (jsstring * json)) :
  lacksImage props ->
  exists issue img, requiredImage props = ([(lit "image", issue)], img).
Proof.
  unfold lacksImage, requiredImage.
  destruct (assoc (lit "image") props) as [[| b | n | [|x s] | items | ps]|];
    intros Hl; try contradiction; eexists; eexists; reflexivity.
Qed.

Lemma JsonRequestSchema_safeParse_lacksImage (props : list (jsstring * json)) :
  lacksImage props ->
  exists issues,
    JsonRequestSchema_safeParse (JObj props) = inl issues /\
    In (lit "image") (map fst issues).
Proof.
  intros Hl. destruct (requiredImage_lacksImage props Hl) as (issue & img & Hi).
  unfold JsonRequestSchema_safeParse. rewrite Hi.
  destruct (optionalTaskType props) as [i1 t].
  destruct (optionalString "filename" props) as [i3 fn].
  destruct (optionalString "prompt" props) as [i4 pr].
  destruct (optionalString "text" props) as [i5 tx].
  assert (Hin : In (lit "image")
                  (map fst (i1 ++ [(lit "image", issue)] ++ i3 ++ i4 ++ i5))).
  { rewrite map_app, in_app_iff. right. now left. }
  destruct (i1 ++ [(lit "image", issue)] ++ i3 ++ i4 ++ i5) as [|i rest] eqn:Hiss.
  - destruct Hin.
  - exists (i :: rest). split; [reflexivity | exact Hin].
Qed.

(** The parsed request of a schema-valid body has a non-empty image, so
    the MISSING_IMAGE branch of parseJson is never taken. *)
Lemma JsonRequestSchema_safeParse_image (raw : json) (payload : JsonRequest) :
  JsonRequestSchema_safeParse raw = inr payload ->
  truthy_str (j_image payload) = true.
Proof.
  unfold JsonRequestSchema_safeParse.
  destruct raw as [| b | n | s | items | props]; try discriminate.
  destruct (optionalTaskType props) as [i1 t].
  unfold requiredImage.
  destruct (optionalString "filename" props) as [i3 fn].
  destruct (optionalString "prompt" props) as [i4 pr].
  destruct (optionalString "text" props) as [i5 tx].
  destruct (assoc (lit "image") props) as [[| b | n | s | items | ps]|];
    try (destruct i1; discriminate).
  destruct s as [|x s]; cbn [length Nat.leb];
    [destruct i1; discriminate|].
  destruct (i1 ++ [] ++ i3 ++ i4 ++ i5); [|discriminate].
  intros [= <-]. reflexivity.
Qed.

Lemma parseJson_never_missing_image `{JsHost} (c : Request) (forced : option TaskType)
    (e : OcrError) :
  parseJson c forced = Throw e -> code e <> "MISSING_IMAGE"%string.
Proof.
  unfold parseJson. intros Hp.
  apply bind_Throw in Hp as [Hp | (raw & _ & Hp)].
  { destruct (req_json c); discriminate. }
  destruct (JsonRequestSchema_safeParse raw) as [issues|payload] eqn:Hs.
  { injection Hp as <-. discriminate. }
  rewrite (JsonRequestSchema_safeParse_image _ _ Hs) in Hp. cbn [negb] in Hp.
  apply bind_Throw in Hp as [Hp | (bytes & _ & Hp)].
  { unfold base64ToUint8Array in Hp.
    apply bind_Throw in Hp as [Hp | (? & _ & Hp)]; [|discriminate].
    destruct (atob _); discriminate. }
  apply bind_Throw in Hp as [Hp | (t & _ & Hp)]; [|discriminate].
  unfold resolveTaskType in Hp.
  repeat match type of Hp with
         | context [match ?x with _ => _ end] => destruct x
         end; try discriminate; injection Hp as <-; discriminate.
Qed.

(** ** String replacement *)

Lemma startsWith_prefix (p s : jsstring) :
  startsWith p s = true <-> exists rest, s = p ++ rest.
Proof.
  revert s; induction p as [|x p IH]; intros s; cbn.
  - split; eauto.
  - destruct s as [|y s].
    + split; [discriminate | intros (rest & Hr); discriminate].
    + rewrite andb_true_iff, N.eqb_eq, IH. split.
      * intros (-> & rest & ->). eauto.
      * intros (rest & [= -> ->]). eauto.
Qed.

Lemma startsWith_skipn (p s : jsstring) :
  startsWith p s = true -> s = p ++ skipn (length p) s.
Proof.
  intros Hp. apply startsWith_prefix in Hp as (rest & ->).
  rewrite skipn_app, skipn_all, Nat.sub_diag. reflexivity.
Qed.

(** [split_at_first] cuts the text around an occurrence of the pattern... *)
Lemma split_at_first_Some (pat s b a : jsstring) :
  split_at_first pat s = Some (b, a) -> s = b ++ pat ++ a.
Proof.
  revert b; induction s as [|c s IH]; intros b; cbn [split_at_first].
  - destruct (startsWith pat []) eqn:Hp; [|discriminate].
    intros [= <- <-]. now apply startsWith_skipn.
  - destruct (startsWith pat (c :: s)) eqn:Hp.
    + intros [= <- <-]. now apply startsWith_skipn.
    + destruct (split_at_first pat s) as [[b' a']|]; [|discriminate].
      intros [= <- <-]. cbn. f_equal. now apply IH.
Qed.

(** ... and that occurrence is the first one. *)
Lemma split_at_first_first (pat s b a b' a' : jsstring) :
  split_at_first pat s = Some (b, a) -> s = b' ++ pat ++ a' ->
  (length b <= length b')%nat.
Proof.
  revert b b'; induction s as [|c s IH]; intros b b'; cbn [split_at_first].
  - destruct (startsWith pat []); [|discriminate].
    intros [= <- <-] _. cbn. lia.
  - destruct (startsWith pat (c :: s)) eqn:Hp.
    + intros [= <- <-] _. cbn. lia.
    + destruct (split_at_first pat s) as [[b0 a0]|]; [|discriminate].
      intros [= <- <-] Hs. destruct b' as [|x b'].
      * cbn in Hs. assert (startsWith pat (c :: s) = true)
          by (apply startsWith_prefix; eauto). congruence.
      * injection Hs as <- ->. cbn. apply le_n_S. now apply IH.
Qed.

Lemma split_at_first_None (pat s b' a' : jsstring) :
  split_at_first pat s = None -> s <> b' ++ pat ++ a'.
Proof.
  revert b'; induction s as [|c s IH]; intros b'; cbn [split_at_first].
  - destruct (startsWith pat []) eqn:Hp; [discriminate|].
    intros _ Hs. destruct b'; [|discriminate]. cbn in Hs.
    assert (startsWith pat [] = true) by (apply startsWith_prefix; eauto).
    congruence.
  - destruct (startsWith pat (c :: s)) eqn:Hp; [discriminate|].
    destruct (split_at_first pat s) as [[b0 a0]|] eqn:Hf; [discriminate|].
    intros _ Hs. destruct b' as [|x b'].
    + cbn in Hs. assert (startsWith pat (c :: s) = true)
        by (apply startsWith_prefix; eauto). congruence.
    + injection Hs as <- Hs. now apply (IH b').
Qed.

(** A replacement text without "$" is inserted as it is. *)
Lemma getSubstitution_no_dollar (matched before after tmpl : jsstring) :
  ~ In 36 tmpl -> getSubstitution matched before after tmpl = tmpl.
Proof.
  induction tmpl as [|c r IH]; intros Hn; cbn [getSubstitution]; [reflexivity|].
  destruct (N.eqb_spec c 36) as [->|_].
  - exfalso. apply Hn. now left.
  - f_equal. apply IH. intros Hin. apply Hn. now right.
Qed.

Lemma replace_no_dollar (pat repl s : jsstring) :
  ~ In 36 repl -> replace pat repl s = replace_literal pat repl s.
Proof.
  intros Hn. unfold replace, replace_literal.
  destruct (split_at_first pat s) as [[b a]|]; [|reflexivity].
  now rewrite getSubstitution_no_dollar.
Qed.

(** The replacement text "$&" puts the matched text back. *)
Lemma replace_dollar_ampersand (pat s : jsstring) :
  replace pat (lit "$&") s = s.
Proof.
  unfold replace. destruct (split_at_first pat s) as [[b a]|] eqn:Hs;
    [|reflexivity].
  apply split_at_first_Some in Hs.
  change (getSubstitution pat b a (lit "$&")) with (pat ++ []).
  now rewrite app_nil_r.
Qed.

(** ** The prompt builder *)

(** With a target text free of "$", buildPrompt returns the template with
    the first placeholder replaced by the target text (when the task
    requires one), followed by a line with the custom prompt when the task
    allows one and one was given. *)
Lemma buildPrompt_literal (config : TaskConfig)
    (customPrompt targetText : option jsstring) :
  (requiresTargetText config = true ->
   exists t, targetText = Some t /\ t <> [] /\ ~ In 36 t) ->
  buildPrompt config customPrompt targetText =
  Ok ((if requiresTargetText config
       then replace_literal (lit "{{target}}")
              (match targetText with Some t => t | None => [] end)
              (defaultPrompt config)
       else defaultPrompt config)
      ++ (if allowCustomPrompt config && truthy_ostr customPrompt
          then newline ++ match customPrompt with Some p => p | None => [] end
          else [])).
Proof.
  intros Hreq. unfold buildPrompt.
  destruct (requiresTargetText config).
  - destruct (Hreq eq_refl) as (t & -> & Ht & Hd).
    destruct t as [|x t]; [contradiction|]. cbn [truthy_ostr truthy_str negb andb].
    rewrite replace_no_dollar by assumption.
    destruct (allowCustomPrompt config && truthy_ostr customPrompt);
      [reflexivity | now rewrite app_nil_r].
  - cbn [andb].
    destruct (allowCustomPrompt config && truthy_ostr customPrompt);
      [reflexivity | now rewrite app_nil_r].
Qed.

(** A custom prompt is dropped for a task that does not allow one. *)
Lemma buildPrompt_custom_ignored (config : TaskConfig)
    (customPrompt targetText : option jsstring) :
  allowCustomPrompt config = false ->
  buildPrompt config customPrompt targetText = buildPrompt config None targetText.
Proof.
  intros Ha. unfold buildPrompt. now rewrite Ha.
Qed.

(** ** Response extraction *)

Lemma trim_nil_or_truthy (s : jsstring) :
  truthy_str (trim s) = false <-> trim s = [].
Proof. destruct (trim s); cbn; split; congruence. Qed.

Lemma extractTextFromResponse_Ok (payload : option json) (text : jsstring)
    (confidence : option json) :
  extractTextFromResponse payload = Ok (text, confidence) -> text <> [].
Proof.
  unfold extractTextFromResponse.
  destruct (negb (truthy _)); [discriminate|].
  match goal with |- context [truthy_str ?t] => destruct t as [|x t'] end;
    cbn [truthy_str negb]; [discriminate|].
  intros [= <- _]. discriminate.
Qed.

Lemma extractTextFromResponse_Throw (payload : option json) (e : OcrError) :
  extractTextFromResponse payload = Throw e ->
  status e = 502%Z /\ code e = "EMPTY_RESPONSE"%string.
Proof.
  unfold extractTextFromResponse.
  destruct (negb (truthy _)); [intros [= <-]; auto|].
  destruct (negb (truthy_str _)); [intros [= <-]; auto | discriminate].
Qed.

Lemma extractTextFromResponse_never_crashes (payload : option json) :
  extractTextFromResponse payload <> Crash.
Proof.
  unfold extractTextFromResponse.
  destruct (negb (truthy _)); [discriminate|].
  destruct (negb (truthy_str _)); discriminate.
Qed.

(** ** File names *)

Lemma split_nonempty (sep : N) (s : jsstring) : split sep s <> [].
Proof.
  destruct s as [|c s]; cbn; [discriminate|].
  destruct (c =? sep); [discriminate|].
  destruct (split sep s); discriminate.
Qed.

Lemma split_without_sep (sep : N) (s : jsstring) :
  ~ In sep s -> split sep s = [s].
Proof.
  induction s as [|c s IH]; intros Hn; cbn; [reflexivity|].
  destruct (N.eqb_spec c sep) as [->|_].
  - exfalso. apply Hn. now left.
  - rewrite IH; [reflexivity|]. intros Hin. apply Hn. now right.
Qed.

Lemma split_app (sep : N) (a b : jsstring) :
  split sep (a ++ sep :: b) = split sep a ++ split sep b.
Proof.
  induction a as [|c a IH].
  - cbn. now rewrite N.eqb_refl.
  - change ((c :: a) ++ sep :: b) with (c :: (a ++ sep :: b)).
    cbn [split]. destruct (c =? sep); [now rewrite IH|].
    rewrite IH. pose proof (split_nonempty sep a) as Hne.
    destruct (split sep a); [contradiction | reflexivity].
Qed.

Lemma pop_snoc {A} (l : list A) (x : A) : pop (l ++ [x]) = Some x.
Proof. unfold pop. now rewrite rev_app_distr. Qed.

(** The extension is what follows the last dot, lower-cased; a name
    without a dot has none. *)
Lemma getExtension_last_dot `{JsHost} (stem e : jsstring) :
  ~ In 46 e -> getExtension (stem ++ 46 :: e) = Some (toLowerCase e).
Proof.
  intros He. unfold getExtension.
  rewrite split_app, (split_without_sep 46 e He), pop_snoc.
  pose proof (split_nonempty 46 stem) as Hne.
  destruct (split 46 stem) as [|p ps]; [contradiction|].
  rewrite length_app. cbn [length].
  replace (S (length ps) + 1 <? 2)%nat with false; [reflexivity|].
  symmetry. apply Nat.ltb_ge. lia.
Qed.

Lemma getExtension_no_dot `{JsHost} (filename : jsstring) :
  ~ In 46 filename -> getExtension filename = None.
Proof.
  intros Hn. unfold getExtension. now rewrite split_without_sep.
Qed.

(** ** File validation *)

Lemma Qltb_lt (a b : Q) : Qltb a b = true <-> (a < b)%Q.
Proof.
  unfold Qltb. rewrite negb_true_iff. split.
  - intros Hle. apply Qnot_le_lt. intros Hba.
    apply Qle_bool_iff in Hba. congruence.
  - intros Hlt. destruct (Qle_bool b a) eqn:Hle; [|reflexivity].
    apply Qle_bool_iff in Hle. exfalso. now apply (Qlt_not_le a b).
Qed.

Lemma Qltb_ge (a b : Q) : Qltb a b = false <-> (b <= a)%Q.
Proof.
  unfold Qltb. rewrite negb_false_iff. apply Qle_bool_iff.
Qed.

(** [Math.round] gives the integer within a half of its argument. *)
Lemma Math_round_nearest (x : Q) :
  (inject_Z (Math_round x) - (1 # 2) <= x)%Q /\
  (x < inject_Z (Math_round x) + (1 # 2))%Q.
Proof.
  unfold Math_round.
  pose proof (Qfloor_le (x + (1 # 2))) as Hl.
  pose proof (Qlt_floor (x + (1 # 2))) as Hu.
  rewrite inject_Z_plus in Hu. split.
  - apply (Qplus_le_l _ _ (1 # 2)). ring_simplify. ring_simplify in Hl. exact Hl.
  - apply (Qplus_lt_l _ _ (1 # 2)).
    eapply Qlt_le_trans; [exact Hu|]. ring_simplify. apply Qle_refl.
Qed.

Section Validation.
Context {host : JsHost}.

Lemma getMaxFileSize_cases (envValue : option jsstring) :
  (envValue = None -> getMaxFileSize envValue = DEFAULT_MAX_FILE_SIZE)
  /\ (envValue = Some [] -> getMaxFileSize envValue = DEFAULT_MAX_FILE_SIZE)
  /\ (forall v, envValue = Some v -> Number_ v = NaN ->
                getMaxFileSize envValue = DEFAULT_MAX_FILE_SIZE)
  /\ (forall v neg, envValue = Some v -> Number_ v = Infinity neg ->
                    getMaxFileSize envValue = DEFAULT_MAX_FILE_SIZE)
  /\ (forall v q, envValue = Some v -> Number_ v = Finite q -> (q <= 0)%Q ->
                  getMaxFileSize envValue = DEFAULT_MAX_FILE_SIZE)
  /\ (forall v q, envValue = Some v -> v <> [] -> Number_ v = Finite q ->
                  (0 < q)%Q -> getMaxFileSize envValue = q).
Proof.
  unfold getMaxFileSize. repeat split.
  - now intros ->.
  - now intros ->.
  - intros v -> Hn. rewrite Hn. now destruct (negb (truthy_str v)).
  - intros v neg -> Hn. rewrite Hn. now destruct (negb (truthy_str v)).
  - intros v q -> Hn Hq. rewrite Hn. apply Qltb_ge in Hq. rewrite Hq.
    now destruct (negb (truthy_str v)).
  - intros v q -> Hv Hn Hq. rewrite Hn. apply Qltb_lt in Hq. rewrite Hq.
    destruct v; [contradiction | reflexivity].
Qed.

Lemma getMaxFileSize_pos (envValue : option jsstring) :
  (0 < getMaxFileSize envValue)%Q.
Proof.
  unfold getMaxFileSize.
  destruct envValue as [v|]; [|reflexivity].
  destruct (negb (truthy_str v)); [reflexivity|].
  destruct (Number_ v) as [| neg | q]; try reflexivity.
  destruct (Qltb 0 q) eqn:Hq; [now apply Qltb_lt | reflexivity].
Qed.

Lemma validateFile_too_large (file : File) (filename : jsstring) (env : Env) :
  (getMaxFileSize (MAX_FILE_SIZE env) < inject_Z (Z.of_N (size file)))%Q ->
  validateFile file filename env =
    throwOcr 413 "FILE_TOO_LARGE"
      (MsgFileTooLarge
         (Math_round (getMaxFileSize (MAX_FILE_SIZE env) / 1024 / 1024))).
Proof.
  intros Hs. unfold validateFile. apply Qltb_lt in Hs. now rewrite Hs.
Qed.

Lemma validateFile_within_limit (file : File) (filename : jsstring) (env : Env) :
  (inject_Z (Z.of_N (size file)) <= getMaxFileSize (MAX_FILE_SIZE env))%Q ->
  validateFile file filename env =
    if isAllowedFormat (parseSupportedFormats (SUPPORTED_FORMATS env))
         (resolvedMime file filename) filename
    then Ok tt
    else throwOcr 400 "UNSUPPORTED_FORMAT" MsgUnsupportedFormat.
Proof.
  intros Hs. unfold validateFile. apply Qltb_ge in Hs. rewrite Hs.
  unfold resolvedMime. now destruct (isAllowedFormat _ _ _).
Qed.

End Validation.

(** ** The format allow-list *)

Lemma truthy_str_true (s : jsstring) : truthy_str s = true <-> s <> [].
Proof. destruct s; cbn; split; congruence. Qed.

Lemma truthy_str_false (s : jsstring) : truthy_str s = false <-> s = [].
Proof. destruct s; cbn; split; congruence. Qed.

(** An entry with a "/" is compared with the MIME type, lower-cased on
    both sides. *)
Lemma formatMatches_mime `{JsHost} (mime format : jsstring) (ext : option jsstring) :
  toLowerCase (trim format) <> [] ->
  includes (lit "/") (toLowerCase (trim format)) = true ->
  (formatMatches (toLowerCase mime) ext format = true
   <-> toLowerCase (trim format) = toLowerCase mime).
Proof.
  intros Hn Hs. unfold formatMatches.
  apply truthy_str_true in Hn. rewrite Hn, Hs. cbn [negb].
  apply str_eqb_eq.
Qed.

Lemma extension_matches (token : jsstring) (ext : option jsstring) :
  (if truthy_ostr ext
   then str_eqb token (match ext with Some e => e | None => [] end)
   else false) = true
  <-> exists e, ext = Some e /\ e <> [] /\ token = e.
Proof.
  destruct ext as [[|x e]|]; cbn [truthy_ostr truthy_str].
  - split; [discriminate|]. intros (e' & [= <-] & He & _). congruence.
  - rewrite str_eqb_eq. split.
    + intros ->. exists (x :: e). repeat split. discriminate.
    + now intros (e' & [= <-] & _ & ->).
  - split; [discriminate|]. intros (e' & He & _). discriminate.
Qed.

(** An entry without a "/" is compared with the extension, its leading
    "." set aside. *)
Lemma formatMatches_extension `{JsHost} (mime format : jsstring) (ext : option jsstring) :
  toLowerCase (trim format) <> [] ->
  includes (lit "/") (toLowerCase (trim format)) = false ->
  (formatMatches (toLowerCase mime) ext format = true
   <-> exists e, ext = Some e /\ e <> [] /\
         (if startsWith (lit ".") (toLowerCase (trim format))
          then slice1 (toLowerCase (trim format))
          else toLowerCase (trim format)) = e).
Proof.
  intros Hn Hs. unfold formatMatches.
  apply truthy_str_true in Hn. rewrite Hn, Hs. cbn [negb].
  destruct (startsWith (lit ".") _); apply extension_matches.
Qed.

Lemma formatMatches_empty `{JsHost} (mime format : jsstring) (ext : option jsstring) :
  toLowerCase (trim format) = [] ->
  formatMatches mime ext format = false.
Proof. intros Hn. unfold formatMatches. now rewrite Hn. Qed.

Lemma isAllowedFormat_false `{JsHost} (formats : list jsstring) (mime filename : jsstring) :
  isAllowedFormat formats mime filename = false <->
  forall format, In format formats ->
    formatMatches (toLowerCase mime) (getExtension filename) format = false.
Proof.
  unfold isAllowedFormat. split.
  - intros He format Hin.
    destruct (formatMatches _ _ format) eqn:Hm; [|reflexivity].
    assert (existsb (formatMatches (toLowerCase mime) (getExtension filename))
              formats = true) by (apply existsb_exists; eauto).
    congruence.
  - intros Hall.
    destruct (existsb _ formats) eqn:He; [|reflexivity].
    apply existsb_exists in He as (format & Hin & Hm).
    rewrite (Hall format Hin) in Hm. discriminate.
Qed.

Lemma isAllowedFormat_true `{JsHost} (formats : list jsstring) (mime filename : jsstring) :
  isAllowedFormat formats mime filename = true <->
  exists format, In format formats /\
    formatMatches (toLowerCase mime) (getExtension filename) format = true.
Proof. unfold isAllowedFormat. apply existsb_exists. Qed.

Lemma getExtension_nonempty_name `{JsHost} (filename e : jsstring) :
  getExtension filename = Some e -> filename <> [].
Proof. intros He ->. discriminate. Qed.

Lemma resolvedMime_declared `{JsHost} (file : File) (filename : jsstring) :
  type file <> [] -> resolvedMime file filename = type file.
Proof.
  intros Ht. unfold resolvedMime, or_ostr.
  apply truthy_str_true in Ht. now rewrite Ht.
Qed.

Lemma formatMatches_jpeg_entry `{JsHost} (mime : jsstring) (ext : option jsstring) :
  formatMatches mime ext (lit "image/jpeg") = str_eqb (lit "image/jpeg") mime.
Proof.
  unfold formatMatches. change (trim (lit "image/jpeg")) with (lit "image/jpeg").
  rewrite toLowerCase_ascii by reflexivity. reflexivity.
Qed.

Lemma formatMatches_dot_pdf_entry `{JsHost} (mime : jsstring) (ext : option jsstring) :
  formatMatches mime ext (lit ".pdf") = true <-> ext = Some (lit "pdf").
Proof.
  unfold formatMatches. change (trim (lit ".pdf")) with (lit ".pdf").
  rewrite toLowerCase_ascii by reflexivity.
  change (map lower_unit (lit ".pdf")) with (lit ".pdf"). cbv iota beta zeta.
  change (negb (truthy_str (lit ".pdf"))) with false.
  change (includes (lit "/") (lit ".pdf")) with false.
  change (startsWith (lit ".") (lit ".pdf")) with true.
  change (slice1 (lit ".pdf")) with (lit "pdf"). cbv iota.
  rewrite extension_matches. split.
  - now intros (e & -> & _ & <-).
  - intros ->. exists (lit "pdf"). repeat split. discriminate.
Qed.

(** ** The target text *)

Lemma drop_ws_nil (s : jsstring) :
  drop_ws s = [] <-> forallb is_ws s = true.
Proof.
  induction s as [|c s IH]; cbn; [tauto|].
  destruct (is_ws c); cbn; [exact IH|]. split; discriminate.
Qed.

Lemma drop_ws_head (s r : jsstring) (c : N) :
  drop_ws s = c :: r -> is_ws c = false.
Proof.
  induction s as [|x s IH]; cbn; [discriminate|].
  destruct (is_ws x) eqn:Hx; [exact IH|]. now intros [= <- _].
Qed.

Lemma forallb_rev {A} (f : A -> bool) (l : list A) :
  forallb f (rev l) = true <-> forallb f l = true.
Proof.
  rewrite !forallb_forall. split; intros Hf x Hx; apply Hf;
    [now apply in_rev in Hx | now apply in_rev].
Qed.

(** A string trims to the empty string exactly when it is white space
    only. *)
Lemma trim_nil (s : jsstring) : trim s = [] <-> forallb is_ws s = true.
Proof.
  unfold trim. split.
  - intros Ht. apply (f_equal (@rev N)) in Ht. rewrite rev_involutive in Ht.
    cbn [rev] in Ht. apply drop_ws_nil in Ht. apply (proj1 (forallb_rev _ _)) in Ht.
    destruct (drop_ws s) as [|c r] eqn:Hd; [now apply drop_ws_nil|].
    apply drop_ws_head in Hd. cbn [forallb] in Ht. rewrite Hd in Ht.
    discriminate.
  - intros Hs. apply drop_ws_nil in Hs. now rewrite Hs.
Qed.

Lemma normalizeString_blank (value : option jsstring) :
  blank value -> normalizeString value = None.
Proof.
  destruct value as [s|]; cbn; [|reflexivity]. now intros ->.
Qed.

Lemma normalizeString_Some (value : option jsstring) (s : jsstring) :
  normalizeString value = Some s ->
  s <> [] /\ exists raw, value = Some raw /\ s = trim raw.
Proof.
  destruct value as [raw|]; cbn; [|discriminate].
  destruct (trim raw) as [|x t] eqn:Ht; cbn; [discriminate|].
  intros [= <-]. split; [discriminate|]. exists raw. now rewrite Ht.
Qed.

Lemma parseMultipart_targetText (c : Request) (forced : option TaskType)
    (p : ParsedInput) :
  parseMultipart c forced = Ok p ->
  targetText p = normalizeString (multipartText c).
Proof.
  unfold parseMultipart, multipartText. intros Hp.
  apply bind_Ok in Hp as (body & Hb & Hp).
  destruct (req_parseBody c) as [body'|]; [|discriminate].
  injection Hb as ->.
  destruct (first (assoc (lit "image") body)) as [[s|f]|]; try discriminate.
  apply bind_Ok in Hp as (t & _ & Hp). now injection Hp as <-.
Qed.

Lemma JsonRequestSchema_safeParse_text (props : list (jsstring * json))
    (payload : JsonRequest) :
  JsonRequestSchema_safeParse (JObj props) = inr payload ->
  j_text payload =
    match assoc (lit "text") props with
    | Some (JStr s) => Some s
    | _ => None
    end.
Proof.
  unfold JsonRequestSchema_safeParse.
  destruct (optionalTaskType props) as [i1 t].
  destruct (requiredImage props) as [i2 img].
  destruct (optionalString "filename" props) as [i3 fn].
  destruct (optionalString "prompt" props) as [i4 pr].
  unfold optionalString.
  destruct (assoc (lit "text") props) as [[| b | n | s | items | ps]|];
    (destruct (i1 ++ i2 ++ i3 ++ i4 ++ _) eqn:Hi; [|discriminate]);
    try (intros [= <-]; reflexivity);
    exfalso; repeat (apply app_eq_nil in Hi as [_ Hi]); discriminate.
Qed.

Lemma parseJson_targetText `{JsHost} (c : Request) (forced : option TaskType)
    (p : ParsedInput) :
  parseJson c forced = Ok p ->
  targetText p = normalizeString (jsonText c).
Proof.
  unfold parseJson, jsonText. intros Hp.
  apply bind_Ok in Hp as (raw & Hb & Hp).
  destruct (req_json c) as [raw'|]; [|discriminate].
  injection Hb as ->.
  destruct (JsonRequestSchema_safeParse raw) as [issues|payload] eqn:Hs;
    [discriminate|].
  destruct (negb (truthy_str (j_image payload))); [discriminate|].
  apply bind_Ok in Hp as (bytes & _ & Hp).
  apply bind_Ok in Hp as (t & _ & Hp). injection Hp as <-. cbn [targetText].
  destruct raw as [| b | n | s | items | props]; try discriminate.
  now rewrite (JsonRequestSchema_safeParse_text props payload Hs).
Qed.

Lemma buildPrompt_missing_target (customPrompt : option jsstring) :
  buildPrompt (TASK_CONFIGS text_localization) customPrompt None
  = throwOcr 400 "MISSING_TARGET_TEXT" MsgMissingTargetText.
Proof. reflexivity. Qed.

(** ** Runs on concrete inputs *)

Example fileToBase64_Man :
  fileToBase64 [x4d; x61; x6e] = Ok (lit "TWFu")
  /\ fileToBase64 [x4d; x61] = Ok (lit "TWE=")
  /\ fileToBase64 [x4d] = Ok (lit "TQ==").
Proof. repeat split; vm_compute; reflexivity. Qed.

Example base64ToUint8Array_data_uri :
  base64ToUint8Array (lit "data:text/plain;base64,TW Fu TQ==")
  = Ok [x4d; x61; x6e; x4d]
  /\ base64ToUint8Array (lit "TWFu*") = Crash.
Proof. split; vm_compute; reflexivity. Qed.

Example trim_spaces :
  trim (9 :: 12288 :: lit " a b " ++ [160; 10]) = lit "a b".
Proof. reflexivity. Qed.

Example replace_patterns :
  replace (lit "{{target}}") (lit "US$ 5") (lit "a{{target}}b{{target}}")
  = lit "aUS$ 5b{{target}}"
  /\ replace (lit "{{target}}") (lit "$$") (lit "a{{target}}b") = lit "a$b"
  /\ replace (lit "{{target}}") (lit "$'") (lit "a{{target}}b") = lit "abb"
  /\ replace (lit "{{target}}") (lit "$1") (lit "a{{target}}b") = lit "a$1b".
Proof. repeat split; reflexivity. Qed.

(** The target text U+603B U+8BA1 with a custom prompt: the template with
    the placeholder replaced, a newline, the custom prompt. *)
Example buildPrompt_text_localization :
  buildPrompt (TASK_CONFIGS text_localization) (Some (lit "Answer briefly."))
    (Some [24635; 35745])
  = Ok (lit "<image>" ++ newline ++ lit "Locate <|ref|>" ++ [24635; 35745]
        ++ lit "<|/ref|> in the image." ++ newline ++ lit "Answer briefly.").
Proof. reflexivity. Qed.

Example buildPrompt_document_markdown :
  buildPrompt (TASK_CONFIGS document_markdown) (Some (lit "Answer briefly.")) None
  = Ok (lit "<image>" ++ newline
        ++ lit "<|grounding|>Convert the document to markdown.").
Proof. reflexivity. Qed.

Example getExtension_runs :
  @getExtension exampleHost (lit "archive.tar.GZ") = Some (lit "gz")
  /\ @getExtension exampleHost (lit "README") = None
  /\ @getExtension exampleHost (lit "draft.") = Some [].
Proof. repeat split; reflexivity. Qed.

Example parseSupportedFormats_runs :
  @parseSupportedFormats exampleHost (Some (lit " image/png, .pdf  jpg,"))
  = [lit "image/png"; lit ".pdf"; lit "jpg"]
  /\ @parseSupportedFormats exampleHost (Some (lit " , ")) = DEFAULT_SUPPORTED_FORMATS
  /\ @parseSupportedFormats exampleHost None = DEFAULT_SUPPORTED_FORMATS.
Proof. repeat split; reflexivity. Qed.

Example getMaxFileSize_runs :
  @getMaxFileSize exampleHost (Some (lit "2097152")) = inject_Z 2097152
  /\ @getMaxFileSize exampleHost (Some (lit "0")) = inject_Z 10485760
  /\ @getMaxFileSize exampleHost (Some (lit "ten")) = inject_Z 10485760
  /\ @getMaxFileSize exampleHost None = inject_Z 10485760.
Proof. repeat split; reflexivity. Qed.

(** ** The claims *)

(** C1 — On each of the six fixed-task alias endpoints, a successful
    response carries in [data.taskType] the task type the endpoint fixes,
    whatever the request body (multipart or JSON) declares as [taskType]. *)
Theorem alias_endpoint_forces_task_type `{JsHost} (path : string)
    (t : TaskType) (handler : Handler) (w : World) (env : Env) (c : Request)
    (st : Z) (data : OcrData) :
  In (path, t) aliasEndpoints ->
  app path = Some handler ->
  handler w env c = mkResponse st (SuccessBody data) ->
  data_taskType data = t.
Proof.
  intros Hin Happ Hresp.
  rewrite (aliasEndpoints_app path t Hin) in Happ. injection Happ as <-.
  unfold createAliasRoute in Hresp.
  apply handleOcrRequest_success in Hresp as [Hdata _].
  apply processOcrRequest_taskType in Hdata as (p & Hp & ->).
  cbn [forcedTaskType] in Hp. now apply parseInput_forced in Hp.
Qed.

(** A request to the locate endpoint that declares [general_ocr] succeeds
    as a text-localization task. *)
Lemma alias_endpoint_forces_task_type_witness :
  exists data,
    @OcrLocateRoute exampleHost exampleWorld exampleEnv
      (multipartRequest "total" "general_ocr") = mkResponse 200 (SuccessBody data)
    /\ data_taskType data = text_localization.
Proof.
  eexists. split.
  - vm_compute. reflexivity.
  - apply (@alias_endpoint_forces_task_type exampleHost "/api/ocr/locate"
             text_localization (@OcrLocateRoute exampleHost) exampleWorld
             exampleEnv (multipartRequest "total" "general_ocr") 200).
    + cbn. tauto.
    + reflexivity.
    + vm_compute. reflexivity.
Defined.

(** C8 — Decoding the base64 text the Encoder produces from any binary
    content and encoding the decoded bytes again gives the same base64
    text; the decoded bytes are the content. *)
Theorem base64_encode_decode_encode (content : list byte) :
  exists base64 bytes,
    fileToBase64 content = Ok base64 /\
    base64ToUint8Array base64 = Ok bytes /\
    bytes = content /\
    fileToBase64 bytes = Ok base64.
Proof.
  exists (btoa_units (fromCharCode content)), content.
  pose proof (base64ToUint8Array_fileToBase64 content) as Hd.
  rewrite fileToBase64_eq in Hd. cbn [bind] in Hd.
  repeat split; auto using fileToBase64_eq.
Qed.

(** C9 — A request on the JSON path whose body is not valid JSON gets the
    generic envelope INTERNAL_ERROR with status 500, and so not
    INVALID_JSON with status 400: reading the body throws before the
    schema is consulted, and what it throws is not an [OcrError]. *)
Theorem malformed_json_body_is_internal_error `{JsHost} (w : World)
    (env : Env) (c : Request) (options : ProcessOptions) :
  declaresJson c ->
  req_json c = None ->
  handleOcrRequest w env c options
    = mkResponse 500 (ErrorBody "INTERNAL_ERROR" MsgInternal None)
  /\ forall m d,
       handleOcrRequest w env c options <> mkResponse 400 (ErrorBody "INVALID_JSON" m d).
Proof.
  intros Hj Hbody.
  assert (Hr : handleOcrRequest w env c options
               = mkResponse 500 (ErrorBody "INTERNAL_ERROR" MsgInternal None)).
  { apply handleOcrRequest_Crash, processOcrRequest_parse_Crash.
    rewrite parseInput_json by assumption.
    unfold parseJson. now rewrite Hbody. }
  split; [exact Hr|]. intros m d. rewrite Hr. discriminate.
Qed.

Lemma malformed_json_body_is_internal_error_witness :
  @handleOcrRequest exampleHost exampleWorld exampleEnv (jsonRequest None)
    (mkProcessOptions None)
  = mkResponse 500 (ErrorBody "INTERNAL_ERROR" MsgInternal None).
Proof.
  apply (@malformed_json_body_is_internal_error exampleHost exampleWorld
           exampleEnv (jsonRequest None) (mkProcessOptions None)).
  - exists (lit "application/json"). repeat split; reflexivity.
  - reflexivity.
Defined.

(** C7 — The claim asks for MISSING_IMAGE when a JSON body lacks image
    data. The schema of parseJson requires a non-empty [image] string, so
    such a body is already a schema violation: every JSON object without
    an [image] string of at least one code unit is answered with
    INVALID_JSON and status 400, and the MISSING_IMAGE branch is never
    reached (see [parseJson_never_missing_image]). *)
Theorem json_body_without_image_is_invalid_json `{JsHost} (w : World)
    (env : Env) (c : Request) (options : ProcessOptions)
    (props : list (jsstring * json)) :
  declaresJson c ->
  req_json c = Some (JObj props) ->
  lacksImage props ->
  exists issues,
    handleOcrRequest w env c options
    = mkResponse 400 (ErrorBody "INVALID_JSON" (MsgZodIssues issues) None)
    /\ In (lit "image") (map fst issues).
Proof.
  intros Hj Hbody Hlack.
  destruct (JsonRequestSchema_safeParse_lacksImage props Hlack)
    as (issues & Hs & Hin).
  exists issues. split; [|exact Hin].
  apply handleOcrRequest_Throw; [reflexivity|].
  apply processOcrRequest_parse_Throw.
  rewrite parseInput_json by assumption.
  unfold parseJson. rewrite Hbody. cbn [ofHost bind]. now rewrite Hs.
Qed.

(** The empty JSON object. *)
Lemma json_body_without_image_is_invalid_json_witness :
  exists issues,
    @handleOcrRequest exampleHost exampleWorld exampleEnv
      (jsonRequest (Some (JObj []))) (mkProcessOptions None)
    = mkResponse 400 (ErrorBody "INVALID_JSON" (MsgZodIssues issues) None)
    /\ In (lit "image") (map fst issues).
Proof.
  apply (@json_body_without_image_is_invalid_json exampleHost exampleWorld
           exampleEnv (jsonRequest (Some (JObj []))) (mkProcessOptions None) []).
  - exists (lit "application/json"). repeat split; reflexivity.
  - reflexivity.
  - exact I.
Defined.

(** C10 — On an alias endpoint a JSON body whose [taskType] member is not
    in the enumeration is rejected by the schema with INVALID_JSON and
    status 400, the forced task type notwithstanding; on the multipart
    path the parsed input does not depend on the [taskType] field, the
    forced task type is used, and such a request can succeed. *)
Theorem alias_invalid_taskType_json_rejected_multipart_ignored :
  (forall (host : JsHost) path t handler w env c props v,
      In (path, t) aliasEndpoints ->
      app path = Some handler ->
      declaresJson c ->
      req_json c = Some (JObj props) ->
      assoc (lit "taskType") props = Some v ->
      (forall t', v <> JStr (taskTypeName t')) ->
      exists issues,
        handler w env c
        = mkResponse 400 (ErrorBody "INVALID_JSON" (MsgZodIssues issues) None))
  /\ (forall (host : JsHost) t c,
        declaresMultipart c ->
        parseInput c (Some t) =
          match req_parseBody c with
          | Some body =>
              match first (assoc (lit "image") body) with
              | Some (FormFile file) =>
                  Ok {| file := file;
                        filename := or_str (name file) (lit "upload");
                        taskType := t;
                        customPrompt :=
                          normalizeString (asString (first (assoc (lit "prompt") body)));
                        targetText :=
                          normalizeString (asString (first (assoc (lit "text") body))) |}
              | _ => throwOcr 400 "INVALID_FILE" MsgInvalidFile
              end
          | None => Crash
          end)
  /\ (exists data,
        TaskTypeSchema_safeParse (lit "bogus") = None /\
        @OcrGeneralRoute exampleHost exampleWorld exampleEnv
          (multipartRequest "total" "bogus") = mkResponse 200 (SuccessBody data) /\
        data_taskType data = general_ocr).
Proof.
  split; [|split].
  - intros host path t handler w env c props v Hin Happ Hj Hbody Hv Hn.
    rewrite (aliasEndpoints_app path t Hin) in Happ. injection Happ as <-.
    destruct (JsonRequestSchema_safeParse_invalid_taskType props v Hv Hn)
      as (issues & Hs).
    exists issues. unfold createAliasRoute.
    apply handleOcrRequest_Throw; [reflexivity|].
  apply processOcrRequest_parse_Throw.
    rewrite parseInput_json by assumption.
    unfold parseJson. rewrite Hbody. cbn [ofHost bind]. now rewrite Hs.
  - intros host t c Hm. rewrite parseInput_multipart by assumption.
    unfold parseMultipart. destruct (req_parseBody c) as [body|]; [|reflexivity].
    cbn [ofHost bind].
    destruct (first (assoc (lit "image") body)) as [[s|f]|]; try reflexivity.
    now rewrite resolveTaskType_forced.
  - eexists. split; [reflexivity|]. split; vm_compute; reflexivity.
Qed.

(** A JSON body declaring the task "bogus" on the general-OCR endpoint. *)
Lemma alias_invalid_taskType_json_rejected_witness :
  exists issues,
    @OcrGeneralRoute exampleHost exampleWorld exampleEnv
      (jsonRequest (Some (JObj [(lit "image", JStr (lit "iVBORw=="));
                                (lit "taskType", JStr (lit "bogus"))])))
    = mkResponse 400 (ErrorBody "INVALID_JSON" (MsgZodIssues issues) None).
Proof.
  apply (proj1 alias_invalid_taskType_json_rejected_multipart_ignored
           exampleHost "/api/ocr/general"%string general_ocr
           (@OcrGeneralRoute exampleHost) exampleWorld exampleEnv _
           [(lit "image", JStr (lit "iVBORw==")); (lit "taskType", JStr (lit "bogus"))]
           (JStr (lit "bogus"))).
  - cbn. tauto.
  - reflexivity.
  - exists (lit "application/json"). repeat split; reflexivity.
  - reflexivity.
  - reflexivity.
  - intros t'. destruct t'; discriminate.
Defined.

(** C2 — The claim has buildPrompt put the target text in place of the
    first placeholder. The source calls [String.prototype.replace] with the
    target text as the replacement, which expands "$&", "$$", "$`" and
    "$'" in it: for the target text "$&" and any task that requires a
    target, the prompt is the template as it is, placeholder included,
    where the claim has "$&" in the placeholder's place. For a target text
    without "$" the claim holds ([buildPrompt_literal],
    [buildPrompt_custom_ignored]). *)
Theorem buildPrompt_target_with_dollar_pattern (config : TaskConfig)
    (customPrompt : option jsstring) :
  requiresTargetText config = true ->
  buildPrompt config customPrompt (Some (lit "$&"))
  = Ok (defaultPrompt config
        ++ (if allowCustomPrompt config && truthy_ostr customPrompt
            then newline ++ match customPrompt with Some p => p | None => [] end
            else []))
  /\ (config = TASK_CONFIGS text_localization ->
      replace_literal (lit "{{target}}") (lit "$&") (defaultPrompt config)
      = lit "<image>" ++ newline ++ lit "Locate <|ref|>$&<|/ref|> in the image."
      /\ replace_literal (lit "{{target}}") (lit "$&") (defaultPrompt config)
         <> defaultPrompt config).
Proof.
  intros Hreq. split.
  - unfold buildPrompt. rewrite Hreq. cbn [truthy_ostr andb].
    change (negb (truthy_str (lit "$&"))) with false. cbv iota.
    rewrite replace_dollar_ampersand.
    destruct (allowCustomPrompt config && truthy_ostr customPrompt);
      [reflexivity | now rewrite app_nil_r].
  - intros ->. split; [reflexivity | discriminate].
Qed.

(** The text-localization task with the target text "$&" and no custom
    prompt. *)
Lemma buildPrompt_target_with_dollar_pattern_witness :
  buildPrompt (TASK_CONFIGS text_localization) None (Some (lit "$&"))
  = Ok (lit "<image>" ++ newline
        ++ lit "Locate <|ref|>{{target}}<|/ref|> in the image.").
Proof.
  refine (eq_trans
            (proj1 (buildPrompt_target_with_dollar_pattern
                      (TASK_CONFIGS text_localization) None _)) _).
  - reflexivity.
  - reflexivity.
Defined.




(** C4 — File validation fails with FILE_TOO_LARGE and status 413 exactly
    when the file's size in bytes exceeds the limit, whatever the file's
    type, name or the configured formats, and the message carries the
    limit in megabytes rounded to a whole number. The limit is the
    configured number when that is finite and greater than zero, and
    10,485,760 in every other case: nothing or the empty text configured,
    a text that is not a number, an infinite number of either sign, a
    number that is not positive. *)
Theorem file_too_large_exactly_above_limit `{JsHost} (file : File)
    (filename : jsstring) (env : Env) :
  let limit := getMaxFileSize (MAX_FILE_SIZE env) in
  let megabytes := Math_round (limit / 1024 / 1024) in
  (failsWith (validateFile file filename env) 413 "FILE_TOO_LARGE"
   <-> (limit < inject_Z (Z.of_N (size file)))%Q)
  /\ ((limit < inject_Z (Z.of_N (size file)))%Q ->
      validateFile file filename env
      = throwOcr 413 "FILE_TOO_LARGE" (MsgFileTooLarge megabytes))
  /\ ((inject_Z megabytes - (1 # 2) <= limit / 1024 / 1024)%Q /\
      (limit / 1024 / 1024 < inject_Z megabytes + (1 # 2))%Q)
  /\ (MAX_FILE_SIZE env = None -> limit = inject_Z 10485760)
  /\ (MAX_FILE_SIZE env = Some [] -> limit = inject_Z 10485760)
  /\ (forall v, MAX_FILE_SIZE env = Some v -> Number_ v = NaN ->
                limit = inject_Z 10485760)
  /\ (forall v negative, MAX_FILE_SIZE env = Some v ->
                         Number_ v = Infinity negative ->
                         limit = inject_Z 10485760)
  /\ (forall v q, MAX_FILE_SIZE env = Some v -> Number_ v = Finite q ->
                  (q <= 0)%Q -> limit = inject_Z 10485760)
  /\ (forall v q, MAX_FILE_SIZE env = Some v -> v <> [] ->
                  Number_ v = Finite q -> (0 < q)%Q -> limit = q).
Proof.
  cbv zeta.
  destruct (getMaxFileSize_cases (MAX_FILE_SIZE env))
    as (Hnone & Hempty & Hnan & Hinf & Hneg & Hpos).
  split; [|split; [|split; [|split; [|split; [|split; [|split; [|split]]]]]]].
  - split.
    + intros (e & He & Hst & _).
      destruct (Qlt_le_dec (getMaxFileSize (MAX_FILE_SIZE env))
                  (inject_Z (Z.of_N (size file)))) as [Hlt|Hle]; [exact Hlt|].
      rewrite validateFile_within_limit in He by assumption.
      destruct (isAllowedFormat _ _ _); [discriminate|].
      injection He as <-. discriminate.
    + intros Hlt. eexists. split; [now apply validateFile_too_large|].
      split; reflexivity.
  - apply validateFile_too_large.
  - apply Math_round_nearest.
  - exact Hnone.
  - exact Hempty.
  - exact Hnan.
  - exact Hinf.
  - exact Hneg.
  - exact Hpos.
Qed.

(** With "3" configured, a file of four bytes is too large; the limit is
    reported as 0 MB. *)
Lemma file_too_large_exactly_above_limit_witness :
  @validateFile exampleHost pngFile (lit "scan.png")
    (mkEnv None None None (Some (lit "3")) None)
  = throwOcr 413 "FILE_TOO_LARGE" (MsgFileTooLarge 0).
Proof.
  apply (proj1 (proj2 (@file_too_large_exactly_above_limit exampleHost pngFile
                         (lit "scan.png")
                         (mkEnv None None None (Some (lit "3")) None)))).
  reflexivity.
Defined.

(** C4, as stated, fails for a maximum configured as "Infinity": Number
    reads it as a number, and a positive one, that no size exceeds, yet
    the limit is 10,485,760 and a file of 10,485,761 bytes fails with
    FILE_TOO_LARGE. *)
Lemma infinite_maximum_counterexample :
  let env := mkEnv None None None (Some (lit "Infinity")) None in
  @Number_ infinityHost (lit "Infinity") = Infinity false
  /\ size oversizeFile = 10485761
  /\ @getMaxFileSize infinityHost (MAX_FILE_SIZE env) = inject_Z 10485760
  /\ @validateFile infinityHost oversizeFile (lit "scan.png") env
     = throwOcr 413 "FILE_TOO_LARGE" (MsgFileTooLarge 10).
Proof.
  cbv zeta.
  assert (Hsize : size oversizeFile = 10485761).
  { unfold size, oversizeFile. cbn [content].
    rewrite repeat_length. apply N2Nat.id. }
  split; [reflexivity|]. split; [exact Hsize|]. split; [reflexivity|].
  unfold validateFile. rewrite Hsize. reflexivity.
Qed.

Section FormatExamples.
#[local] Existing Instance exampleHost.

(** C5, as stated, fails on two counts. A file above the size limit that
    no entry matches fails with FILE_TOO_LARGE, not UNSUPPORTED_FORMAT; and
    a file declared as image/png but named "scan.pdf" is accepted under
    the allow-list ["image/jpeg", ".pdf"], by its extension. *)
Lemma unsupported_format_iff_counterexample :
  let env := mkEnv None None None (Some (lit "3")) None in
  let notes := mkFile (lit "notes.txt") (lit "text/plain") [x68; x65; x6c; x6c; x6f] in
  let renamed := mkFile (lit "scan.pdf") (lit "image/png") [x89; x50; x4e; x47] in
  (forall format,
      In format (@parseSupportedFormats exampleHost (SUPPORTED_FORMATS env)) ->
      formatMatches (toLowerCase (resolvedMime notes (lit "notes.txt")))
        (getExtension (lit "notes.txt")) format = false)
  /\ @validateFile exampleHost notes (lit "notes.txt") env
     = throwOcr 413 "FILE_TOO_LARGE" (MsgFileTooLarge 0)
  /\ ~ failsWith (@validateFile exampleHost notes (lit "notes.txt") env)
         400 "UNSUPPORTED_FORMAT"
  /\ isAllowedFormat [lit "image/jpeg"; lit ".pdf"]
       (resolvedMime renamed (lit "scan.pdf")) (lit "scan.pdf") = true
  /\ @validateFile exampleHost renamed (lit "scan.pdf")
       (mkEnv None None None None (Some (lit "image/jpeg,.pdf"))) = Ok tt.
Proof.
  cbv zeta. split; [|split; [|split; [|split]]]; try reflexivity.
  - apply isAllowedFormat_false. reflexivity.
  - intros (e & He & Hst & _). injection He as <-. discriminate.
Qed.

End FormatExamples.

(** C5, amended — An allow-list entry, trimmed and lower-cased, accepts a
    file by its resolved MIME type (lower-cased) when the entry contains a
    "/", and by its extension when the entry starts with "." or is a bare
    token; an empty entry accepts nothing. For a file within the size
    limit, validation fails with UNSUPPORTED_FORMAT and status 400 if and
    only if no entry accepts the file, and succeeds otherwise. Under the
    allow-list ["image/jpeg", ".pdf"] such a file is rejected when it is
    declared image/png and its extension is not pdf, and accepted when it
    declares no type and its extension is pdf. *)
Theorem format_allow_list_within_size_limit `{JsHost} (file : File)
    (filename : jsstring) (env : Env) :
  let formats := parseSupportedFormats (SUPPORTED_FORMATS env) in
  let mime := resolvedMime file filename in
  let ext := getExtension filename in
  (forall format,
      toLowerCase (trim format) <> [] ->
      includes (lit "/") (toLowerCase (trim format)) = true ->
      (formatMatches (toLowerCase mime) ext format = true
       <-> toLowerCase (trim format) = toLowerCase mime))
  /\ (forall format,
        toLowerCase (trim format) <> [] ->
        includes (lit "/") (toLowerCase (trim format)) = false ->
        (formatMatches (toLowerCase mime) ext format = true
         <-> exists e, ext = Some e /\ e <> [] /\
               (if startsWith (lit ".") (toLowerCase (trim format))
                then slice1 (toLowerCase (trim format))
                else toLowerCase (trim format)) = e))
  /\ (forall format,
        toLowerCase (trim format) = [] ->
        formatMatches (toLowerCase mime) ext format = false)
  /\ ((inject_Z (Z.of_N (size file)) <= getMaxFileSize (MAX_FILE_SIZE env))%Q ->
      (failsWith (validateFile file filename env) 400 "UNSUPPORTED_FORMAT"
       <-> forall format, In format formats ->
             formatMatches (toLowerCase mime) ext format = false)
      /\ (validateFile file filename env = Ok tt
          <-> exists format, In format formats /\
                formatMatches (toLowerCase mime) ext format = true)
      /\ (formats = [lit "image/jpeg"; lit ".pdf"] ->
          type file = lit "image/png" -> ext <> Some (lit "pdf") ->
          validateFile file filename env
          = throwOcr 400 "UNSUPPORTED_FORMAT" MsgUnsupportedFormat)
      /\ (formats = [lit "image/jpeg"; lit ".pdf"] ->
          type file = [] -> ext = Some (lit "pdf") ->
          validateFile file filename env = Ok tt)).
Proof.
  cbv zeta.
  split; [|split; [|split]].
  - intros format. apply formatMatches_mime.
  - intros format. apply formatMatches_extension.
  - intros format. apply formatMatches_empty.
  - intros Hsize.
    pose proof (validateFile_within_limit file filename env Hsize) as Hv.
    split; [|split; [|split]].
    + rewrite <- isAllowedFormat_false, Hv.
      destruct (isAllowedFormat _ _ _); split.
      * intros (e & He & _). discriminate.
      * discriminate.
      * reflexivity.
      * intros _. eexists. repeat split.
    + rewrite <- isAllowedFormat_true, Hv.
      unfold throwOcr. destruct (isAllowedFormat _ _ _); split; congruence.
    + intros Hf Ht Hext. rewrite Hv, Hf.
      replace (isAllowedFormat _ _ _) with false; [reflexivity|].
      symmetry. apply isAllowedFormat_false. intros format [<-|[<-|[]]].
      * rewrite formatMatches_jpeg_entry, resolvedMime_declared, Ht
          by (rewrite Ht; discriminate).
        rewrite toLowerCase_ascii by reflexivity. reflexivity.
      * destruct (formatMatches _ _ (lit ".pdf")) eqn:Hm; [|reflexivity].
        apply formatMatches_dot_pdf_entry in Hm. contradiction.
    + intros Hf Ht Hext. rewrite Hv, Hf.
      replace (isAllowedFormat _ _ _) with true; [reflexivity|].
      symmetry. apply isAllowedFormat_true. exists (lit ".pdf"). split.
      * right. now left.
      * now apply formatMatches_dot_pdf_entry.
Qed.

(** A four-byte PNG named "scan.png" under the allow-list
    "image/jpeg,.pdf". *)
Lemma format_allow_list_within_size_limit_witness :
  @validateFile exampleHost pngFile (lit "scan.png")
    (mkEnv None None None None (Some (lit "image/jpeg,.pdf")))
  = throwOcr 400 "UNSUPPORTED_FORMAT" MsgUnsupportedFormat.
Proof.
  refine (proj1 (proj2 (proj2
            (proj2 (proj2 (proj2
               (@format_allow_list_within_size_limit exampleHost pngFile
                  (lit "scan.png")
                  (mkEnv None None None None (Some (lit "image/jpeg,.pdf"))))))
               _))) _ _ _).
  - discriminate.
  - reflexivity.
  - reflexivity.
  - discriminate.
Defined.

(** C6, as stated, fails: a request to the text-localization endpoint
    without a [text] field is answered by an earlier check when its input
    does not parse. A multipart request without an image gets
    INVALID_FILE, and a JSON request whose [image] is not base64 gets
    INTERNAL_ERROR with status 500. *)
Lemma text_localization_unparsed_counterexample :
  let noImage :=
    {| header_content_type := Some (lit "multipart/form-data; boundary=x");
       req_parseBody := Some [];
       req_json := None |} in
  let badImage := jsonRequest (Some (JObj [(lit "image", JStr (lit "!!!"))])) in
  blank (multipartText noImage)
  /\ @OcrLocateRoute exampleHost exampleWorld exampleEnv noImage
     = mkResponse 400 (ErrorBody "INVALID_FILE" MsgInvalidFile None)
  /\ blank (jsonText badImage)
  /\ @OcrLocateRoute exampleHost exampleWorld exampleEnv badImage
     = mkResponse 500 (ErrorBody "INTERNAL_ERROR" MsgInternal None).
Proof. cbv zeta. repeat split; try exact I; vm_compute; reflexivity. Qed.

(** C6, amended — A request whose input parses to the text-localization
    task, the task forced by the endpoint or declared in the body, and
    whose [text] field is absent, empty or white space only, is answered
    with MISSING_TARGET_TEXT and status 400, on the multipart path and on
    the JSON path, whatever the file, the configuration and the upstream
    service. *)
Theorem text_localization_requires_text `{JsHost} (w : World) (env : Env)
    (c : Request) (options : ProcessOptions) (p : ParsedInput) :
  parseInput c (forcedTaskType options) = Ok p ->
  taskType p = text_localization ->
  (declaresMultipart c /\ blank (multipartText c))
  \/ (declaresJson c /\ blank (jsonText c)) ->
  handleOcrRequest w env c options
  = mkResponse 400 (ErrorBody "MISSING_TARGET_TEXT" MsgMissingTargetText None).
Proof.
  intros Hp Ht Hblank.
  assert (Htarget : targetText p = None).
  { destruct Hblank as [[Hm Hb]|[Hj Hb]].
    - rewrite parseInput_multipart in Hp by assumption.
      rewrite (parseMultipart_targetText _ _ _ Hp).
      now apply normalizeString_blank.
    - rewrite parseInput_json in Hp by assumption.
      rewrite (parseJson_targetText _ _ _ Hp).
      now apply normalizeString_blank. }
  apply handleOcrRequest_Throw; [reflexivity|]. unfold processOcrRequest.
  rewrite Hp. cbn [bind]. rewrite Ht, Htarget.
  now rewrite buildPrompt_missing_target.
Qed.

(** A multipart request to the generic endpoint that declares the
    text-localization task with a [text] of two spaces. *)
Lemma text_localization_requires_text_witness :
  @handleOcrRequest exampleHost exampleWorld exampleEnv
    (multipartRequest "  " "text_localization") (mkProcessOptions None)
  = mkResponse 400 (ErrorBody "MISSING_TARGET_TEXT" MsgMissingTargetText None).
Proof.
  eapply (@text_localization_requires_text exampleHost exampleWorld exampleEnv
            (multipartRequest "  " "text_localization") (mkProcessOptions None)).
  - vm_compute. reflexivity.
  - reflexivity.
  - left. split; [|reflexivity].
    eexists. split; reflexivity.
Defined.

(** * Further properties *)

(** ** Trimming *)

Lemma drop_ws_length (s : jsstring) : (length (drop_ws s) <= length s)%nat.
Proof.
  induction s as [|c s IH]; cbn; [lia|].
  destruct (is_ws c); cbn; lia.
Qed.

Lemma drop_ws_fixed (s : jsstring) :
  drop_ws s = s <-> forall c r, s = c :: r -> is_ws c = false.
Proof.
  split.
  - intros Hs c r ->. now apply (drop_ws_head (c :: r) r c).
  - intros Hh. destruct s as [|c r]; [reflexivity|].
    cbn. now rewrite (Hh c r eq_refl).
Qed.

Lemma drop_ws_idem (s : jsstring) : drop_ws (drop_ws s) = drop_ws s.
Proof.
  apply drop_ws_fixed. intros c r Hd. now apply (drop_ws_head s r c).
Qed.

Lemma drop_ws_split (s : jsstring) :
  exists w, s = w ++ drop_ws s /\ forallb is_ws w = true.
Proof.
  induction s as [|c s (w & Hs & Hw)]; [now exists []|].
  cbn. destruct (is_ws c) eqn:Hc.
  - exists (c :: w). cbn. rewrite Hc, Hw. split; [now f_equal | reflexivity].
  - now exists [].
Qed.

(** Dropping the trailing white space of a text that has no leading white
    space leaves it without leading white space. *)
Lemma drop_ws_rev_fixed (u : jsstring) :
  drop_ws u = u -> drop_ws (rev (drop_ws (rev u))) = rev (drop_ws (rev u)).
Proof.
  intros Hu. destruct (drop_ws_split (rev u)) as (w & Hr & _).
  apply drop_ws_fixed. intros c r Hc.
  apply (f_equal (@rev N)) in Hr. rewrite rev_involutive, rev_app_distr in Hr.
  rewrite Hc in Hr. cbn in Hr.
  apply (proj1 (drop_ws_fixed u) Hu c (r ++ rev w)). exact Hr.
Qed.

Lemma trim_idem (s : jsstring) : trim (trim s) = trim s.
Proof.
  unfold trim.
  rewrite (drop_ws_rev_fixed (drop_ws s)) by apply drop_ws_idem.
  now rewrite rev_involutive, drop_ws_idem.
Qed.

Lemma trim_first (s r : jsstring) (c : N) : trim s = c :: r -> is_ws c = false.
Proof.
  intros Ht.
  assert (Hf : drop_ws (trim s) = trim s)
    by (unfold trim; apply drop_ws_rev_fixed, drop_ws_idem).
  exact (proj1 (drop_ws_fixed _) Hf c r Ht).
Qed.

Lemma trim_last (s r : jsstring) (c : N) : trim s = r ++ [c] -> is_ws c = false.
Proof.
  unfold trim. intros Ht.
  apply (f_equal (@rev N)) in Ht. rewrite rev_involutive, rev_app_distr in Ht.
  cbn in Ht. now apply (drop_ws_head _ _ _ Ht).
Qed.

(** X6 — normalizeString returns nothing for a value that is absent or
    white space only, and otherwise the trimmed text: it is not empty, it
    neither starts nor ends with white space, and normalizing it again
    changes nothing. *)
Theorem normalizeString_normal (value : option jsstring) :
  (normalizeString value = None
   <-> value = None \/ exists raw, value = Some raw /\ forallb is_ws raw = true)
  /\ (forall s, normalizeString value = Some s ->
        s <> []
        /\ (forall c r, s = c :: r -> is_ws c = false)
        /\ (forall c r, s = r ++ [c] -> is_ws c = false)
        /\ normalizeString (Some s) = Some s).
Proof.
  split.
  - destruct value as [raw|]; cbn; [|tauto].
    destruct (trim raw) as [|x t] eqn:Ht; cbn.
    + split; [|reflexivity]. intros _. right. exists raw.
      split; [reflexivity | now apply trim_nil].
    + split; [discriminate|]. intros [Hn|(raw' & [= <-] & Hw)]; [discriminate|].
      apply trim_nil in Hw. congruence.
  - intros s Hs. apply normalizeString_Some in Hs as (Hne & raw & _ & ->).
    repeat split.
    + exact Hne.
    + intros c r. apply trim_first.
    + intros c r. apply trim_last.
    + cbn. rewrite trim_idem.
      destruct (trim raw); [contradiction | reflexivity].
Qed.

Lemma normalizeString_normal_witness :
  normalizeString (Some (lit "  total due ")) = Some (lit "total due")
  /\ normalizeString (Some (lit "total due")) = Some (lit "total due").
Proof.
  split; [reflexivity|].
  exact (proj2 (proj2 (proj2
           (proj2 (normalizeString_normal (Some (lit "  total due ")))
              (lit "total due") eq_refl)))).
Defined.

(** ** The request schema *)

Lemma optionalString_spec (k : string) (props : list (jsstring * json))
    (i : list (jsstring * string)) (o : option jsstring) :
  optionalString k props = (i, o) ->
  (i = [] -> memberIs k props o)
  /\ (forall o', memberIs k props o' -> i = [] /\ o = o').
Proof.
  unfold optionalString, memberIs.
  destruct (assoc (lit k) props) as [[| b | n | s | items | ps]|];
    intros [= <- <-]; (split; [intros Hi | intros o' Ho']);
    try discriminate; try contradiction; try reflexivity;
    now subst.
Qed.

Lemma optionalTaskType_spec (props : list (jsstring * json))
    (i : list (jsstring * string)) (o : option jsstring) :
  optionalTaskType props = (i, o) ->
  (i = [] -> memberIs "taskType" props o
             /\ forall s, o = Some s -> exists t, s = taskTypeName t)
  /\ (forall o', memberIs "taskType" props o' ->
        (forall s, o' = Some s -> exists t, s = taskTypeName t) ->
        i = [] /\ o = o').
Proof.
  unfold optionalTaskType, memberIs.
  destruct (assoc (lit "taskType") props) as [[| b | n | s | items | ps]|].
  - intros [= <- <-]. split; [discriminate | intros o' Ho'; contradiction].
  - intros [= <- <-]. split; [discriminate | intros o' Ho'; contradiction].
  - intros [= <- <-]. split; [discriminate | intros o' Ho'; contradiction].
  - destruct (TaskTypeSchema_safeParse s) as [t|] eqn:Hs; intros [= <- <-].
    + split.
      * intros _. split; [reflexivity|]. intros s' [= <-]. exists t.
        now apply TaskTypeSchema_safeParse_Some.
      * intros o' -> _. now split.
    + split; [discriminate|]. intros o' -> Hm.
      destruct (Hm s eq_refl) as (t & ->).
      rewrite TaskTypeSchema_safeParse_name in Hs. discriminate.
  - intros [= <- <-]. split; [discriminate | intros o' Ho'; contradiction].
  - intros [= <- <-]. split; [discriminate | intros o' Ho'; contradiction].
  - intros [= <- <-]. split.
    + intros _. split; [reflexivity | discriminate].
    + intros o' -> _. now split.
Qed.

Lemma requiredImage_spec (props : list (jsstring * json))
    (i : list (jsstring * string)) (img : jsstring) :
  requiredImage props = (i, img) ->
  (i = [] -> exists s, assoc (lit "image") props = Some (JStr s)
                       /\ s <> [] /\ img = s)
  /\ (forall s, assoc (lit "image") props = Some (JStr s) -> s <> [] ->
                i = [] /\ img = s).
Proof.
  unfold requiredImage.
  destruct (assoc (lit "image") props) as [[| b | n | [|x s] | items | ps]|];
    cbn [length Nat.leb]; intros [= <- <-];
    (split; [intros Hi | intros s' Hs' Hne]); try discriminate.
  - injection Hs' as <-. contradiction.
  - exists (x :: s). repeat split. discriminate.
  - injection Hs' as <-. now split.
Qed.

Lemma JsonRequestSchema_safeParse_sound (raw : json) (payload : JsonRequest) :
  JsonRequestSchema_safeParse raw = inr payload ->
  exists props, raw = JObj props /\ schemaAccepts props payload.
Proof.
  unfold JsonRequestSchema_safeParse, schemaAccepts.
  destruct raw as [| b | n | s | items | props]; try discriminate.
  destruct (optionalTaskType props) as [i1 t] eqn:H1.
  destruct (requiredImage props) as [i2 img] eqn:H2.
  destruct (optionalString "filename" props) as [i3 fn] eqn:H3.
  destruct (optionalString "prompt" props) as [i4 pr] eqn:H4.
  destruct (optionalString "text" props) as [i5 tx] eqn:H5.
  apply optionalTaskType_spec in H1 as [H1a _].
  apply requiredImage_spec in H2 as [H2a _].
  apply optionalString_spec in H3 as [H3a _].
  apply optionalString_spec in H4 as [H4a _].
  apply optionalString_spec in H5 as [H5a _].
  destruct (i1 ++ i2 ++ i3 ++ i4 ++ i5) eqn:Hi; [|discriminate].
  apply app_eq_nil in Hi as [-> Hi]. apply app_eq_nil in Hi as [-> Hi].
  apply app_eq_nil in Hi as [-> Hi]. apply app_eq_nil in Hi as [-> ->].
  intros [= <-]. exists props. split; [reflexivity|].
  cbn [j_image j_filename j_prompt j_text j_taskType].
  destruct (H1a eq_refl) as [Ht Hm].
  destruct (H2a eq_refl) as (s & Hs & Hne & ->). rewrite Hs.
  repeat split; auto.
Qed.

Lemma JsonRequestSchema_safeParse_complete (props : list (jsstring * json))
    (payload : JsonRequest) :
  schemaAccepts props payload ->
  JsonRequestSchema_safeParse (JObj props) = inr payload.
Proof.
  unfold JsonRequestSchema_safeParse, schemaAccepts.
  destruct (optionalTaskType props) as [i1 t] eqn:H1.
  destruct (requiredImage props) as [i2 img] eqn:H2.
  destruct (optionalString "filename" props) as [i3 fn] eqn:H3.
  destruct (optionalString "prompt" props) as [i4 pr] eqn:H4.
  destruct (optionalString "text" props) as [i5 tx] eqn:H5.
  apply optionalTaskType_spec in H1 as [_ H1b].
  apply requiredImage_spec in H2 as [_ H2b].
  apply optionalString_spec in H3 as [_ H3b].
  apply optionalString_spec in H4 as [_ H4b].
  apply optionalString_spec in H5 as [_ H5b].
  intros (Himg & Hfn & Hpr & Htx & Ht & Hm).
  destruct payload as [jt ji jf jp jx].
  cbn [j_image j_filename j_prompt j_text j_taskType] in Himg, Hfn, Hpr, Htx, Ht, Hm.
  destruct (H1b jt Ht Hm) as [-> ->].
  destruct (H3b jf Hfn) as [-> ->].
  destruct (H4b jp Hpr) as [-> ->].
  destruct (H5b jx Htx) as [-> ->].
  destruct (assoc (lit "image") props) as [[| b | n | s | items | ps]|];
    try contradiction.
  destruct Himg as [Hne ->].
  destruct (H2b s eq_refl Hne) as [-> ->]. reflexivity.
Qed.

(** X22 — The request schema accepts exactly the JSON objects with a
    non-empty [image] string, with [filename], [prompt] and [text] absent
    or strings and [taskType] absent or the name of a task type; the
    parsed request holds these members as they are, and members of any
    other name play no part. *)
Theorem JsonRequestSchema_accepts (raw : json) (payload : JsonRequest) :
  JsonRequestSchema_safeParse raw = inr payload
  <-> exists props, raw = JObj props /\ schemaAccepts props payload.
Proof.
  split.
  - apply JsonRequestSchema_safeParse_sound.
  - intros (props & -> & Hacc). now apply JsonRequestSchema_safeParse_complete.
Qed.

Lemma schemaAccepts_text (c : Request) (props : list (jsstring * json))
    (payload : JsonRequest) :
  req_json c = Some (JObj props) -> schemaAccepts props payload ->
  j_text payload = jsonText c /\ j_taskType payload = jsonTaskType c.
Proof.
  intros Hb (_ & _ & _ & Htx & Ht & _).
  unfold jsonText, jsonTaskType, memberIs in *. rewrite Hb.
  destruct (assoc (lit "text") props) as [[| b | n | s | items | ps]|];
    try contradiction;
    destruct (assoc (lit "taskType") props) as [[| b' | n' | s' | items' | ps']|];
    try contradiction; now split.
Qed.

Lemma schemaAccepts_filename (c : Request) (props : list (jsstring * json))
    (payload : JsonRequest) :
  req_json c = Some (JObj props) -> schemaAccepts props payload ->
  j_filename payload = jsonFilename c /\ jsonImage c = Some (j_image payload).
Proof.
  intros Hb (Himg & Hfn & _).
  unfold jsonFilename, jsonImage, memberIs in *. rewrite Hb.
  destruct (assoc (lit "image") props) as [[| b | n | s | items | ps]|];
    try contradiction.
  destruct Himg as [_ ->].
  destruct (assoc (lit "filename") props) as [[| b' | n' | s' | items' | ps']|];
    try contradiction; now split.
Qed.

(** ** Task resolution on the generic endpoint *)

Lemma resolveTaskType_None_Ok (candidate : option jsstring) (t : TaskType) :
  resolveTaskType None candidate = Ok t -> candidate = Some (taskTypeName t).
Proof.
  unfold resolveTaskType.
  destruct candidate as [[|x s]|]; cbn [truthy_ostr truthy_str negb];
    try discriminate.
  destruct (TaskTypeSchema_safeParse (x :: s)) as [t'|] eqn:Hs; [|discriminate].
  intros [= <-]. f_equal. now apply TaskTypeSchema_safeParse_Some.
Qed.

(** X2 — Without a forced task type, resolveTaskType returns a task type
    exactly when the candidate is that task type's name, fails with
    MISSING_TASK_TYPE exactly when the candidate is absent or empty, and
    fails with INVALID_TASK_TYPE for every other candidate. *)
Theorem resolveTaskType_unforced (candidate : option jsstring) :
  (forall t, resolveTaskType None candidate = Ok t
             <-> candidate = Some (taskTypeName t))
  /\ (resolveTaskType None candidate
      = throwOcr 400 "MISSING_TASK_TYPE" MsgMissingTaskType
      <-> candidate = None \/ candidate = Some [])
  /\ (resolveTaskType None candidate
      = throwOcr 400 "INVALID_TASK_TYPE" MsgInvalidTaskType
      <-> exists s, candidate = Some s /\ s <> []
                    /\ forall t, s <> taskTypeName t).
Proof.
  unfold resolveTaskType, throwOcr.
  destruct candidate as [[|x s]|]; cbn [truthy_ostr truthy_str negb].
  - split; [|split].
    + intros t. split; [discriminate|]. intros [= Ht]. destruct t; discriminate.
    + split; auto.
    + split; [discriminate|]. intros (s & [= <-] & Hne & _). contradiction.
  - destruct (TaskTypeSchema_safeParse (x :: s)) as [t|] eqn:Hs.
    + apply TaskTypeSchema_safeParse_Some in Hs. split; [|split].
      * intros t'. split.
        -- intros [= <-]. now f_equal.
        -- intros [= Ht]. f_equal.
           rewrite Hs in Ht.
           pose proof (TaskTypeSchema_safeParse_name t) as H1.
           rewrite Ht, TaskTypeSchema_safeParse_name in H1. congruence.
      * split; [discriminate|]. intros [|]; discriminate.
      * split; [discriminate|]. intros (s' & [= <-] & _ & Hn).
        now destruct (Hn t).
    + split; [|split].
      * intros t. split; [discriminate|]. intros [= Ht].
        rewrite Ht, TaskTypeSchema_safeParse_name in Hs. discriminate.
      * split; [discriminate|]. intros [|]; discriminate.
      * split; [|reflexivity]. intros _. exists (x :: s).
        repeat split; [discriminate|]. intros t Ht.
        rewrite Ht, TaskTypeSchema_safeParse_name in Hs. discriminate.
  - split; [|split].
    + intros t. split; discriminate.
    + split; auto.
    + split; [discriminate|]. intros (s & Hs & _). discriminate.
Qed.

Lemma resolveTaskType_Ok_forced (forced : option TaskType)
    (candidate : option jsstring) (t : TaskType) :
  resolveTaskType forced candidate = Ok t ->
  resolveTaskType (Some t) candidate = Ok t.
Proof. intros _. apply resolveTaskType_forced. Qed.

Lemma parseInput_Ok_forced `{JsHost} (c : Request) (forced : option TaskType)
    (p : ParsedInput) :
  parseInput c forced = Ok p -> parseInput c (Some (taskType p)) = Ok p.
Proof.
  unfold parseInput.
  destruct (includes (lit "multipart/form-data") _).
  - unfold parseMultipart.
    destruct (req_parseBody c) as [body|]; [|discriminate]. cbn [ofHost bind].
    destruct (first (assoc (lit "image") body)) as [[s|f]|]; try discriminate.
    intros Hp. apply bind_Ok in Hp as (t & _ & Hp). injection Hp as <-.
    cbn [taskType]. now rewrite resolveTaskType_forced.
  - destruct (includes (lit "application/json") _); [|discriminate].
    unfold parseJson.
    destruct (req_json c) as [raw|]; [|discriminate]. cbn [ofHost bind].
    destruct (JsonRequestSchema_safeParse raw) as [issues|payload];
      [discriminate|].
    destruct (negb (truthy_str (j_image payload))); [discriminate|].
    destruct (base64ToUint8Array (j_image payload)) as [bytes| |];
      try discriminate. cbn [bind].
    intros Hp. apply bind_Ok in Hp as (t & _ & Hp). injection Hp as <-.
    cbn [taskType]. now rewrite resolveTaskType_forced.
Qed.

(** X3 — A request whose input parses on the generic endpoint gets the
    same response from the alias endpoint of the task type it resolved
    to. *)
Theorem alias_agrees_with_generic `{JsHost} (w : World) (env : Env)
    (c : Request) (p : ParsedInput) :
  parseInput c None = Ok p ->
  createAliasRoute (taskType p) w env c = OcrTaskRoute w env c.
Proof.
  intros Hp. unfold createAliasRoute, OcrTaskRoute, handleOcrRequest,
    processOcrRequest. cbn [forcedTaskType].
  now rewrite (parseInput_Ok_forced c None p Hp), Hp.
Qed.

Lemma alias_agrees_with_generic_witness :
  @createAliasRoute exampleHost general_ocr exampleWorld exampleEnv
    (multipartRequest "total" " general_ocr ")
  = @OcrTaskRoute exampleHost exampleWorld exampleEnv
      (multipartRequest "total" " general_ocr ").
Proof.
  exact (@alias_agrees_with_generic exampleHost exampleWorld exampleEnv
           (multipartRequest "total" " general_ocr ")
           (mkParsedInput pngFile (lit "scan.png") general_ocr None
              (Some (lit "total")))
           eq_refl).
Defined.

Lemma parseInput_Ok_path `{JsHost} (c : Request) (forced : option TaskType)
    (p : ParsedInput) :
  parseInput c forced = Ok p ->
  (declaresMultipart c /\ parseMultipart c forced = Ok p)
  \/ (declaresJson c /\ parseJson c forced = Ok p).
Proof.
  unfold parseInput, declaresMultipart, declaresJson.
  destruct (header_content_type c) as [h|].
  - destruct (includes (lit "multipart/form-data") h) eqn:Hm.
    + intros Hp. left. split; [|exact Hp]. now exists h.
    + destruct (includes (lit "application/json") h) eqn:Hj; [|discriminate].
      intros Hp. right. split; [|exact Hp]. now exists h.
  - discriminate.
Qed.

(** X4 — A successful response of the generic endpoint carries the task
    type the request declared: on the multipart path the [taskType] field
    trims to that task type's name, on the JSON path the [taskType] member
    is that name. *)
Theorem generic_endpoint_declared_task `{JsHost} (w : World) (env : Env)
    (c : Request) (st : Z) (data : OcrData) :
  OcrTaskRoute w env c = mkResponse st (SuccessBody data) ->
  (declaresMultipart c
   /\ exists raw, multipartTaskType c = Some raw
                  /\ trim raw = taskTypeName (data_taskType data))
  \/ (declaresJson c
      /\ jsonTaskType c = Some (taskTypeName (data_taskType data))).
Proof.
  unfold OcrTaskRoute. intros Hr.
  apply handleOcrRequest_success in Hr as [Hd _].
  apply processOcrRequest_taskType in Hd as (p & Hp & ->).
  cbn [forcedTaskType] in Hp.
  apply parseInput_Ok_path in Hp as [[Hm Hp]|[Hj Hp]]; [left | right];
    (split; [assumption|]).
  - unfold parseMultipart in Hp. unfold multipartTaskType.
    destruct (req_parseBody c) as [body|]; [|discriminate].
    cbn [ofHost bind] in Hp.
    destruct (first (assoc (lit "image") body)) as [[s|f]|]; try discriminate.
    apply bind_Ok in Hp as (t & Ht & Hp). injection Hp as <-. cbn [taskType].
    apply resolveTaskType_None_Ok in Ht.
    apply normalizeString_Some in Ht as (_ & raw & Hraw & Htrim).
    exists raw. split; [exact Hraw | now symmetry].
  - unfold parseJson in Hp.
    destruct (req_json c) as [raw|] eqn:Hb; [|discriminate].
    cbn [ofHost bind] in Hp.
    destruct (JsonRequestSchema_safeParse raw) as [issues|payload] eqn:Hs;
      [discriminate|].
    destruct (negb (truthy_str (j_image payload))); [discriminate|].
    apply bind_Ok in Hp as (bytes & _ & Hp).
    apply bind_Ok in Hp as (t & Ht & Hp). injection Hp as <-. cbn [taskType].
    apply resolveTaskType_None_Ok in Ht.
    apply JsonRequestSchema_safeParse_sound in Hs as (props & -> & Hacc).
    destruct (schemaAccepts_text c props payload Hb Hacc) as [_ <-].
    exact Ht.
Qed.

Lemma generic_endpoint_declared_task_witness :
  exists raw, multipartTaskType (multipartRequest "total" " general_ocr ") = Some raw
              /\ trim raw = taskTypeName general_ocr.
Proof.
  destruct (@generic_endpoint_declared_task exampleHost exampleWorld exampleEnv
              (multipartRequest "total" " general_ocr ") 200
              (mkOcrData (lit "Hello") None 12
                 (JStr (lit "deepseek-ai/DeepSeek-OCR")) general_ocr
                 (lit "<image>" ++ newline ++ lit "<|grounding|>OCR this image.")
                 (lit "scan.png")))
    as [[_ Hm]|[(h & Hh & Hn & _) _]].
  - vm_compute. reflexivity.
  - exact Hm.
  - exfalso. injection Hh as <-. discriminate Hn.
Defined.

(** ** The parsed input *)

Lemma or_str_nonempty (a b : jsstring) : b <> [] -> or_str a b <> [].
Proof. unfold or_str. destruct a; cbn; [auto | discriminate]. Qed.

Lemma or_default_nonempty (value : option jsstring) (fallback : jsstring) :
  fallback <> [] -> or_default value fallback <> [].
Proof.
  unfold or_default. destruct value; [apply or_str_nonempty | auto].
Qed.

Lemma normalizeString_trimmed (value : option jsstring) (s : jsstring) :
  normalizeString value = Some s -> s <> [] /\ trim s = s.
Proof.
  intros Hs. apply normalizeString_Some in Hs as (Hne & raw & _ & ->).
  split; [exact Hne | apply trim_idem].
Qed.

Lemma inferMimeType_nonempty `{JsHost} (filename : option jsstring)
    (m : jsstring) :
  inferMimeType filename = Some m -> In m DEFAULT_SUPPORTED_FORMATS.
Proof.
  unfold inferMimeType.
  destruct (if truthy_ostr filename then _ else None) as [e|]; [|discriminate].
  repeat match goal with
         | |- context [if ?b then _ else _] => destruct b
         end; intros [= <-]; cbn; tauto.
Qed.

(** X5 — Every parsed input has a non-empty file name, and a custom
    prompt and a target text that, when present, are non-empty and
    trimmed. On the multipart path the file is the uploaded one and the
    file name is its name, or "upload" when that is empty. On the JSON
    path the file name is the body's [filename] when that is a non-empty
    string and "upload" otherwise; the file built carries that name, the
    bytes the [image] decodes to, and the type inferred from the name, or
    application/octet-stream when none is inferred. *)
Theorem parsed_input_invariants `{JsHost} (c : Request)
    (forced : option TaskType) (p : ParsedInput) :
  parseInput c forced = Ok p ->
  filename p <> []
  /\ (forall s, customPrompt p = Some s -> s <> [] /\ trim s = s)
  /\ (forall s, targetText p = Some s -> s <> [] /\ trim s = s)
  /\ (declaresMultipart c ->
      multipartFile c = Some (file p)
      /\ (name (file p) <> [] -> filename p = name (file p))
      /\ (name (file p) = [] -> filename p = lit "upload"))
  /\ (declaresJson c ->
      (forall s, jsonFilename c = Some s -> s <> [] -> filename p = s)
      /\ (jsonFilename c = None \/ jsonFilename c = Some [] ->
          filename p = lit "upload")
      /\ name (file p) = filename p
      /\ type (file p) = match inferMimeType (Some (filename p)) with
                         | Some m => m
                         | None => lit "application/octet-stream"
                         end
      /\ type (file p) <> []
      /\ exists image, jsonImage c = Some image
                       /\ base64ToUint8Array image = Ok (content (file p))).
Proof.
  intros Hp. apply parseInput_Ok_path in Hp as [[Hm Hp]|[Hj Hp]].
  - unfold parseMultipart in Hp.
    destruct (req_parseBody c) as [body|] eqn:Hbody; [|discriminate].
    cbn [ofHost bind] in Hp.
    destruct (first (assoc (lit "image") body)) as [[s|f]|] eqn:Hf;
      try discriminate.
    apply bind_Ok in Hp as (t & _ & Hp). injection Hp as <-.
    cbn [filename customPrompt targetText file].
    split; [|split; [|split; [|split]]].
    + apply or_str_nonempty. discriminate.
    + intros s. apply normalizeString_trimmed.
    + intros s. apply normalizeString_trimmed.
    + intros _. unfold multipartFile. rewrite Hbody, Hf.
      split; [reflexivity|]. unfold or_str.
      destruct (name f); cbn [truthy_str]; split; intros Hn; congruence.
    + intros (h & Hh & Hn & _). destruct Hm as (h' & Hh' & Hm).
      congruence.
  - unfold parseJson in Hp.
    destruct (req_json c) as [raw|] eqn:Hraw; [|discriminate].
    cbn [ofHost bind] in Hp.
    destruct (JsonRequestSchema_safeParse raw) as [issues|payload] eqn:Hs;
      [discriminate|].
    destruct (negb (truthy_str (j_image payload))); [discriminate|].
    apply bind_Ok in Hp as (bytes & Hbytes & Hp).
    apply bind_Ok in Hp as (t & _ & Hp). injection Hp as <-.
    cbn [filename customPrompt targetText file name type content].
    apply JsonRequestSchema_safeParse_sound in Hs as (props & -> & Hacc).
    destruct (schemaAccepts_filename c props payload Hraw Hacc) as [Hfn Himg].
    split; [|split; [|split; [|split]]].
    + apply or_default_nonempty. discriminate.
    + intros s. apply normalizeString_trimmed.
    + intros s. apply normalizeString_trimmed.
    + intros (h & Hh & Hm). destruct Hj as (h' & Hh' & Hn & _). congruence.
    + intros _. rewrite <- Hfn. unfold or_default, or_str.
      split; [|split; [|split; [|split; [|split]]]].
      * intros s -> Hne. now destruct s.
      * intros [-> | ->]; reflexivity.
      * reflexivity.
      * reflexivity.
      * destruct (inferMimeType _) as [m|] eqn:Hi; [|discriminate].
        apply inferMimeType_nonempty in Hi. cbn in Hi.
        intros ->. repeat destruct Hi as [Hi|Hi]; try discriminate. exact Hi.
      * exists (j_image payload). now split.
Qed.

Lemma parsed_input_invariants_witness :
  let c := jsonRequest (Some (JObj [(lit "image", JStr (lit "TWFu"));
                                    (lit "taskType", JStr (lit "general_ocr"))])) in
  let p := mkParsedInput
             (mkFile (lit "upload") (lit "application/octet-stream")
                [x4d; x61; x6e])
             (lit "upload") general_ocr None None in
  @parseInput exampleHost c None = Ok p /\ filename p = lit "upload".
Proof.
  cbv zeta.
  assert (Hp : @parseInput exampleHost
                 (jsonRequest (Some (JObj [(lit "image", JStr (lit "TWFu"));
                                           (lit "taskType", JStr (lit "general_ocr"))])))
                 None
               = Ok (mkParsedInput
                       (mkFile (lit "upload") (lit "application/octet-stream")
                          [x4d; x61; x6e])
                       (lit "upload") general_ocr None None))
    by (vm_compute; reflexivity).
  split; [exact Hp|].
  destruct (@parsed_input_invariants exampleHost _ _ _ Hp)
    as (_ & _ & _ & _ & Hjson).
  destruct Hjson as (_ & Hdefault & _).
  - exists (lit "application/json"). vm_compute. auto.
  - apply Hdefault. now left.
Defined.

(** ** More on base64 *)

Lemma b64index_b64char_total (i : N) : b64index (b64char i) <> None.
Proof.
  destruct (N.ltb_spec i 64) as [Hi|Hi].
  - now rewrite b64index_b64char.
  - unfold b64char.
    replace (i <? 26) with false by (symmetry; apply N.ltb_ge; lia).
    replace (i <? 52) with false by (symmetry; apply N.ltb_ge; lia).
    replace (i <? 62) with false by (symmetry; apply N.ltb_ge; lia).
    replace (i =? 62) with false by (symmetry; apply N.eqb_neq; lia).
    discriminate.
Qed.

Lemma btoa_units_alphabet (s : jsstring) :
  Forall (fun c => b64index c <> None \/ c = 61) (btoa_units s).
Proof.
  induction s as [| a | a b | a b c r IH] using list_ind3;
    cbn [btoa_units];
    repeat (apply Forall_cons;
            [first [left; apply b64index_b64char_total | right; reflexivity] |]);
    first [exact IH | apply Forall_nil].
Qed.

Lemma btoa_units_size (s : jsstring) :
  length (btoa_units s) = (4 * ((length s + 2) / 3))%nat.
Proof.
  induction s as [| a | a b | a b c r IH] using list_ind3;
    try reflexivity.
  cbn [btoa_units length]. rewrite IH.
  replace (S (S (S (length r))) + 2)%nat with (1 * 3 + (length r + 2))%nat by lia.
  rewrite Nat.div_add_l by lia. lia.
Qed.

(** X11 — fileToBase64 never fails; the text it returns has four code
    units for every three bytes, the last group filled up, and consists of
    code units of the base64 alphabet and the padding "=". *)
Theorem fileToBase64_shape (content : list byte) :
  exists base64,
    fileToBase64 content = Ok base64
    /\ length base64 = (4 * ((length content + 2) / 3))%nat
    /\ Forall (fun c => b64index c <> None \/ c = 61) base64.
Proof.
  exists (btoa_units (fromCharCode content)). split; [apply fileToBase64_eq|].
  split; [|apply btoa_units_alphabet].
  rewrite btoa_units_size. unfold fromCharCode. now rewrite length_map.
Qed.

Lemma includes_unit (c : N) (s : jsstring) :
  includes [c] s = true <-> In c s.
Proof.
  induction s as [|x s IH]; cbn [includes startsWith In].
  - split; [discriminate | contradiction].
  - rewrite orb_true_iff, IH, andb_true_r, N.eqb_eq. intuition congruence.
Qed.

Lemma includes_unit_false (c : N) (s : jsstring) :
  includes [c] s = false <-> ~ In c s.
Proof.
  rewrite <- includes_unit. destruct (includes [c] s); split; congruence.
Qed.

Lemma dataPart_without_comma (s : jsstring) : ~ In 44 s -> dataPart s = s.
Proof.
  intros Hn. unfold dataPart. change (lit ",") with [44].
  now rewrite (proj2 (includes_unit_false 44 s) Hn).
Qed.

Lemma dataPart_after_comma (a b : jsstring) :
  ~ In 44 b -> dataPart (a ++ 44 :: b) = b.
Proof.
  intros Hn. unfold dataPart. change (lit ",") with [44].
  rewrite (proj2 (includes_unit 44 (a ++ 44 :: b)))
    by (apply in_or_app; right; now left).
  now rewrite split_app, (split_without_sep 44 b Hn), pop_snoc.
Qed.

Lemma last_comma (s : jsstring) :
  In 44 s -> exists a b, s = a ++ 44 :: b /\ ~ In 44 b.
Proof.
  induction s as [|x s IH]; [contradiction|].
  intros Hin. destruct (in_dec N.eq_dec 44 s) as [Hs|Hs].
  - destruct (IH Hs) as (a & b & -> & Hb). now exists (x :: a), b.
  - destruct Hin as [->|Hin]; [|contradiction]. now exists [], s.
Qed.

Lemma base64ToUint8Array_dataPart (s : jsstring) :
  base64ToUint8Array s
  = bind (ofHost (atob (remove_ws (dataPart s)))) (fun binary => Ok (map toUint8 binary)).
Proof. reflexivity. Qed.

Lemma btoa_units_clean (s : jsstring) :
  ~ In 44 (btoa_units s) /\ remove_ws (btoa_units s) = btoa_units s.
Proof.
  pose proof (btoa_units_chars s) as Hc. rewrite Forall_forall in Hc. split.
  - intros Hin. now destruct (Hc 44 Hin) as [_ Hn].
  - apply filter_all, Forall_forall. intros c Hin.
    destruct (Hc c Hin) as [Hr _]. now rewrite is_ws_printable by lia.
Qed.

Lemma base64ToUint8Array_after_comma (prefix : jsstring)
    (content : list byte) :
  base64ToUint8Array (prefix ++ 44 :: btoa_units (fromCharCode content))
  = Ok content.
Proof.
  destruct (btoa_units_clean (fromCharCode content)) as [Hn Hc].
  rewrite base64ToUint8Array_dataPart.
  rewrite dataPart_after_comma, Hc by assumption.
  pose proof (base64ToUint8Array_fileToBase64 content) as Hd.
  rewrite fileToBase64_eq in Hd. cbn [bind] in Hd.
  rewrite base64ToUint8Array_dataPart, dataPart_without_comma, Hc in Hd
    by assumption.
  exact Hd.
Qed.

(** X12 — base64ToUint8Array reads a data URI: whatever is put before a
    comma in front of the text fileToBase64 returned, a comma included,
    decoding gives the bytes that were encoded. *)
Theorem base64ToUint8Array_data_uri_roundtrip (prefix : jsstring)
    (content : list byte) :
  bind (fileToBase64 content)
    (fun base64 => base64ToUint8Array (prefix ++ lit "," ++ base64))
  = Ok content.
Proof.
  rewrite fileToBase64_eq. cbn [bind]. apply base64ToUint8Array_after_comma.
Qed.

Lemma remove_ws_keeps_comma (s : jsstring) : In 44 (remove_ws s) <-> In 44 s.
Proof.
  unfold remove_ws. rewrite filter_In. split; [tauto|].
  intros Hin. split; [exact Hin | reflexivity].
Qed.

Lemma remove_ws_dataPart (s : jsstring) :
  remove_ws (dataPart s) = dataPart (remove_ws s).
Proof.
  destruct (in_dec N.eq_dec 44 s) as [Hin|Hn].
  - destruct (last_comma s Hin) as (a & b & -> & Hb).
    rewrite dataPart_after_comma by assumption.
    unfold remove_ws at 2. rewrite filter_app. cbn [filter].
    change (negb (is_ws 44)) with true. cbv iota.
    rewrite dataPart_after_comma; [reflexivity|].
    intros Hf. apply Hb. now apply remove_ws_keeps_comma.
  - rewrite !dataPart_without_comma; [reflexivity | | assumption].
    intros Hf. apply Hn. now apply remove_ws_keeps_comma.
Qed.

Lemma remove_ws_idem (s : jsstring) : remove_ws (remove_ws s) = remove_ws s.
Proof.
  unfold remove_ws. apply filter_all, Forall_forall.
  intros c Hc. now apply filter_In in Hc.
Qed.

(** X13 — White space in the text plays no part in decoding: two texts
    that are equal once their white space is removed decode alike. *)
Theorem base64ToUint8Array_ignores_white_space (s s' : jsstring) :
  remove_ws s = remove_ws s' ->
  base64ToUint8Array s = base64ToUint8Array s'.
Proof.
  intros Heq. rewrite !base64ToUint8Array_dataPart, !remove_ws_dataPart.
  now rewrite Heq.
Qed.

Lemma base64ToUint8Array_ignores_white_space_witness :
  base64ToUint8Array (lit "TWFu TQ==") = base64ToUint8Array (lit "TW FuTQ= =").
Proof.
  apply base64ToUint8Array_ignores_white_space. reflexivity.
Defined.

Lemma list_ind4 {A} (P : list A -> Prop) :
  P [] -> (forall a, P [a]) -> (forall a b, P [a; b]) ->
  (forall a b c, P [a; b; c]) ->
  (forall a b c d r, P r -> P (a :: b :: c :: d :: r)) ->
  forall l, P l.
Proof.
  intros H0 H1 H2 H3 H4.
  assert (H : forall l, P l /\ (forall a, P (a :: l))
                        /\ (forall a b, P (a :: b :: l))
                        /\ (forall a b c, P (a :: b :: c :: l))).
  { induction l as [|x l (IH0 & IH1 & IH2 & IH3)]; repeat split; auto. }
  apply H.
Qed.

(** A code unit outside the alphabet makes the decoder fail. *)
Lemma decode_units_invalid (d : jsstring) (c : N) :
  In c d -> b64index c = None -> decode_units d = None.
Proof.
  intros Hin Hc. revert Hin.
  induction d as [| x | x y | x y z | x y z u r IH] using list_ind4;
    cbn [In decode_units].
  - contradiction.
  - reflexivity.
  - intros [<-|[<-|[]]]; rewrite Hc; [reflexivity|].
    now destruct (b64index x).
  - intros [<-|[<-|[<-|[]]]]; rewrite Hc; try reflexivity.
    + now destruct (b64index x).
    + now destruct (b64index x), (b64index y).
  - intros [<-|[<-|[<-|[<-|Hin]]]]; try rewrite Hc; try reflexivity.
    + now destruct (b64index x).
    + now destruct (b64index x), (b64index y).
    + now destruct (b64index x), (b64index y), (b64index z).
    + rewrite (IH Hin).
      now destruct (b64index x), (b64index y), (b64index z), (b64index u).
Qed.

Lemma strip_padding_keeps (d : jsstring) (c : N) :
  In c d -> c <> 61 -> In c (strip_padding d).
Proof.
  intros Hin Hc. induction d as [|a d IH]; [contradiction|].
  cbn [strip_padding]. destruct d as [|b [|b' d']].
  - destruct Hin as [<-|[]]. apply N.eqb_neq in Hc. rewrite Hc. now left.
  - destruct Hin as [<-|[<-|[]]].
    + apply N.eqb_neq in Hc.
      destruct (b =? 61); [rewrite Hc|]; now left.
    + apply N.eqb_neq in Hc. rewrite Hc. right. now left.
  - destruct Hin as [<-|Hin]; [now left | right; now apply IH].
Qed.

Lemma is_ascii_ws_is_ws (c : N) : is_ascii_ws c = true -> is_ws c = true.
Proof.
  cbv [is_ascii_ws existsb]. rewrite !orb_true_iff, !N.eqb_eq.
  intros [->|[->|[->|[->|[->|H]]]]]; try reflexivity. discriminate.
Qed.

Lemma atob_invalid (data : jsstring) (c : N) :
  In c data -> b64index c = None -> c <> 61 -> is_ascii_ws c = false ->
  atob data = None.
Proof.
  intros Hin Hc H61 Hws. unfold atob.
  assert (Hf : In c (filter (fun c => negb (is_ascii_ws c)) data))
    by (apply filter_In; split; [exact Hin | now rewrite Hws]).
  apply (decode_units_invalid _ c); [|exact Hc].
  destruct (_ =? 0); [now apply strip_padding_keeps | exact Hf].
Qed.

(** X14 — A JSON request whose body passes the schema but whose [image]
    holds a code unit that is neither of the base64 alphabet, nor "=", nor
    white space (the image without a comma) is answered with
    INTERNAL_ERROR and status 500: the decoder throws, and what it throws
    is not an [OcrError]. *)
Theorem undecodable_image_is_internal_error `{JsHost} (w : World) (env : Env)
    (c : Request) (options : ProcessOptions) (raw : json)
    (payload : JsonRequest) (unit : N) :
  declaresJson c ->
  req_json c = Some raw ->
  JsonRequestSchema_safeParse raw = inr payload ->
  ~ In 44 (j_image payload) ->
  In unit (j_image payload) ->
  b64index unit = None -> unit <> 61 -> is_ws unit = false ->
  handleOcrRequest w env c options
  = mkResponse 500 (ErrorBody "INTERNAL_ERROR" MsgInternal None).
Proof.
  intros Hj Hb Hs Hcomma Hin Hidx H61 Hws.
  apply handleOcrRequest_Crash, processOcrRequest_parse_Crash.
  rewrite parseInput_json by assumption.
  unfold parseJson. rewrite Hb. cbn [ofHost bind]. rewrite Hs.
  rewrite (JsonRequestSchema_safeParse_image _ _ Hs). cbn [negb].
  rewrite base64ToUint8Array_dataPart, dataPart_without_comma by assumption.
  rewrite (atob_invalid _ unit); [reflexivity | | assumption | assumption |].
  - apply filter_In. split; [exact Hin | now rewrite Hws].
  - destruct (is_ascii_ws unit) eqn:Ha; [|reflexivity].
    apply is_ascii_ws_is_ws in Ha. congruence.
Qed.

Lemma undecodable_image_is_internal_error_witness :
  @handleOcrRequest exampleHost exampleWorld exampleEnv
    (jsonRequest (Some (JObj [(lit "image", JStr (lit "TWFu*"))])))
    (mkProcessOptions (Some general_ocr))
  = mkResponse 500 (ErrorBody "INTERNAL_ERROR" MsgInternal None).
Proof.
  apply (@undecodable_image_is_internal_error exampleHost exampleWorld
           exampleEnv _ _ (JObj [(lit "image", JStr (lit "TWFu*"))])
           (mkJsonRequest None (lit "TWFu*") None None None) 42).
  - exists (lit "application/json"). repeat split; reflexivity.
  - reflexivity.
  - reflexivity.
  - cbn. intros H. repeat destruct H as [H|H]; try discriminate. exact H.
  - cbn. tauto.
  - reflexivity.
  - discriminate.
  - reflexivity.
Defined.

(** ** File names and formats, continued *)

Lemma last_occurrence (sep : N) (s : jsstring) :
  In sep s -> exists a b, s = a ++ sep :: b /\ ~ In sep b.
Proof.
  induction s as [|x s IH]; [contradiction|].
  intros Hin. destruct (in_dec N.eq_dec sep s) as [Hs|Hs].
  - destruct (IH Hs) as (a & b & -> & Hb). now exists (x :: a), b.
  - destruct Hin as [->|Hin]; [|contradiction]. now exists [], s.
Qed.

(** X7 — getExtension gives no extension exactly for a name without a
    dot; otherwise it gives what follows the last dot, lower-cased (the
    empty text for a name that ends with a dot). *)
Theorem getExtension_after_last_dot `{JsHost} (filename : jsstring) :
  (getExtension filename = None <-> ~ In 46 filename)
  /\ (forall stem e, filename = stem ++ 46 :: e -> ~ In 46 e ->
        getExtension filename = Some (toLowerCase e)).
Proof.
  split.
  - split.
    + intros Hn Hin. destruct (last_occurrence 46 filename Hin)
        as (stem & e & -> & He).
      rewrite getExtension_last_dot in Hn by assumption. discriminate.
    + apply getExtension_no_dot.
  - intros stem e -> He. now apply getExtension_last_dot.
Qed.

Lemma getExtension_after_last_dot_witness :
  @getExtension exampleHost (lit "archive.tar.GZ") = Some (lit "gz").
Proof.
  refine (proj2 (@getExtension_after_last_dot exampleHost (lit "archive.tar.GZ"))
            (lit "archive.tar") (lit "GZ") eq_refl _).
  cbn. intros H. repeat destruct H as [H|H]; try discriminate. exact H.
Defined.

Lemma formatMatches_default_entry `{JsHost} (m : jsstring)
    (ext : option jsstring) :
  In m DEFAULT_SUPPORTED_FORMATS -> formatMatches (toLowerCase m) ext m = true.
Proof.
  cbn [DEFAULT_SUPPORTED_FORMATS In]. intros Hin.
  repeat (destruct Hin as [<-|Hin]);
    try contradiction;
    unfold formatMatches;
    match goal with
    | |- context [trim ?l] => change (trim l) with l
    end;
    rewrite toLowerCase_ascii by reflexivity; reflexivity.
Qed.

Lemma isAllowedFormat_default `{JsHost} (m filename : jsstring) :
  In m DEFAULT_SUPPORTED_FORMATS ->
  isAllowedFormat DEFAULT_SUPPORTED_FORMATS m filename = true.
Proof.
  intros Hin. apply isAllowedFormat_true. exists m.
  split; [exact Hin | now apply formatMatches_default_entry].
Qed.

(** X8 — With no format list configured, a file within the size limit
    passes validation when its declared type is one of the six default
    types, and also when it declares no type and inferMimeType recognizes
    its extension: every type inferMimeType returns is on the default
    list. *)
Theorem validateFile_default_formats `{JsHost} (file : File)
    (filename : jsstring) (env : Env) :
  SUPPORTED_FORMATS env = None ->
  (inject_Z (Z.of_N (size file)) <= getMaxFileSize (MAX_FILE_SIZE env))%Q ->
  In (type file) DEFAULT_SUPPORTED_FORMATS
  \/ (type file = [] /\ inferMimeType (Some filename) <> None) ->
  validateFile file filename env = Ok tt.
Proof.
  intros Hf Hsize Htype.
  rewrite validateFile_within_limit, Hf by assumption.
  cbn [parseSupportedFormats].
  rewrite isAllowedFormat_default; [reflexivity|].
  unfold resolvedMime, or_ostr. destruct Htype as [Hin|[Ht Hi]].
  - assert (Hne : type file <> [])
      by (intros He; rewrite He in Hin; cbn in Hin;
          repeat destruct Hin as [Hin|Hin]; try discriminate; exact Hin).
    apply truthy_str_true in Hne. now rewrite Hne.
  - rewrite Ht. cbn [truthy_str].
    destruct (inferMimeType (Some filename)) as [m|] eqn:Hm; [|contradiction].
    pose proof (inferMimeType_nonempty _ _ Hm) as Hin.
    assert (Hne : truthy_str m = true).
    { cbn in Hin. repeat destruct Hin as [Hin|Hin]; try (subst m; reflexivity).
      contradiction. }
    cbn [truthy_ostr]. now rewrite Hne.
Qed.

Lemma validateFile_default_formats_witness :
  @validateFile exampleHost (mkFile (lit "scan.PDF") [] [x25; x50; x44; x46])
    (lit "scan.PDF") exampleEnv = Ok tt.
Proof.
  apply (@validateFile_default_formats exampleHost).
  - reflexivity.
  - discriminate.
  - right. split; [reflexivity | discriminate].
Defined.

Lemma or_ostr_nonempty `{JsHost} (declared filename : jsstring) :
  or_ostr declared (inferMimeType (Some filename)) (lit "application/octet-stream")
  <> [].
Proof.
  unfold or_ostr. destruct declared as [|x t]; cbn [truthy_str]; [|discriminate].
  destruct (inferMimeType (Some filename)) as [m|] eqn:Hm;
    cbn [truthy_ostr]; [|discriminate].
  destruct (truthy_str m) eqn:Ht; [now apply truthy_str_true | discriminate].
Qed.

Lemma prepareFile_eq `{JsHost} (file : File) (filename : jsstring) :
  prepareFile file filename
  = Ok (btoa_units (fromCharCode (content file)),
        or_ostr (type file) (inferMimeType (Some filename))
          (lit "application/octet-stream"),
        filename).
Proof. unfold prepareFile. now rewrite fileToBase64_eq. Qed.

(** X9 — prepareFile never fails and never gives an empty MIME type: it
    is the file's declared type when there is one, else the type inferred
    from the file name, else application/octet-stream; the base64 text is
    the encoding of the file's bytes and the file name is passed on. *)
Theorem prepareFile_total `{JsHost} (file : File) (filename : jsstring) :
  exists base64 mimeType,
    prepareFile file filename = Ok (base64, mimeType, filename)
    /\ fileToBase64 (content file) = Ok base64
    /\ mimeType <> []
    /\ (type file <> [] -> mimeType = type file)
    /\ (type file = [] ->
        mimeType = match inferMimeType (Some filename) with
                   | Some m => m
                   | None => lit "application/octet-stream"
                   end).
Proof.
  eexists. eexists. split; [apply prepareFile_eq|].
  split; [apply fileToBase64_eq|]. split; [apply or_ostr_nonempty|].
  unfold or_ostr. destruct (type file) as [|x t]; cbn [truthy_str].
  - split; [contradiction|]. intros _.
    destruct (inferMimeType (Some filename)) as [m|] eqn:Hm;
      cbn [truthy_ostr]; [|reflexivity].
    pose proof (inferMimeType_nonempty _ _ Hm) as Hin.
    destruct (truthy_str m) eqn:Ht; [reflexivity|].
    apply truthy_str_false in Ht. subst m. cbn in Hin.
    repeat destruct Hin as [Hin|Hin]; try discriminate. contradiction.
  - split; [reflexivity | discriminate].
Qed.

Lemma prepareFile_total_witness :
  exists base64,
    @prepareFile exampleHost pngFile (lit "scan.png")
    = Ok (base64, lit "image/png", lit "scan.png").
Proof.
  destruct (@prepareFile_total exampleHost pngFile (lit "scan.png"))
    as (base64 & mimeType & Hp & _ & _ & Ht & _).
  exists base64.
  exact (eq_trans Hp
           (f_equal (fun m => Ok (base64, m, lit "scan.png"))
              (Ht ltac:(discriminate)))).
Defined.

Lemma split_runs_pieces (s : jsstring) (in_run : bool) :
  Forall (Forall (fun c => is_sep c = false)) (split_runs s in_run).
Proof.
  revert in_run. induction s as [|c s IH]; intros in_run; cbn [split_runs].
  - repeat constructor.
  - destruct (is_sep c) eqn:Hc.
    + destruct in_run; [apply IH | constructor; [constructor | apply IH]].
    + specialize (IH false). destruct (split_runs s false) as [|p ps].
      * repeat constructor. exact Hc.
      * inversion_clear IH as [|? ? Hp Hps].
        constructor; [constructor; assumption | assumption].
Qed.

Lemma is_sep_ws (c : N) : is_sep c = false -> is_ws c = false.
Proof. unfold is_sep. now intros [_ Hw]%orb_false_iff. Qed.

Lemma trim_without_ws (s : jsstring) :
  Forall (fun c => is_ws c = false) s -> trim s = s.
Proof.
  intros Hs. unfold trim.
  assert (Hd : forall u, Forall (fun c => is_ws c = false) u -> drop_ws u = u).
  { intros u Hu. apply drop_ws_fixed. intros c r ->. now inversion Hu. }
  rewrite (Hd s Hs), Hd, rev_involutive; [reflexivity|].
  apply Forall_forall. intros c Hc. apply in_rev in Hc.
  rewrite Forall_forall in Hs. now apply Hs.
Qed.

Lemma split_runs_concat (s : jsstring) (in_run : bool) :
  concat (split_runs s in_run) = filter (fun c => negb (is_sep c)) s.
Proof.
  revert in_run. induction s as [|c s IH]; intros in_run;
    cbn [split_runs filter]; [reflexivity|].
  destruct (is_sep c); cbn [negb].
  - destruct in_run; [apply IH | cbn [concat app]; apply IH].
  - rewrite <- (IH false).
    destruct (split_runs s false) as [|p ps]; reflexivity.
Qed.

Lemma map_trim_pieces (pieces : list jsstring) :
  Forall (Forall (fun c => is_sep c = false)) pieces ->
  map trim pieces = pieces.
Proof.
  induction 1 as [|p ps Hp _ IH]; cbn [map]; [reflexivity|].
  rewrite IH, trim_without_ws; [reflexivity|].
  eapply Forall_impl; [|exact Hp]. apply is_sep_ws.
Qed.

Lemma concat_filter_truthy (pieces : list jsstring) :
  concat (filter truthy_str pieces) = concat pieces.
Proof.
  induction pieces as [|p ps IH]; cbn [filter concat]; [reflexivity|].
  destruct p as [|x p]; cbn [truthy_str concat app]; now rewrite IH.
Qed.

Lemma filter_not_sep_nil (s : jsstring) :
  filter (fun c => negb (is_sep c)) s = [] <-> forallb is_sep s = true.
Proof.
  induction s as [|c s IH]; cbn [filter forallb]; [tauto|].
  destruct (is_sep c); cbn [negb andb]; [exact IH|].
  split; discriminate.
Qed.

(** X10 — parseSupportedFormats never returns an empty list. It returns
    the default list when nothing or the empty text is configured. A
    configured text that parses to a JSON array of strings gives that
    array, or the default list when the array is empty. Any other text
    gives the default list when it consists of commas and white space
    only; otherwise it gives pieces that are non-empty, free of commas and
    white space, and that put together are the text without its commas
    and white space. *)
Theorem parseSupportedFormats_nonempty `{JsHost} (value : option jsstring) :
  parseSupportedFormats value <> []
  /\ (value = None \/ value = Some [] ->
      parseSupportedFormats value = DEFAULT_SUPPORTED_FORMATS)
  /\ (forall v parsed, value = Some v -> v <> [] ->
        stringArray (JSON_parse v) = Some parsed ->
        (parsed <> [] -> parseSupportedFormats value = parsed)
        /\ (parsed = [] ->
            parseSupportedFormats value = DEFAULT_SUPPORTED_FORMATS))
  /\ (forall v, value = Some v -> stringArray (JSON_parse v) = None ->
        (forallb is_sep v = true ->
         parseSupportedFormats value = DEFAULT_SUPPORTED_FORMATS)
        /\ (forallb is_sep v = false ->
            Forall (fun format => format <> []
                      /\ Forall (fun c => is_sep c = false) format)
              (parseSupportedFormats value)
            /\ concat (parseSupportedFormats value)
               = filter (fun c => negb (is_sep c)) v)).
Proof.
  unfold parseSupportedFormats. split; [|split; [|split]].
  - destruct value as [[|x v]|]; try discriminate.
    cbn [truthy_str negb].
    destruct (stringArray (JSON_parse (x :: v))) as [[|f l]|]; try discriminate.
    destruct (filter truthy_str _); discriminate.
  - intros [->| ->]; reflexivity.
  - intros v parsed -> Hv Hp. rewrite Hp.
    destruct v; [contradiction|]. cbn [truthy_str negb].
    destruct parsed; cbn [length Nat.ltb Nat.leb]; split; intros Hne; congruence.
  - intros v -> Hp. rewrite Hp.
    pose proof (split_runs_pieces v false) as Hall.
    rewrite (map_trim_pieces _ Hall).
    pose proof (concat_filter_truthy (split_runs v false)) as Hcat.
    rewrite split_runs_concat in Hcat.
    assert (Hgood : Forall (fun format => format <> []
                              /\ Forall (fun c => is_sep c = false) format)
                      (filter truthy_str (split_runs v false))).
    { apply Forall_forall. intros format Hin.
      apply filter_In in Hin as [Hin Ht]. rewrite Forall_forall in Hall.
      split; [now apply truthy_str_true | now apply Hall]. }
    destruct v as [|x v]; cbn [truthy_str negb].
    { split; [reflexivity | discriminate]. }
    destruct (filter truthy_str (split_runs (x :: v) false))
      as [|f l] eqn:Hl; cbn [length Nat.ltb Nat.leb].
    + split; [reflexivity|]. intros Hsep. exfalso.
      cbn [concat] in Hcat. symmetry in Hcat.
      apply filter_not_sep_nil in Hcat. congruence.
    + split; [|auto]. intros Hsep. exfalso.
      apply filter_not_sep_nil in Hsep. rewrite Hsep in Hcat.
      inversion Hgood as [|? ? [Hf _] _]. subst.
      destruct f; [contradiction | discriminate].
Qed.

Lemma parseSupportedFormats_nonempty_witness :
  @parseSupportedFormats exampleHost (Some (lit " image/png, .pdf "))
  <> DEFAULT_SUPPORTED_FORMATS
  /\ concat (@parseSupportedFormats exampleHost (Some (lit " image/png, .pdf ")))
     = lit "image/png.pdf".
Proof.
  destruct (proj2 (proj2 (proj2
              (@parseSupportedFormats_nonempty exampleHost
                 (Some (lit " image/png, .pdf ")))))
              (lit " image/png, .pdf ") eq_refl eq_refl) as [_ Hpieces].
  destruct (Hpieces eq_refl) as [_ Hcat].
  split; [vm_compute; discriminate | exact Hcat].
Defined.

(** ** The upstream call *)

Lemma invokeSiliconFlow_with_key `{JsHost} (w : World)
    (base64 mimeType prompt : jsstring) (env : Env) :
  truthy_ostr (SILICONFLOW_API_KEY env) = true ->
  invokeSiliconFlow w base64 mimeType prompt env =
  let* response := ofHost (fetch w (sentRequest env base64 mimeType prompt)) in
  let* text := ofHost (resp_text response) in
  if negb (resp_ok response) then
    Throw (mkOcrError (resp_status response) "UPSTREAM_ERROR"
             (MsgUpstream
                (match get "message" (get "error" (JSON_parse text)) with
                 | Some v =>
                     if truthy (Some v) then FromPayload v
                     else if truthy_str (resp_statusText response)
                          then FromStatusText (resp_statusText response)
                          else DefaultDetail
                 | None =>
                     if truthy_str (resp_statusText response)
                     then FromStatusText (resp_statusText response)
                     else DefaultDetail
                 end))
             (Some text))
  else
    let* (resultText, confidence) := extractTextFromResponse (JSON_parse text) in
    Ok (resultText, confidence,
        match get "model" (JSON_parse text) with
        | Some m => if truthy (Some m) then m else JStr (req_model (sentRequest env base64 mimeType prompt))
        | None => JStr (req_model (sentRequest env base64 mimeType prompt))
        end).
Proof.
  intros Hk. unfold invokeSiliconFlow. rewrite Hk. reflexivity.
Qed.

Lemma resp_ok_false (r : UpstreamResponse) :
  resp_ok r = false -> (resp_status r < 200 \/ 299 < resp_status r)%Z.
Proof.
  unfold resp_ok. intros Hr. apply andb_false_iff in Hr as [Hr|Hr].
  - left. now apply Z.leb_gt.
  - right. now apply Z.leb_gt.
Qed.

Lemma extractTextFromResponse_trimmed (payload : option json)
    (text : jsstring) (confidence : option json) :
  extractTextFromResponse payload = Ok (text, confidence) -> trim text = text.
Proof.
  unfold extractTextFromResponse.
  destruct (negb (truthy _)); [discriminate|].
  destruct (get "content" _) as [[| b | n | s | items | ps]|];
    cbn [truthy_str negb]; try discriminate;
    (destruct (negb (truthy_str _)); [discriminate|]);
    intros [= <- _]; apply trim_idem.
Qed.

Lemma extractTextFromResponse_Throw_table (payload : option json)
    (e : OcrError) :
  extractTextFromResponse payload = Throw e ->
  In (code e, status e) errorTable /\ details e = None.
Proof.
  unfold extractTextFromResponse, throwOcr.
  destruct (negb (truthy _)); [intros [= <-]; cbn; tauto|].
  destruct (negb (truthy_str _)); [intros [= <-]; cbn; tauto | discriminate].
Qed.

Lemma invokeSiliconFlow_no_key `{JsHost} (w : World)
    (base64 mimeType prompt : jsstring) (env : Env) :
  truthy_ostr (SILICONFLOW_API_KEY env) = false ->
  invokeSiliconFlow w base64 mimeType prompt env
  = throwOcr 500 "MISSING_API_KEY" MsgMissingApiKey.
Proof. intros Hk. unfold invokeSiliconFlow. now rewrite Hk. Qed.

Lemma invokeSiliconFlow_Throw_cases `{JsHost} (w : World)
    (base64 mimeType prompt : jsstring) (env : Env) (e : OcrError) :
  truthy_ostr (SILICONFLOW_API_KEY env) = true ->
  invokeSiliconFlow w base64 mimeType prompt env = Throw e ->
  exists response body,
    fetch w (sentRequest env base64 mimeType prompt) = Some response
    /\ resp_text response = Some body
    /\ ((resp_ok response = false /\ code e = "UPSTREAM_ERROR"%string
         /\ status e = resp_status response /\ details e = Some body)
        \/ (resp_ok response = true /\ code e = "EMPTY_RESPONSE"%string
            /\ status e = 502%Z /\ details e = None)).
Proof.
  intros Hk. rewrite invokeSiliconFlow_with_key by assumption.
  destruct (fetch w _) as [response|]; [|discriminate]. cbn [ofHost bind].
  destruct (resp_text response) as [body|] eqn:Hb; [|discriminate].
  cbn [ofHost bind]. intros Hthrow. exists response, body.
  split; [reflexivity|]. split; [exact Hb|].
  destruct (resp_ok response); cbn [negb] in Hthrow.
  - right.
    apply bind_Throw in Hthrow as [He|([t cf] & _ & He)]; [|discriminate].
    destruct (extractTextFromResponse_Throw _ _ He) as [Hst Hc].
    destruct (extractTextFromResponse_Throw_table _ _ He) as [_ Hd].
    auto.
  - left. injection Hthrow as <-. auto.
Qed.

Lemma invokeSiliconFlow_Ok_cases `{JsHost} (w : World)
    (base64 mimeType prompt : jsstring) (env : Env) (text : jsstring)
    (confidence : option json) (model : json) :
  invokeSiliconFlow w base64 mimeType prompt env = Ok (text, confidence, model) ->
  truthy_ostr (SILICONFLOW_API_KEY env) = true
  /\ exists response body,
       fetch w (sentRequest env base64 mimeType prompt) = Some response
       /\ resp_ok response = true
       /\ resp_text response = Some body
       /\ extractTextFromResponse (JSON_parse body) = Ok (text, confidence)
       /\ text <> [] /\ trim text = text
       /\ truthy (Some model) = true.
Proof.
  destruct (truthy_ostr (SILICONFLOW_API_KEY env)) eqn:Hk.
  2: { rewrite invokeSiliconFlow_no_key by assumption. discriminate. }
  rewrite invokeSiliconFlow_with_key by assumption.
  destruct (fetch w _) as [response|]; [|discriminate]. cbn [ofHost bind].
  destruct (resp_text response) as [body|] eqn:Hb; [|discriminate].
  cbn [ofHost bind].
  destruct (resp_ok response) eqn:Hok; cbn [negb]; [|discriminate].
  intros Hr. apply bind_Ok in Hr as ([t cf] & He & Hr).
  assert (Hm : truthy (Some (JStr (req_model
                  (sentRequest env base64 mimeType prompt)))) = true).
  { cbn [truthy sentRequest req_model]. apply truthy_str_true.
    apply or_default_nonempty. discriminate. }
  assert (Hmodel : truthy (Some model) = true).
  { destruct (get "model" (JSON_parse body)) as [m|].
    - destruct (truthy (Some m)) eqn:Htm; injection Hr as _ _ <-; assumption.
    - injection Hr as _ _ <-. exact Hm. }
  injection Hr as <- <- _.
  split; [reflexivity|].
  exists response, body. repeat split; auto.
  - now apply extractTextFromResponse_Ok in He.
  - now apply extractTextFromResponse_trimmed in He.
Qed.

(** X15 — What invokeSiliconFlow can do. Without an API key it fails with
    MISSING_API_KEY and status 500, whatever the network would answer.
    With one, every [OcrError] it throws is either UPSTREAM_ERROR, carrying
    the status of an answer outside 200-299 and the raw body as details,
    or EMPTY_RESPONSE with status 502 on an answer within 200-299; and a
    result comes from an answer within 200-299, is what
    extractTextFromResponse reads from the parsed body, has a non-empty
    trimmed text and a truthy model. *)
Theorem invokeSiliconFlow_outcomes `{JsHost} (w : World)
    (base64 mimeType prompt : jsstring) (env : Env) :
  let request := sentRequest env base64 mimeType prompt in
  (truthy_ostr (SILICONFLOW_API_KEY env) = false ->
   invokeSiliconFlow w base64 mimeType prompt env
   = throwOcr 500 "MISSING_API_KEY" MsgMissingApiKey)
  /\ (truthy_ostr (SILICONFLOW_API_KEY env) = true ->
      forall e, invokeSiliconFlow w base64 mimeType prompt env = Throw e ->
      exists response body,
        fetch w request = Some response /\ resp_text response = Some body
        /\ ((resp_ok response = false /\ code e = "UPSTREAM_ERROR"%string
             /\ status e = resp_status response /\ details e = Some body)
            \/ (resp_ok response = true /\ code e = "EMPTY_RESPONSE"%string
                /\ status e = 502%Z /\ details e = None)))
  /\ (forall text confidence model,
        invokeSiliconFlow w base64 mimeType prompt env
        = Ok (text, confidence, model) ->
        exists response body,
          fetch w request = Some response /\ resp_ok response = true
          /\ resp_text response = Some body
          /\ extractTextFromResponse (JSON_parse body) = Ok (text, confidence)
          /\ text <> [] /\ trim text = text
          /\ truthy (Some model) = true).
Proof.
  cbv zeta. split; [|split].
  - apply invokeSiliconFlow_no_key.
  - intros Hk e. now apply invokeSiliconFlow_Throw_cases.
  - intros text confidence model Hr.
    now apply invokeSiliconFlow_Ok_cases in Hr as [_ Hr].
Qed.

Lemma invokeSiliconFlow_outcomes_witness :
  @invokeSiliconFlow exampleHost exampleWorld (lit "TWFu") (lit "image/png")
    (lit "Free OCR.") (mkEnv (Some []) None None None None)
  = throwOcr 500 "MISSING_API_KEY" MsgMissingApiKey.
Proof.
  apply (proj1 (@invokeSiliconFlow_outcomes exampleHost exampleWorld
                  (lit "TWFu") (lit "image/png") (lit "Free OCR.")
                  (mkEnv (Some []) None None None None))).
  reflexivity.
Defined.

Lemma strip_trailing_slash_added (s : jsstring) :
  strip_trailing_slash (s ++ [47]) = s.
Proof.
  unfold strip_trailing_slash. rewrite rev_app_distr. cbn.
  apply rev_involutive.
Qed.

(** X23 — A slash at the end of the configured base URL makes no
    difference: with a base URL that is not empty and does not end with a
    slash, the call made with that URL and the call made with the URL
    followed by a slash are the same. *)
Theorem base_url_trailing_slash `{JsHost} (w : World)
    (base64 mimeType prompt : jsstring) (env : Env) (base : jsstring) :
  base <> [] ->
  strip_trailing_slash base = base ->
  sentRequest (withBaseUrl env (Some (base ++ lit "/"))) base64 mimeType prompt
  = sentRequest (withBaseUrl env (Some base)) base64 mimeType prompt
  /\ endpoint (sentRequest (withBaseUrl env (Some base)) base64 mimeType prompt)
     = base ++ lit "/v1/chat/completions"
  /\ invokeSiliconFlow w base64 mimeType prompt
       (withBaseUrl env (Some (base ++ lit "/")))
     = invokeSiliconFlow w base64 mimeType prompt (withBaseUrl env (Some base)).
Proof.
  intros Hne Hs.
  assert (He : strip_trailing_slash
                 (or_default (Some (base ++ lit "/")) (lit "https://api.siliconflow.cn"))
               = strip_trailing_slash
                   (or_default (Some base) (lit "https://api.siliconflow.cn"))).
  { unfold or_default, or_str.
    rewrite (proj2 (truthy_str_true base) Hne).
    assert (Hb : truthy_str (base ++ lit "/") = true)
      by (destruct base; [contradiction | reflexivity]).
    rewrite Hb. change (lit "/") with [47].
    now rewrite strip_trailing_slash_added, Hs. }
  split; [|split].
  - unfold sentRequest, withBaseUrl.
    cbn [SILICONFLOW_BASE_URL SILICONFLOW_API_KEY SILICONFLOW_MODEL_ID].
    now rewrite He.
  - unfold sentRequest, withBaseUrl.
    cbn [SILICONFLOW_BASE_URL endpoint]. unfold or_default, or_str.
    now rewrite (proj2 (truthy_str_true base) Hne), Hs.
  - unfold invokeSiliconFlow, withBaseUrl.
    cbn [SILICONFLOW_BASE_URL SILICONFLOW_API_KEY SILICONFLOW_MODEL_ID].
    now rewrite He.
Qed.

Lemma base_url_trailing_slash_witness :
  endpoint (sentRequest (withBaseUrl exampleEnv (Some (lit "https://example.test/api/")))
              (lit "TWFu") (lit "image/png") (lit "Free OCR."))
  = lit "https://example.test/api/v1/chat/completions".
Proof.
  destruct (@base_url_trailing_slash exampleHost exampleWorld (lit "TWFu")
              (lit "image/png") (lit "Free OCR.") exampleEnv
              (lit "https://example.test/api"))
    as (Hsame & Hend & _).
  - discriminate.
  - reflexivity.
  - exact (eq_trans (f_equal endpoint Hsame) Hend).
Defined.

(** ** The handler *)

Lemma throwOcr_table {A} (st : Z) (cd : string) (m : Message) (e : OcrError) :
  In (cd, st) errorTable -> @throwOcr A st cd m = Throw e -> tableError e.
Proof. intros Hin [= <-]. now split. Qed.

Ltac table_entry := cbn [errorTable In]; tauto.

Lemma resolveTaskType_Throw (forced : option TaskType)
    (candidate : option jsstring) (e : OcrError) :
  resolveTaskType forced candidate = Throw e ->
  forced = None /\ details e = None /\ status e = 400%Z
  /\ ((code e = "MISSING_TASK_TYPE"%string /\ truthy_ostr candidate = false)
      \/ (code e = "INVALID_TASK_TYPE"%string
          /\ exists s, candidate = Some s
                       /\ TaskTypeSchema_safeParse s = None)).
Proof.
  unfold resolveTaskType. destruct forced as [t|].
  { rewrite taskTypeName_truthy. discriminate. }
  destruct (truthy_ostr candidate) eqn:Hc; cbn [negb].
  - destruct candidate as [s|]; [|discriminate].
    destruct (TaskTypeSchema_safeParse s) eqn:Hs; [discriminate|].
    intros [= <-]. repeat split. right. split; [reflexivity|]. now exists s.
  - intros [= <-]. repeat split. now left.
Qed.

Lemma base64ToUint8Array_never_throws (s : jsstring) (e : OcrError) :
  base64ToUint8Array s <> Throw e.
Proof.
  unfold base64ToUint8Array. destruct (atob _); discriminate.
Qed.

Lemma parseInput_Throw `{JsHost} (c : Request) (forced : option TaskType)
    (e : OcrError) :
  parseInput c forced = Throw e ->
  details e = None
  /\ In (code e, status e)
       [("UNSUPPORTED_CONTENT_TYPE"%string, 415%Z); ("INVALID_FILE"%string, 400%Z);
        ("INVALID_JSON"%string, 400%Z); ("MISSING_TASK_TYPE"%string, 400%Z);
        ("INVALID_TASK_TYPE"%string, 400%Z)]
  /\ (code e = "MISSING_TASK_TYPE"%string \/ code e = "INVALID_TASK_TYPE"%string ->
      forced = None)
  /\ (code e = "INVALID_TASK_TYPE"%string -> declaresMultipart c).
Proof.
  unfold parseInput.
  destruct (header_content_type c) as [h|] eqn:Hh.
  2: { cbn. intros [= <-]; cbn; repeat split; try tauto; intros Hc;
         try discriminate; destruct Hc; discriminate. }
  destruct (includes (lit "multipart/form-data") h) eqn:Hm.
  - assert (Hd : declaresMultipart c) by (exists h; now split).
    unfold parseMultipart.
    destruct (req_parseBody c) as [body|]; [|discriminate]. cbn [ofHost bind].
    destruct (first (assoc (lit "image") body)) as [[s|f]|].
    1, 3: intros [= <-]; cbn; repeat split; try tauto; intros Hc;
          try discriminate; destruct Hc; discriminate.
    intros Hp. apply bind_Throw in Hp as [Hp|(t & _ & Hp)]; [|discriminate].
    apply resolveTaskType_Throw in Hp as (-> & Hdet & Hst & [[Hc _]|[Hc _]]);
      rewrite Hc, Hst; cbn; repeat split; auto; tauto.
  - destruct (includes (lit "application/json") h) eqn:Hj.
    + unfold parseJson.
      destruct (req_json c) as [raw|]; [|discriminate]. cbn [ofHost bind].
      destruct (JsonRequestSchema_safeParse raw) as [issues|payload] eqn:Hs.
      { intros [= <-]; cbn; repeat split; try tauto; intros Hc;
          try discriminate; destruct Hc; discriminate. }
      rewrite (JsonRequestSchema_safeParse_image _ _ Hs). cbn [negb].
      intros Hp. apply bind_Throw in Hp as [Hp|(bytes & _ & Hp)].
      { now apply base64ToUint8Array_never_throws in Hp. }
      apply bind_Throw in Hp as [Hp|(t & _ & Hp)]; [|discriminate].
      apply resolveTaskType_Throw
        in Hp as (-> & Hdet & Hst & [[Hc _]|[Hc (s & Hcand & Hnone)]]).
      * rewrite Hc, Hst; cbn; repeat split; auto; try tauto.
        intros Hx. discriminate.
      * exfalso. apply JsonRequestSchema_safeParse_sound in Hs
          as (props & _ & _ & _ & _ & _ & _ & Henum).
        destruct (Henum s Hcand) as (t & ->).
        rewrite TaskTypeSchema_safeParse_name in Hnone. discriminate.
    + intros [= <-]; cbn; repeat split; try tauto; intros Hc;
        try discriminate; destruct Hc; discriminate.
Qed.

Lemma buildPrompt_Throw (config : TaskConfig)
    (customPrompt targetText : option jsstring) (e : OcrError) :
  buildPrompt config customPrompt targetText = Throw e ->
  e = mkOcrError 400 "MISSING_TARGET_TEXT" MsgMissingTargetText None.
Proof.
  unfold buildPrompt.
  destruct (requiresTargetText config && negb (truthy_ostr targetText));
    [now intros [= <-]|].
  destruct (allowCustomPrompt config && truthy_ostr customPrompt); discriminate.
Qed.

Lemma validateFile_Throw `{JsHost} (file : File) (filename : jsstring)
    (env : Env) (e : OcrError) :
  validateFile file filename env = Throw e ->
  details e = None
  /\ ((code e, status e) = ("FILE_TOO_LARGE"%string, 413%Z)
      \/ (code e, status e) = ("UNSUPPORTED_FORMAT"%string, 400%Z)).
Proof.
  unfold validateFile. destruct (Qltb _ _); [intros [= <-]; auto|].
  destruct (negb (isAllowedFormat _ _ _)); [intros [= <-]; auto | discriminate].
Qed.

Lemma invokeSiliconFlow_Throw `{JsHost} (w : World)
    (base64 mimeType prompt : jsstring) (env : Env) (e : OcrError) :
  invokeSiliconFlow w base64 mimeType prompt env = Throw e ->
  knownError e
  /\ In (code e) ["MISSING_API_KEY"%string; "UPSTREAM_ERROR"%string;
                   "EMPTY_RESPONSE"%string].
Proof.
  unfold knownError, tableError. intros He.
  destruct (truthy_ostr (SILICONFLOW_API_KEY env)) eqn:Hk.
  - destruct (invokeSiliconFlow_Throw_cases w _ _ _ env e Hk He)
      as (r & body & _ & _ & [(Hok & Hc & Hst & Hd)|(_ & Hc & Hst & Hd)]).
    + split; [|rewrite Hc; cbn; tauto].
      right. rewrite Hst. split; [exact Hc|].
      split; [now apply resp_ok_false | now exists body].
    + split; [|rewrite Hc; cbn; tauto].
      left. rewrite Hc, Hst. split; [table_entry | exact Hd].
  - rewrite invokeSiliconFlow_no_key in He by assumption. injection He as <-.
    split; [|cbn; tauto]. left. split; [table_entry | reflexivity].
Qed.

Lemma processOcrRequest_Throw `{JsHost} (w : World) (env : Env) (c : Request)
    (options : ProcessOptions) (e : OcrError) :
  processOcrRequest w env c options = Throw e ->
  parseInput c (forcedTaskType options) = Throw e
  \/ (knownError e
      /\ In (code e)
           ["MISSING_TARGET_TEXT"%string; "FILE_TOO_LARGE"%string;
            "UNSUPPORTED_FORMAT"%string; "MISSING_API_KEY"%string;
            "UPSTREAM_ERROR"%string; "EMPTY_RESPONSE"%string]).
Proof.
  unfold processOcrRequest, knownError, tableError. intros Hp.
  apply bind_Throw in Hp as [Hp|(p & _ & Hp)]; [now left | right].
  apply bind_Throw in Hp as [Hp|(prompt & _ & Hp)].
  { apply buildPrompt_Throw in Hp. subst e. split; [left; split|];
      [table_entry | reflexivity | cbn; tauto]. }
  apply bind_Throw in Hp as [Hp|(validated & _ & Hp)].
  { apply validateFile_Throw in Hp as (Hd & [Hc|Hc]); injection Hc as Hc Hst;
      (split; [left; split; [rewrite Hc, Hst; table_entry | exact Hd]
              | rewrite Hc; cbn; tauto]). }
  rewrite prepareFile_eq in Hp. cbn [bind] in Hp.
  apply bind_Throw in Hp as [Hp|([[t cf] md] & _ & Hp)]; [|discriminate].
  apply invokeSiliconFlow_Throw in Hp as [Hk Hc]. split; [exact Hk|].
  cbn [In] in Hc |- *. tauto.
Qed.

Lemma parseInput_filename_nonempty `{JsHost} (c : Request)
    (forced : option TaskType) (p : ParsedInput) :
  parseInput c forced = Ok p -> filename p <> [].
Proof.
  intros Hp. apply parseInput_Ok_path in Hp as [[_ Hp]|[_ Hp]].
  - unfold parseMultipart in Hp.
    destruct (req_parseBody c) as [body|]; [|discriminate].
    cbn [ofHost bind] in Hp.
    destruct (first (assoc (lit "image") body)) as [[s|f]|]; try discriminate.
    apply bind_Ok in Hp as (t & _ & Hp). injection Hp as <-.
    apply or_str_nonempty. discriminate.
  - unfold parseJson in Hp.
    destruct (req_json c) as [raw|]; [|discriminate].
    cbn [ofHost bind] in Hp.
    destruct (JsonRequestSchema_safeParse raw) as [issues|payload];
      [discriminate|].
    destruct (negb (truthy_str (j_image payload))); [discriminate|].
    apply bind_Ok in Hp as (bytes & _ & Hp).
    apply bind_Ok in Hp as (t & _ & Hp). injection Hp as <-.
    apply or_default_nonempty. discriminate.
Qed.

(** The stages a successful request went through. *)
Lemma processOcrRequest_Ok `{JsHost} (w : World) (env : Env) (c : Request)
    (options : ProcessOptions) (data : OcrData) :
  processOcrRequest w env c options = Ok data ->
  exists p,
    parseInput c (forcedTaskType options) = Ok p
    /\ buildPrompt (TASK_CONFIGS (taskType p)) (customPrompt p) (targetText p)
       = Ok (data_promptUsed data)
    /\ validateFile (file p) (filename p) env = Ok tt
    /\ invokeSiliconFlow w (btoa_units (fromCharCode (content (file p))))
         (or_ostr (type (file p)) (inferMimeType (Some (filename p)))
            (lit "application/octet-stream"))
         (data_promptUsed data) env
       = Ok (data_text data, data_confidence data, data_model data)
    /\ data_taskType data = taskType p
    /\ data_filename data = filename p
    /\ data_processingTime data = measured_ms w.
Proof.
  unfold processOcrRequest. intros Hd.
  apply bind_Ok in Hd as (p & Hp & Hd). exists p.
  apply bind_Ok in Hd as (prompt & Hprompt & Hd).
  apply bind_Ok in Hd as ([] & Hv & Hd).
  rewrite prepareFile_eq in Hd. cbn [bind] in Hd.
  apply bind_Ok in Hd as ([[text conf] model] & Hi & Hd).
  injection Hd as <-. cbn. auto 10.
Qed.

(** X16 — A response that reports success has status 200 and comes from
    a request that went through every stage: its input parsed, the prompt
    in [promptUsed] is the one built for the parsed input, the file passed
    validation, and an API key was configured. Its text is non-empty and
    trimmed, its model is truthy, its file name is non-empty and its
    processing time is the measured one. *)
Theorem success_envelope_invariants `{JsHost} (w : World) (env : Env)
    (c : Request) (options : ProcessOptions) (st : Z) (data : OcrData) :
  handleOcrRequest w env c options = mkResponse st (SuccessBody data) ->
  st = 200%Z
  /\ (exists p,
        parseInput c (forcedTaskType options) = Ok p
        /\ data_taskType data = taskType p
        /\ data_filename data = filename p
        /\ buildPrompt (TASK_CONFIGS (taskType p)) (customPrompt p) (targetText p)
           = Ok (data_promptUsed data)
        /\ validateFile (file p) (filename p) env = Ok tt)
  /\ truthy_ostr (SILICONFLOW_API_KEY env) = true
  /\ data_text data <> [] /\ trim (data_text data) = data_text data
  /\ truthy (Some (data_model data)) = true
  /\ data_filename data <> []
  /\ data_processingTime data = measured_ms w.
Proof.
  intros Hr. apply handleOcrRequest_success in Hr as [Hd ->].
  apply processOcrRequest_Ok in Hd
    as (p & Hp & Hprompt & Hv & Hi & Ht & Hf & Hm).
  apply invokeSiliconFlow_Ok_cases in Hi
    as (Hk & r & body & _ & _ & _ & _ & Hne & Htrim & Hmodel).
  split; [reflexivity|]. split; [now exists p|].
  repeat split; auto.
  rewrite Hf. now apply parseInput_filename_nonempty in Hp.
Qed.

Lemma success_envelope_invariants_witness :
  trim (lit "Hello") = lit "Hello".
Proof.
  refine (proj1 (proj2 (proj2 (proj2 (proj2
           (@success_envelope_invariants exampleHost exampleWorld exampleEnv
              (multipartRequest "total" "general_ocr")
              (mkProcessOptions (Some text_localization)) 200
              (mkOcrData (lit "Hello") None 12
                 (JStr (lit "deepseek-ai/DeepSeek-OCR")) text_localization
                 (lit "<image>" ++ newline
                  ++ lit "Locate <|ref|>total<|/ref|> in the image.")
                 (lit "scan.png"))
              _)))))).
  vm_compute. reflexivity.
Defined.

Lemma data_url_split (mimeType base64 : jsstring) :
  lit "data:" ++ mimeType ++ lit ";base64," ++ base64
  = (lit "data:" ++ mimeType ++ lit ";base64") ++ 44 :: base64.
Proof.
  change (lit ";base64,") with (lit ";base64" ++ [44]).
  now rewrite <- !app_assoc.
Qed.

(** X17 — For every successful response the upstream service was sent a
    request and answered it with a status within 200-299: the request's
    prompt is the response's [promptUsed], its image URL is a data URI
    that base64ToUint8Array decodes to the bytes of the uploaded file, and
    the response's text and confidence are what extractTextFromResponse
    reads from the parsed answer. *)
Theorem success_upstream_request `{JsHost} (w : World) (env : Env)
    (c : Request) (options : ProcessOptions) (st : Z) (data : OcrData) :
  handleOcrRequest w env c options = mkResponse st (SuccessBody data) ->
  exists p base64 mimeType response body,
    parseInput c (forcedTaskType options) = Ok p
    /\ mimeType <> []
    /\ fetch w (sentRequest env base64 mimeType (data_promptUsed data))
       = Some response
    /\ resp_ok response = true
    /\ resp_text response = Some body
    /\ extractTextFromResponse (JSON_parse body)
       = Ok (data_text data, data_confidence data)
    /\ prompt_text (sentRequest env base64 mimeType (data_promptUsed data))
       = data_promptUsed data
    /\ base64ToUint8Array
         (image_url (sentRequest env base64 mimeType (data_promptUsed data)))
       = Ok (content (file p)).
Proof.
  intros Hr. apply handleOcrRequest_success in Hr as [Hd _].
  apply processOcrRequest_Ok in Hd as (p & Hp & _ & _ & Hi & _).
  apply invokeSiliconFlow_Ok_cases in Hi
    as (_ & r & body & Hfetch & Hok & Hbody & Hex & _).
  exists p. eexists. eexists. exists r, body.
  split; [exact Hp|]. split; [apply or_ostr_nonempty|].
  split; [exact Hfetch|]. split; [exact Hok|]. split; [exact Hbody|].
  split; [exact Hex|]. split; [reflexivity|].
  cbn [image_url sentRequest]. rewrite data_url_split.
  apply base64ToUint8Array_after_comma.
Qed.

Lemma success_upstream_request_witness :
  exists p base64 mimeType,
    @parseInput exampleHost (multipartRequest "total" "general_ocr") None = Ok p
    /\ base64ToUint8Array
         (image_url (sentRequest exampleEnv base64 mimeType
                       (lit "<image>" ++ newline ++ lit "<|grounding|>OCR this image.")))
       = Ok (content (file p)).
Proof.
  destruct (@success_upstream_request exampleHost exampleWorld exampleEnv
              (multipartRequest "total" "general_ocr") (mkProcessOptions None) 200
              (mkOcrData (lit "Hello") None 12
                 (JStr (lit "deepseek-ai/DeepSeek-OCR")) general_ocr
                 (lit "<image>" ++ newline ++ lit "<|grounding|>OCR this image.")
                 (lit "scan.png")))
    as (p & b & m & r & body & Hp & _ & _ & _ & _ & _ & _ & Hdec).
  - vm_compute. reflexivity.
  - exists p, b, m. split; [exact Hp | exact Hdec].
Defined.





(** X24 — A task-type error is only ever reported where a task type has
    to be declared: MISSING_TASK_TYPE and INVALID_TASK_TYPE occur on the
    generic endpoint only, never on an alias endpoint, and
    INVALID_TASK_TYPE occurs on the multipart path only (a JSON body with
    such a task type is an INVALID_JSON). *)
Theorem task_type_errors_where_declared `{JsHost} (w : World) (env : Env)
    (c : Request) (options : ProcessOptions) (st : Z) (cd : string)
    (m : Message) (d : option jsstring) :
  handleOcrRequest w env c options = mkResponse st (ErrorBody cd m d) ->
  (cd = "MISSING_TASK_TYPE"%string \/ cd = "INVALID_TASK_TYPE"%string ->
   forcedTaskType options = None)
  /\ (cd = "INVALID_TASK_TYPE"%string -> declaresMultipart c).
Proof.
  intros Hr.
  apply handleOcrRequest_error in Hr as [(Hp & _)|(_ & _ & -> & _)].
  2: { split; [intros [Hc|Hc] | intros Hc]; discriminate. }
  apply processOcrRequest_Throw in Hp as [Hp|[_ Hin]].
  - apply parseInput_Throw in Hp as (_ & _ & Hforced & Hmulti). now split.
  - cbn [code In] in Hin. split.
    + intros [Hc|Hc]; rewrite Hc in Hin;
        repeat destruct Hin as [Hin|Hin]; try discriminate; contradiction.
    + intros Hc; rewrite Hc in Hin;
        repeat destruct Hin as [Hin|Hin]; try discriminate; contradiction.
Qed.

Lemma task_type_errors_where_declared_witness :
  declaresMultipart (multipartRequest "total" "bogus").
Proof.
  refine (proj2 (@task_type_errors_where_declared exampleHost exampleWorld
                   exampleEnv (multipartRequest "total" "bogus")
                   (mkProcessOptions None) 400 "INVALID_TASK_TYPE"
                   MsgInvalidTaskType None _) eq_refl).
  reflexivity.
Defined.

Lemma parseInput_undeclared `{JsHost} (c : Request) (forced : option TaskType) :
  ~ declaresMultipart c -> ~ declaresJson c ->
  parseInput c forced
  = throwOcr 415 "UNSUPPORTED_CONTENT_TYPE" MsgUnsupportedContentType.
Proof.
  intros Hm Hj. unfold parseInput.
  destruct (header_content_type c) as [h|] eqn:Hh; [|reflexivity].
  destruct (includes (lit "multipart/form-data") h) eqn:Him.
  { exfalso. apply Hm. now exists h. }
  destruct (includes (lit "application/json") h) eqn:Hij; [|reflexivity].
  exfalso. apply Hj. now exists h.
Qed.

Lemma parseInput_Throw_declared `{JsHost} (c : Request)
    (forced : option TaskType) (e : OcrError) :
  parseInput c forced = Throw e ->
  declaresMultipart c \/ declaresJson c ->
  code e <> "UNSUPPORTED_CONTENT_TYPE"%string.
Proof.
  intros Hp [Hd|Hd].
  - rewrite (parseInput_multipart _ _ Hd) in Hp. unfold parseMultipart in Hp.
    destruct (req_parseBody c) as [body|]; [|discriminate].
    cbn [ofHost bind] in Hp.
    destruct (first (assoc (lit "image") body)) as [[s|f]|].
    1, 3: injection Hp as <-; discriminate.
    apply bind_Throw in Hp as [Hp|(t & _ & Hp)]; [|discriminate].
    apply resolveTaskType_Throw in Hp as (_ & _ & _ & [[Hc _]|[Hc _]]);
      rewrite Hc; discriminate.
  - rewrite (parseInput_json _ _ Hd) in Hp. unfold parseJson in Hp.
    destruct (req_json c) as [raw|]; [|discriminate].
    cbn [ofHost bind] in Hp.
    destruct (JsonRequestSchema_safeParse raw) as [issues|payload].
    { injection Hp as <-; discriminate. }
    destruct (negb (truthy_str (j_image payload))).
    { injection Hp as <-; discriminate. }
    apply bind_Throw in Hp as [Hp|(bytes & _ & Hp)].
    { now apply base64ToUint8Array_never_throws in Hp. }
    apply bind_Throw in Hp as [Hp|(t & _ & Hp)]; [|discriminate].
    apply resolveTaskType_Throw in Hp as (_ & _ & _ & [[Hc _]|[Hc _]]);
      rewrite Hc; discriminate.
Qed.

(** X1 — A request is answered with UNSUPPORTED_CONTENT_TYPE exactly when
    its Content-Type header, taken as empty when absent, contains neither
    "multipart/form-data" nor "application/json"; the answer then is the
    415 error envelope without details, on every endpoint and whatever the
    body, the environment and the upstream are. *)
Theorem unsupported_content_type_exactly `{JsHost} (w : World) (env : Env)
    (c : Request) (options : ProcessOptions) :
  (~ declaresMultipart c /\ ~ declaresJson c ->
   handleOcrRequest w env c options
   = errorResponse 415 "UNSUPPORTED_CONTENT_TYPE" MsgUnsupportedContentType)
  /\ (forall st m d,
        handleOcrRequest w env c options
        = mkResponse st (ErrorBody "UNSUPPORTED_CONTENT_TYPE" m d) ->
        ~ declaresMultipart c /\ ~ declaresJson c).
Proof.
  split.
  - intros [Hm Hj]. apply handleOcrRequest_Throw; [reflexivity|].
    apply processOcrRequest_parse_Throw. now apply parseInput_undeclared.
  - intros st m d Hr.
    apply handleOcrRequest_error in Hr as [(Hp & _)|(_ & _ & Hc & _)];
      [|discriminate].
    apply processOcrRequest_Throw in Hp as [Hp|[_ Hin]].
    + split; intros Hd;
        refine (parseInput_Throw_declared _ _ _ Hp _ eq_refl);
        [now left | now right].
    + exfalso. cbn [code In] in Hin.
      repeat destruct Hin as [Hin|Hin]; try discriminate; contradiction.
Qed.

Lemma unsupported_content_type_exactly_witness :
  @handleOcrRequest exampleHost exampleWorld exampleEnv
    (mkRequest (Some (lit "text/plain")) None None) (mkProcessOptions None)
  = errorResponse 415 "UNSUPPORTED_CONTENT_TYPE" MsgUnsupportedContentType.
Proof.
  apply (@unsupported_content_type_exactly exampleHost).
  split; intros (h & Hh & Hi); injection Hh as <-;
    [|destruct Hi as [_ Hi]]; vm_compute in Hi; discriminate.
Defined.

(** X19 — Only text_localization takes a custom prompt: a successful
    response for any other task reports the task's default prompt as the
    prompt used, whatever [prompt] and [text] the request carried. *)
Theorem promptUsed_is_default_prompt `{JsHost} (w : World) (env : Env)
    (c : Request) (options : ProcessOptions) (st : Z) (data : OcrData) :
  handleOcrRequest w env c options = mkResponse st (SuccessBody data) ->
  data_taskType data <> text_localization ->
  data_promptUsed data = defaultPrompt (TASK_CONFIGS (data_taskType data)).
Proof.
  intros Hr Ht. apply handleOcrRequest_success in Hr as [Hd _].
  apply processOcrRequest_Ok in Hd as (p & _ & Hprompt & _ & _ & Htask & _).
  rewrite Htask in *. unfold buildPrompt in Hprompt.
  destruct (taskType p); try contradiction;
    cbn [TASK_CONFIGS requiresTargetText allowCustomPrompt andb] in Hprompt;
    now injection Hprompt as <-.
Qed.

Lemma promptUsed_is_default_prompt_witness :
  lit "<image>" ++ newline ++ lit "<|grounding|>OCR this image."
  = defaultPrompt (TASK_CONFIGS general_ocr).
Proof.
  refine (@promptUsed_is_default_prompt exampleHost exampleWorld exampleEnv
            (multipartRequest "total" "general_ocr") (mkProcessOptions None) 200
            (mkOcrData (lit "Hello") None 12
               (JStr (lit "deepseek-ai/DeepSeek-OCR")) general_ocr
               (lit "<image>" ++ newline ++ lit "<|grounding|>OCR this image.")
               (lit "scan.png"))
            _ _).
  - vm_compute. reflexivity.
  - discriminate.
Defined.

(** X20 — The text_localization prompt for a target text without a dollar
    sign: the image tag, a line break, the sentence "Locate <|ref|>…<|/ref|>
    in the image." with the target between the markers, and the custom
    prompt on a line of its own when a non-empty one is given. *)
Theorem localization_prompt_shape
    (customPrompt : option jsstring) (target : jsstring) :
  target <> [] -> ~ In 36 target ->
  buildPrompt (TASK_CONFIGS text_localization) customPrompt (Some target)
  = Ok (lit "<image>" ++ newline ++ lit "Locate <|ref|>" ++ target
        ++ lit "<|/ref|> in the image."
        ++ match customPrompt with
           | Some p => if truthy_str p then newline ++ p else []
           | None => []
           end).
Proof.
  intros Hne Hd.
  rewrite buildPrompt_literal by (intros _; now exists target).
  cbn [TASK_CONFIGS requiresTargetText allowCustomPrompt defaultPrompt andb].
  assert (Hs : replace_literal (lit "{{target}}") target
                 (lit "<image>" ++ newline
                  ++ lit "Locate <|ref|>{{target}}<|/ref|> in the image.")
               = lit "<image>" ++ newline ++ lit "Locate <|ref|>" ++ target
                 ++ lit "<|/ref|> in the image.") by reflexivity.
  rewrite Hs. f_equal. rewrite <- !app_assoc. do 4 f_equal.
  destruct customPrompt as [p|]; [|reflexivity].
  cbn [truthy_ostr]. now destruct (truthy_str p).
Qed.

Lemma localization_prompt_shape_witness :
  buildPrompt (TASK_CONFIGS text_localization) (Some (lit "in red"))
    (Some (lit "total"))
  = Ok (lit "<image>" ++ newline ++ lit "Locate <|ref|>" ++ lit "total"
        ++ lit "<|/ref|> in the image." ++ newline ++ lit "in red").
Proof.
  apply (localization_prompt_shape (Some (lit "in red")) (lit "total")).
  - discriminate.
  - vm_compute. intuition discriminate.
Defined.

(** X21 — The size limit is positive whatever MAX_FILE_SIZE is set to, so
    an empty file is never rejected as too large: validateFile either
    accepts it or fails with UNSUPPORTED_FORMAT. *)
Theorem empty_file_never_too_large `{JsHost} (file : File)
    (filename : jsstring) (env : Env) :
  content file = [] ->
  (0 < getMaxFileSize (MAX_FILE_SIZE env))%Q
  /\ (validateFile file filename env = Ok tt
      \/ validateFile file filename env
         = throwOcr 400 "UNSUPPORTED_FORMAT" MsgUnsupportedFormat).
Proof.
  intros Hc. pose proof (getMaxFileSize_pos (MAX_FILE_SIZE env)) as Hpos.
  split; [exact Hpos|]. unfold validateFile, size. rewrite Hc.
  change (inject_Z (Z.of_N (N.of_nat (length (@nil byte))))) with 0%Q.
  rewrite (proj2 (Qltb_ge _ _) (Qlt_le_weak _ _ Hpos)).
  destruct (negb (isAllowedFormat _ _ _)); auto.
Qed.

Lemma empty_file_never_too_large_witness :
  @validateFile exampleHost (mkFile (lit "empty.png") [] []) (lit "empty.png")
    exampleEnv = Ok tt
  \/ @validateFile exampleHost (mkFile (lit "empty.png") [] [])
       (lit "empty.png") exampleEnv
     = throwOcr 400 "UNSUPPORTED_FORMAT" MsgUnsupportedFormat.
Proof.
  apply (@empty_file_never_too_large exampleHost
           (mkFile (lit "empty.png") [] []) (lit "empty.png") exampleEnv).
  reflexivity.
Defined.

(** X25 — A request that fails before the upstream is called gets the same
    answer whatever the upstream would have done: an error response whose
    code is none of UPSTREAM_ERROR, EMPTY_RESPONSE and INTERNAL_ERROR does
    not depend on the upstream service or on the time measured. *)
Theorem early_errors_ignore_upstream `{JsHost} (w w' : World) (env : Env)
    (c : Request) (options : ProcessOptions) (st : Z) (cd : string)
    (m : Message) (d : option jsstring) :
  handleOcrRequest w env c options = mkResponse st (ErrorBody cd m d) ->
  ~ In cd ["UPSTREAM_ERROR"%string; "EMPTY_RESPONSE"%string;
           "INTERNAL_ERROR"%string] ->
  handleOcrRequest w' env c options = mkResponse st (ErrorBody cd m d).
Proof.
  unfold handleOcrRequest, processOcrRequest.
  destruct (parseInput c (forcedTaskType options)) as [p|e|]; cbn [bind];
    [|auto..].
  destruct (buildPrompt _ _ _) as [prompt|e|]; cbn [bind]; [|auto..].
  destruct (validateFile _ _ _) as [[]|e|]; cbn [bind]; [|auto..].
  rewrite prepareFile_eq. cbn [bind].
  destruct (truthy_ostr (SILICONFLOW_API_KEY env)) eqn:Hk.
  2: { rewrite !invokeSiliconFlow_no_key by assumption. auto. }
  destruct (invokeSiliconFlow w _ _ _ _) as [[[t cf] md]|e|] eqn:Hi;
    cbn [bind handleError].
  - discriminate.
  - intros Hr Hn. exfalso. apply Hn.
    apply Response_json_inv in Hr as (_ & Hb & _). injection Hb as -> _ _.
    destruct (invokeSiliconFlow_Throw_cases w _ _ _ env e Hk Hi)
      as (r & body & _ & _ & [(_ & Hc & _)|(_ & Hc & _)]);
      rewrite Hc; cbn [In]; tauto.
  - intros Hr Hn. exfalso. apply Hn.
    apply Response_json_inv in Hr as (_ & Hb & _). injection Hb as -> _ _.
    cbn [In]. tauto.
Qed.

Lemma early_errors_ignore_upstream_witness :
  @handleOcrRequest exampleHost (mkWorld (fun _ => None) 0) exampleEnv
    (multipartRequest "total" "bogus") (mkProcessOptions None)
  = mkResponse 400 (ErrorBody "INVALID_TASK_TYPE" MsgInvalidTaskType None).
Proof.
  apply (@early_errors_ignore_upstream exampleHost exampleWorld
           (mkWorld (fun _ => None) 0)).
  - reflexivity.
  - cbn [In]. intuition discriminate.
Defined.
